(** * Clean-Energy-Predictor: the prediction pipeline and the mock service

    A shallow embedding of
      - [backend/app/services/prediction/prediction_service_old.py]
        (geocoding, weather fetch, normalisation, day filter, window
        selection, impact equivalents),
      - [backend/app/services/prediction.py]
        (the mock generator and the impact metrics of the /impact route),
      - [backend/app/models/prediction.py] (the validated response models).

    Numbers.  Python and numpy floats are embedded as extended rationals:
    a finite float is the rational it denotes and arithmetic on finite
    values is exact (binary rounding error is idealised away), while the
    IEEE special values [nan], [inf] and [-inf] are kept, because the code
    reaches them (a zero-variance batch divides zero by zero).  Signed
    zeros are not distinguished.  Where the code rounds a computed value
    to decimals or truncates it to an integer, the statements say no more
    than binary arithmetic keeps: the reported value is next to the exact
    one ([rounded_to], [Qtrunc_bounds]), on domains where the doubles do
    not overflow. *)

From Stdlib Require Import ZArith QArith Qround Qminmax List String Bool Lia Lqa.
Import ListNotations.

Local Open Scope Q_scope.

(** ** Floats *)

Module Float.

Inductive float : Type :=
| Fin (q : Q)
| PInf
| NInf
| NaN.

Definition of_int (n : Z) : float := Fin (inject_Z n).

Definition fneg (a : float) : float :=
  match a with
  | Fin x => Fin (- x)
  | PInf => NInf
  | NInf => PInf
  | NaN => NaN
  end.

Definition fadd (a b : float) : float :=
  match a, b with
  | NaN, _ | _, NaN => NaN
  | Fin x, Fin y => Fin (x + y)
  | PInf, NInf | NInf, PInf => NaN
  | PInf, _ | _, PInf => PInf
  | NInf, _ | _, NInf => NInf
  end.

Definition fsub (a b : float) : float := fadd a (fneg b).

(** Sign of a finite value, as a comparison with zero. *)
Definition Qsign (x : Q) : comparison := Qcompare x 0.

Definition inf_of_sign (c : comparison) : float :=
  match c with Gt => PInf | Lt => NInf | Eq => NaN end.

Definition sign_of (a : float) : comparison :=
  match a with
  | Fin x => Qsign x
  | PInf => Gt
  | NInf => Lt
  | NaN => Eq
  end.

Definition sign_mul (c1 c2 : comparison) : comparison :=
  match c1, c2 with
  | Eq, _ | _, Eq => Eq
  | Gt, c | c, Gt => c
  | Lt, Lt => Gt
  end.

Definition fmul (a b : float) : float :=
  match a, b with
  | NaN, _ | _, NaN => NaN
  | Fin x, Fin y => Fin (x * y)
  | _, _ => inf_of_sign (sign_mul (sign_of a) (sign_of b))
  end.

(** IEEE division, as numpy performs it and as Python performs it once the
    divisor is known not to be zero: [0/0] is [nan], [x/0] is an infinity. *)
Definition fdiv (a b : float) : float :=
  match a, b with
  | NaN, _ | _, NaN => NaN
  | Fin x, Fin y =>
      if Qeq_bool y 0 then inf_of_sign (Qsign x) else Fin (x / y)
  | Fin _, _ => Fin 0
  | _, Fin y => inf_of_sign (sign_mul (sign_of a)
                               (match Qsign y with Lt => Lt | _ => Gt end))
  | _, _ => NaN
  end.

Definition Qltb (x y : Q) : bool := negb (Qle_bool y x).

(** [a < b]; every comparison with [nan] is false. *)
Definition flt (a b : float) : bool :=
  match a, b with
  | NaN, _ | _, NaN => false
  | Fin x, Fin y => Qltb x y
  | NInf, NInf => false
  | NInf, _ => true
  | _, PInf => match a with PInf => false | _ => true end
  | _, _ => false
  end.

Definition fgt (a b : float) : bool := flt b a.

(** [a <= b] and [a >= b]. *)
Definition fle (a b : float) : bool :=
  match a, b with
  | NaN, _ | _, NaN => false
  | Fin x, Fin y => Qle_bool x y
  | NInf, _ => true
  | _, PInf => true
  | _, _ => false
  end.

Definition fge (a b : float) : bool := fle b a.

(** Equality of the values denoted (not of the representing fractions);
    [nan] is related to [nan] here: this is the relation of the theorems,
    not Python's [==]. *)
Definition feq (a b : float) : Prop :=
  match a, b with
  | Fin x, Fin y => x == y
  | PInf, PInf | NInf, NInf | NaN, NaN => True
  | _, _ => False
  end.

(** *** Rounding to a number of decimals

    [round(x, n)] of Python and [.round(n)] of pandas: the nearest multiple
    of [10^-n], a tie going to the even multiple. *)

Definition round_half_even (q : Q) : Z :=
  let fl := Qfloor q in
  match Qcompare (q - inject_Z fl) (1 # 2) with
  | Lt => fl
  | Gt => (fl + 1)%Z
  | Eq => if Z.even fl then fl else (fl + 1)%Z
  end.

Definition pow10 (n : nat) : positive := Nat.iter n (Pos.mul 10) 1%positive.

Definition Qround_digits (ndigits : nat) (q : Q) : Q :=
  round_half_even (q * inject_Z (Z.pos (pow10 ndigits))) # pow10 ndigits.

Definition round (a : float) (ndigits : nat) : float :=
  match a with
  | Fin x => Fin (Qround_digits ndigits x)
  | _ => a
  end.

(** [int(x)]: truncation towards zero; [None] where Python raises
    ([ValueError] on [nan], [OverflowError] on an infinity). *)
Definition int (a : float) : option Z :=
  match a with
  | Fin x => Some (Z.quot (Qnum x) (Z.pos (Qden x)))
  | _ => None
  end.

(** Builtin [max(a, b)] and [min(a, b)] on two arguments: the first
    argument is kept unless the second compares strictly better. *)
Definition py_max (a b : float) : float := if fgt b a then b else a.
Definition py_min (a b : float) : float := if flt b a then b else a.

End Float.
Export Float.

(** ** Exceptions

    A call either returns a value or raises.  [HTTPException] is the only
    exception the services let through; the [try]/[except] at the end of a
    service turns any other one into a 500 whose detail is [str(e)]. *)

Module Exn.

Inductive exn : Type :=
| ZeroDivisionError
| ValidationError
| ValueError
| OverflowError
| IndexError
| HTTPException (status_code : Z) (detail : string).

Inductive result (A : Type) : Type :=
| Ok (a : A)
| Raise (e : exn).

Arguments Ok {A} a.
Arguments Raise {A} e.

Definition bind {A B : Type} (c : result A) (k : A -> result B) : result B :=
  match c with
  | Ok a => k a
  | Raise e => Raise e
  end.

Definition str (e : exn) : string :=
  match e with
  | ZeroDivisionError => "division by zero"
  | ValidationError => "validation error"
  | ValueError => "value error"
  | OverflowError => "overflow error"
  | IndexError => "index out of bounds"
  | HTTPException _ detail => detail
  end.

(** [except HTTPException: raise] followed by
    [except Exception as e: raise HTTPException(status_code=500, detail=str(e))]. *)
Definition reraise_as_500 {A : Type} (c : result A) : result A :=
  match c with
  | Ok a => Ok a
  | Raise (HTTPException s d) => Raise (HTTPException s d)
  | Raise e => Raise (HTTPException 500 (str e))
  end.

Fixpoint mapM {A B : Type} (f : A -> result B) (l : list A) : result (list B) :=
  match l with
  | [] => Ok []
  | a :: l' =>
      bind (f a) (fun b => bind (mapM f l') (fun bs => Ok (b :: bs)))
  end.

End Exn.
Export Exn.

Declare Scope result_scope.
Delimit Scope result_scope with result.
Notation "x <- c ;; k" := (bind c (fun x => k))
  (at level 61, c at next level, right associativity) : result_scope.
Notation "' pat <- c ;; k" := (bind c (fun x => match x with pat => k end))
  (at level 61, pat pattern, c at next level, right associativity) : result_scope.
Local Open Scope result_scope.

(** ** Python sequences *)

(** [l[i:j]] for [0 <= i <= j]. *)
Definition slice {A : Type} (l : list A) (i j : nat) : list A :=
  firstn (j - i) (skipn i l).

(** [range(n)]; the caller computes [n] with truncated subtraction, since
    the range of a negative number is empty. *)
Definition range (n : nat) : list nat := seq 0 n.

(** [sum(l)]: starts from the integer [0] and adds from the left. *)
Definition py_sum (l : list float) : float := fold_left fadd l (Fin 0).

(** [a / n] of Python for an integer divisor [n]: raises on zero. *)
Definition py_truediv (a : float) (n : Z) : result float :=
  if (n =? 0)%Z then Raise ZeroDivisionError else Ok (fdiv a (of_int n)).

(** ** The response models of [app/models/prediction.py] *)

Module Models.

Record PredictionPoint : Type := {
  timestamp : Z;
  cleanliness_score : float;
  confidence : option float;
  carbon_intensity : option float
}.

Definition optional (ok : float -> bool) (o : option float) : bool :=
  match o with
  | Some v => ok v
  | None => true
  end.

(** The constructor validates the [Field] bounds: [ge=0, le=100] on the
    score, [ge=0, le=1] on the confidence and [ge=0] on the carbon
    intensity.  A [nan] satisfies no bound. *)
Definition mkPredictionPoint (ts : Z) (score : float)
    (conf carbon : option float) : result PredictionPoint :=
  if fge score (Fin 0) && fle score (Fin 100)
     && optional (fun c => fge c (Fin 0) && fle c (Fin 1)) conf
     && optional (fun c => fge c (Fin 0)) carbon
  then Ok {| timestamp := ts; cleanliness_score := score;
             confidence := conf; carbon_intensity := carbon |}
  else Raise ValidationError.

Record ImpactMetrics : Type := {
  co2_saved_kg : float;
  trees_equivalent : Z;
  car_km_avoided : float;
  coal_plants_offset_hours : float
}.

Record ImpactResponse : Type := {
  ir_location : string;
  usage_kwh : float;
  cleanest_hour_impact : ImpactMetrics;
  dirtiest_hour_impact : ImpactMetrics;
  potential_savings : ImpactMetrics
}.

Record PredictionsResponse : Type := {
  pr_location : string;
  pr_predictions : list PredictionPoint;
  pr_model_version : option string;
  pr_data_freshness : option string
}.

(** [predictions: List[PredictionPoint] = Field(..., min_items=24, max_items=24)]. *)
Definition mkPredictionsResponse (location : string)
    (predictions : list PredictionPoint) (model_version data_freshness : string)
    : result PredictionsResponse :=
  if (List.length predictions =? 24)%nat
  then Ok {| pr_location := location; pr_predictions := predictions;
             pr_model_version := Some model_version;
             pr_data_freshness := Some data_freshness |}
  else Raise ValidationError.

End Models.
Export Models.

(** ** [app/services/prediction/prediction_service_old.py]

    The file holds three successive versions of the service one after the
    other; the second and the third share the pipeline and differ in
    [calculate_impact].  The geocoder, the weather fetch, the feature
    columns and [model.predict] are external: the pipeline is entered with
    the data frame they produce, one row per forecast hour.  The whole
    request, from the geocoder on, is [PredictionServiceThird] below. *)

Module PredictionServiceOld.

(** A row of [df_proc] once [predicted_score] is set.  [datetime] counts the
    hours since the epoch, in UTC. *)
Record Row : Type := {
  datetime : Z;
  predicted_score : Q
}.

(** A row once the [cleanliness_score] column is set. *)
Record ScoredRow : Type := {
  row : Row;
  score : float
}.

(** [df["datetime"].dt.date]: the day number of a UTC hour. *)
Definition date (t : Z) : Z := (t / 24)%Z.

(** [Series.max()] and [Series.min()]: [nan] on an empty series. *)
Definition series_max (l : list Q) : float :=
  match l with
  | [] => NaN
  | x :: l' => Fin (fold_left Qmax l' x)
  end.

Definition series_min (l : list Q) : float :=
  match l with
  | [] => NaN
  | x :: l' => Fin (fold_left Qmin l' x)
  end.

(** [((s - min_score) / (max_score - min_score) * 100).round(1)], by element.
    The column is one of 32-bit floats in the code; here the quotient is
    exact and a tie rounds to the even decimal, so that a score at or next
    to a tie may differ from the code's in its last decimal. *)
Definition normalize (raw : list Q) : list float :=
  let max_score := series_max raw in
  let min_score := series_min raw in
  map (fun x =>
         round (fmul (fdiv (fsub (Fin x) min_score) (fsub max_score min_score))
                     (Fin 100)) 1)
      raw.

Definition add_cleanliness_score (df : list Row) : list ScoredRow :=
  map (fun p => {| row := fst p; score := snd p |})
      (combine df (normalize (map predicted_score df))).

(** The loop over [range(len(scores) - duration_hours + 1)], carrying
    [(best_start_idx, best_avg)]. *)
Fixpoint window_loop (scores : list float) (duration_hours : nat)
    (idx : list nat) (best : nat * float) : result (nat * float) :=
  match idx with
  | [] => Ok best
  | i :: idx' =>
      avg_window <- py_truediv (py_sum (slice scores i (i + duration_hours)))
                               (Z.of_nat duration_hours) ;;
      window_loop scores duration_hours idx'
        (if fgt avg_window (snd best) then (i, avg_window) else best)
  end.

Definition best_window (scores : list float) (duration_hours : nat)
    : result (nat * float) :=
  window_loop scores duration_hours
    (range (List.length scores + 1 - duration_hours))
    (0%nat, Fin (-1)).

(** [df.iloc[0]] and [df.iloc[-1]]. *)
Definition iloc_first {A : Type} (df : list A) : result A :=
  match df with
  | [] => Raise IndexError
  | a :: _ => Ok a
  end.

Definition iloc_last {A : Type} (df : list A) : result A :=
  iloc_first (rev df).

Definition MODEL_VERSION : string := "weather_time_v1".

Section Pipeline.

(** The [impact] dictionary depends on the version. *)
Variable Impact : Type.
Variable calculate_impact : float -> float -> nat -> Impact.

(** [pd.to_datetime(day).date()]; [None] where pandas raises. *)
Variable to_datetime_date : string -> option Z.

Record RecommendedWindow : Type := {
  start : Z;
  end_ : Z;
  average_cleanliness_score : float;
  impact : Impact
}.

Record Response : Type := {
  location : string;
  predictions : list PredictionPoint;
  recommended_window : RecommendedWindow;
  model_version : string;
  data_freshness : string
}.

(** [if day: ...]: the filter on the calendar day.  An empty string is
    falsy, as is [None]. *)
Definition filter_day (day : option string) (df_proc : list ScoredRow)
    : result (list ScoredRow) :=
  match day with
  | None => Ok df_proc
  | Some d =>
      if String.eqb d "" then Ok df_proc
      else
        target_date <- match to_datetime_date d with
                       | Some t => Ok t
                       | None => Raise ValueError
                       end ;;
        let df := filter (fun r => (date (datetime (row r)) =? target_date)%Z)
                         df_proc in
        match df with
        | [] => Raise (HTTPException 404 ("No forecast data for " ++ d))
        | _ => Ok df
        end
  end.

(** Everything after the day filter. *)
Definition recommend (location : string) (df_proc : list ScoredRow)
    (duration_hours : nat) : result Response :=
  let scores := map score df_proc in
  ' (best_start_idx, best_avg) <- best_window scores duration_hours ;;
  let best_block := slice df_proc best_start_idx
                          (best_start_idx + duration_hours) in
  avg_score <- py_truediv (py_sum scores) (Z.of_nat (List.length scores)) ;;
  let impact := calculate_impact avg_score best_avg duration_hours in
  prediction_points <-
    mapM (fun r => mkPredictionPoint (datetime (row r)) (score r) None None)
         df_proc ;;
  first <- iloc_first best_block ;;
  last <- iloc_last best_block ;;
  Ok {| location := location;
        predictions := prediction_points;
        recommended_window :=
          {| start := datetime (row first);
             end_ := datetime (row last);
             average_cleanliness_score := round best_avg 1;
             impact := impact |};
        model_version := MODEL_VERSION;
        data_freshness := "live" |}.

(** [generate_predictions(location, hours_ahead, day, duration_hours)];
    [weather_df] is the scored seven-day frame ([hours_ahead] is not
    used: the fetch always asks for 168 hours). *)
Definition generate_predictions (weather_df : list Row) (location : string)
    (hours_ahead : Z) (day : option string) (duration_hours : nat)
    : result Response :=
  reraise_as_500
    (let df_proc := add_cleanliness_score weather_df in
     df_proc <- filter_day day df_proc ;;
     recommend location df_proc duration_hours).

End Pipeline.

Arguments start {Impact} _.
Arguments end_ {Impact} _.
Arguments average_cleanliness_score {Impact} _.
Arguments impact {Impact} _.
Arguments location {Impact} _.
Arguments predictions {Impact} _.
Arguments recommended_window {Impact} _.
Arguments model_version {Impact} _.
Arguments data_freshness {Impact} _.

(** [co2_saved_kg = max(0, (best_score - avg_score) / 10.0) * duration_hours],
    common to both versions, for a duration that is not negative (the
    function for a duration of any sign is
    [PredictionServiceThird.calculate_impact]). *)
Definition co2_saved (avg_score best_score : float) (duration_hours : nat)
    : float :=
  fmul (py_max (Fin 0) (fdiv (fsub best_score avg_score) (Fin 10)))
       (of_int (Z.of_nat duration_hours)).

(** The second version (lines 187 to 370). *)
Module V2.

Record Impact : Type := {
  co2_saved_kg : float;
  trees_planted_equiv : float;
  km_car_avoided_equiv : float
}.

Definition calculate_impact (avg_score best_score : float)
    (duration_hours : nat) : Impact :=
  let co2_saved_kg := co2_saved avg_score best_score duration_hours in
  let trees_planted := round (fdiv co2_saved_kg (Fin (2177 # 100))) 2 in
  let km_car_avoided := round (fdiv co2_saved_kg (Fin (192 # 1000))) 1 in
  {| co2_saved_kg := round co2_saved_kg 2;
     trees_planted_equiv := trees_planted;
     km_car_avoided_equiv := km_car_avoided |}.

Definition generate_predictions := generate_predictions Impact calculate_impact.

End V2.

(** The third version (lines 377 to 569), the one in force once the module
    is loaded. *)
Module V3.

Definition format_tree_message (trees : float) : string :=
  if flt trees (Fin (5 # 10)) then "You helped a sapling take root ðŸŒ±"
  else if flt trees (Fin (15 # 10)) then "You planted a tree today ðŸŒ³"
  else if flt trees (Fin 3) then "You planted two trees ðŸŒ³ðŸŒ³"
  else if flt trees (Fin 5) then "You grew a small grove ðŸŒ²ðŸŒ³ðŸŒ²"
  else if flt trees (Fin 10) then "You restored a patch of forest ðŸŒ³ðŸŒ³ðŸŒ³ðŸŒ³ðŸŒ³"
  else "You made a forest flourish ðŸŒ³ðŸŒ²ðŸŒ³ðŸŒ²ðŸŒ³".

Record Impact : Type := {
  trees_planted_equiv : float;
  tree_message : string
}.

Definition calculate_impact (avg_score best_score : float)
    (duration_hours : nat) : Impact :=
  let co2_saved_kg := co2_saved avg_score best_score duration_hours in
  let trees_planted := round (fdiv co2_saved_kg (Fin (2177 # 100))) 2 in
  {| trees_planted_equiv := trees_planted;
     tree_message := format_tree_message trees_planted |}.

Definition generate_predictions := generate_predictions Impact calculate_impact.

End V3.

End PredictionServiceOld.

(** ** [app/services/prediction.py]: the mock service behind the routes *)

Module PredictionService.

Section Mock.

(** [np.sin(k * np.pi / 12)] for an integer [k]. *)
Variable np_sin_pi_12 : Z -> Q.

(** The generator of numpy: the [n]-th draw since the call began, read as
    a uniform sample of [np.random.random()] or as a sample of
    [np.random.normal(0, 10)]. *)
Variable np_random_random : nat -> Q.
Variable np_random_normal : nat -> Q.

(** One pass of the loop body for index [i]; [rng] counts the draws made
    so far and is returned advanced. *)
Definition mock_point (base_time : Z) (i : nat) (rng : nat)
    : result (PredictionPoint * nat) :=
  let hour := ((base_time + Z.of_nat i) mod 24)%Z in
  let '(base_score, rng) :=
    if ((6 <=? hour) && (hour <=? 18))%Z
    then (fadd (Fin 60) (fmul (Fin 30) (Fin (np_sin_pi_12 (hour - 6)))), rng)
    else (fadd (Fin 40) (fmul (Fin 20) (Fin (np_random_random rng))), S rng) in
  let score :=
    py_max (Fin 0)
           (py_min (Fin 100) (fadd base_score (Fin (np_random_normal rng)))) in
  let rng := S rng in
  let carbon_intensity := fsub (Fin 600) (fmul score (Fin 4)) in
  let conf :=
    round (fadd (Fin (7 # 10))
                (fmul (Fin (3 # 10)) (Fin (np_random_random rng)))) 2 in
  let rng := S rng in
  prediction <- mkPredictionPoint (base_time + Z.of_nat i) (round score 1)
                  (Some conf) (Some (round carbon_intensity 1)) ;;
  Ok (prediction, rng).

Fixpoint mock_loop (base_time : Z) (idx : list nat) (rng : nat)
    (predictions : list PredictionPoint)
    : result (list PredictionPoint * nat) :=
  match idx with
  | [] => Ok (predictions, rng)
  | i :: idx' =>
      ' (prediction, rng') <- mock_point base_time i rng ;;
      mock_loop base_time idx' rng' (predictions ++ [prediction])
  end.

(** [_generate_mock_predictions(location, hours)]; [base_time] is the
    current UTC hour. *)
Definition _generate_mock_predictions (base_time : Z) (location : string)
    (hours : nat) : result (list PredictionPoint) :=
  ' (predictions, _) <- mock_loop base_time (range hours) 0%nat [] ;;
  Ok predictions.

Definition generate_predictions (base_time : Z) (location : string)
    : result PredictionsResponse :=
  predictions <- _generate_mock_predictions base_time location 24 ;;
  mkPredictionsResponse location predictions "1.0.0" "< 15 minutes".

End Mock.

(** [max(1, trees_equivalent)] on integers.  The product and the quotient
    are exact here: the doubles of the code overflow beyond about [1e308],
    where [int] raises [OverflowError], and are rounded before [int]
    truncates them. *)
Definition _calculate_impact_metrics (co2_saved_kg : float)
    : result ImpactMetrics :=
  trees_equivalent <-
    match int (fdiv (fmul co2_saved_kg (Fin 365)) (Fin 22)) with
    | Some n => Ok n
    | None => Raise (match co2_saved_kg with
                     | NaN => ValueError
                     | _ => OverflowError
                     end)
    end ;;
  let car_km_avoided := fdiv co2_saved_kg (Fin (12 # 100)) in
  let coal_plants_offset_hours := fdiv co2_saved_kg (Fin 820000) in
  Ok {| co2_saved_kg := round co2_saved_kg 2;
        trees_equivalent := Z.max 1 trees_equivalent;
        car_km_avoided := round car_km_avoided 1;
        coal_plants_offset_hours := round coal_plants_offset_hours 4 |}.

(** [x or d] for an optional float: [None] and [0.0] are falsy. *)
Definition or_default (x : option float) (d : float) : float :=
  match x with
  | None => d
  | Some (Fin q) => if Qeq_bool q 0 then d else Fin q
  | Some v => v
  end.

(** [min(l, key=k)] and [max(l, key=k)]: the first element whose key is
    extremal; [ValueError] on an empty list. *)
Definition min_by {A : Type} (key : A -> float) (l : list A) : result A :=
  match l with
  | [] => Raise ValueError
  | a :: l' =>
      Ok (fold_left (fun best x => if flt (key x) (key best) then x else best)
                    l' a)
  end.

Definition max_by {A : Type} (key : A -> float) (l : list A) : result A :=
  match l with
  | [] => Raise ValueError
  | a :: l' =>
      Ok (fold_left (fun best x => if fgt (key x) (key best) then x else best)
                    l' a)
  end.

Section Impact.

Variable np_sin_pi_12 : Z -> Q.
Variable np_random_random : nat -> Q.
Variable np_random_normal : nat -> Q.

(** [calculate_impact(location, usage_kwh)], called by [GET /impact];
    the service re-raises whatever it catches. *)
Definition calculate_impact (base_time : Z) (location : string)
    (usage_kwh : float) : result ImpactResponse :=
  predictions_response <-
    generate_predictions np_sin_pi_12 np_random_random np_random_normal
                         base_time location ;;
  let predictions := pr_predictions predictions_response in
  cleanest <- min_by (fun p => or_default (carbon_intensity p) (Fin 600))
                     predictions ;;
  dirtiest <- max_by (fun p => or_default (carbon_intensity p) (Fin 200))
                     predictions ;;
  let cleanest_co2 :=
    fdiv (fmul (or_default (carbon_intensity cleanest) (Fin 200)) usage_kwh)
         (Fin 1000) in
  let dirtiest_co2 :=
    fdiv (fmul (or_default (carbon_intensity dirtiest) (Fin 600)) usage_kwh)
         (Fin 1000) in
  let co2_savings := fsub dirtiest_co2 cleanest_co2 in
  cleanest_impact <- _calculate_impact_metrics cleanest_co2 ;;
  dirtiest_impact <- _calculate_impact_metrics dirtiest_co2 ;;
  savings_impact <- _calculate_impact_metrics co2_savings ;;
  Ok {| ir_location := location;
        usage_kwh := usage_kwh;
        cleanest_hour_impact := cleanest_impact;
        dirtiest_hour_impact := dirtiest_impact;
        potential_savings := savings_impact |}.

End Impact.

End PredictionService.

(** ** [prediction_service_old.py]: the weather fetch and the first version

    [requests.get], [raise_for_status] and [r.json()] are external: the
    fetch is entered with what they come to for the number of days asked. *)

Module Forecast.

(** The [hourly] object of the payload; a [null] entry is [None]. *)
Record Hourly : Type := {
  time : list Z;
  temperature_2m : list (option float);
  relative_humidity_2m : list (option float);
  cloudcover : list (option float);
  windspeed_10m : list (option float)
}.

Inductive upstream : Type :=
| Payload (hourly : Hourly)
| HTTPError (msg : string)
| Failure (msg : string).

Record WeatherRow : Type := {
  w_datetime : Z;
  temperature_c : option float;
  humidity_percent : option float;
  cloud_cover_percent : option float;
  wind_speed_mps : option float
}.

(** ["forecast_days": min((hours_ahead // 24) + 1, 7)]. *)
Definition forecast_days (hours_ahead : Z) : Z :=
  Z.min (hours_ahead / 24 + 1) 7.

(** [[(w / 3.6) if w is not None else None for w in ...]]. *)
Definition wind_speeds_mps (l : list (option float)) : list (option float) :=
  map (option_map (fun w => fdiv w (Fin (36 # 10)))) l.

(** [pd.DataFrame({...})] of the five columns: [ValueError] unless all
    have one length. *)
Definition DataFrame (h : Hourly) (wind : list (option float))
    : result (list WeatherRow) :=
  let n := List.length (time h) in
  if ((List.length (temperature_2m h) =? n)
      && (List.length (relative_humidity_2m h) =? n)
      && (List.length (cloudcover h) =? n)
      && (List.length wind =? n))%nat
  then Ok (map (fun x =>
                  match x with
                  | (t, (a, (b, (c, w)))) =>
                      {| w_datetime := t; temperature_c := a;
                         humidity_percent := b; cloud_cover_percent := c;
                         wind_speed_mps := w |}
                  end)
               (combine (time h)
                  (combine (temperature_2m h)
                     (combine (relative_humidity_2m h)
                        (combine (cloudcover h) wind)))))
  else Raise ValueError.

(** [df.head(n)]: the first [n] rows, or all but the last [-n] ones. *)
Definition head {A : Type} (df : list A) (n : Z) : list A :=
  if (0 <=? n)%Z then firstn (Z.to_nat n) df
  else firstn (List.length df - Z.to_nat (- n)) df.

(** The two [except] clauses of the fetch. *)
Definition fetch (http : Z -> upstream) (hours_ahead : Z)
    (limit : list WeatherRow -> list WeatherRow) : result (list WeatherRow) :=
  match http (forecast_days hours_ahead) with
  | Payload h =>
      match DataFrame h (wind_speeds_mps (windspeed_10m h)) with
      | Ok df => Ok (limit df)
      | Raise e =>
          Raise (HTTPException 500 ("Weather API fetch failed: " ++ str e))
      end
  | HTTPError msg => Raise (HTTPException 400 ("Weather API error: " ++ msg))
  | Failure msg =>
      Raise (HTTPException 500 ("Weather API fetch failed: " ++ msg))
  end.

(** The first version limits the frame to the hours asked. *)
Module V1.
Definition get_weather_forecast (http : Z -> upstream) (hours_ahead : Z)
    : result (list WeatherRow) :=
  fetch http hours_ahead (fun df => head df hours_ahead).
End V1.

(** The later versions return the whole frame. *)
Module V3.
Definition get_weather_forecast (http : Z -> upstream) (hours_ahead : Z)
    : result (list WeatherRow) :=
  fetch http hours_ahead (fun df => df).
End V3.

End Forecast.

(** The first version of the pipeline (lines 123 to 185): no day filter
    and no window, the best hour is the point of greatest score. *)
Module PredictionServiceFirst.

Import PredictionServiceOld.

Record BestHour : Type := {
  bh_timestamp : Z;
  bh_cleanliness_score : float;
  bh_confidence : option float
}.

Record Response : Type := {
  location : string;
  predictions : list PredictionPoint;
  best_clean_energy_hour : BestHour;
  model_version : string;
  data_freshness : string
}.

Definition generate_predictions (weather_df : list Row) (location : string)
    (hours_ahead : Z) : result Response :=
  reraise_as_500
    (let df_proc := add_cleanliness_score weather_df in
     prediction_points <-
       mapM (fun r => mkPredictionPoint (datetime (row r)) (score r) None None)
            df_proc ;;
     best_point <- PredictionService.max_by cleanliness_score
                     prediction_points ;;
     let best_hour := {| bh_timestamp := timestamp best_point;
                         bh_cleanliness_score := cleanliness_score best_point;
                         bh_confidence := confidence best_point |} in
     Ok {| location := location;
           predictions := prediction_points;
           best_clean_energy_hour := best_hour;
           model_version := MODEL_VERSION;
           data_freshness := "live" |}).

End PredictionServiceFirst.

(** ** [prediction_service_old.py], third version: the whole request

    [generate_predictions] from the geocoder to the response, for a
    [duration_hours] of any sign (the service itself does not check it; the
    route asks for [1 <= duration_hours <= 24]).  [requests.get], the
    feature columns, [xgb.DMatrix] and [model.predict] are external. *)

Module Geocode.

(** The first entry of the JSON list: its ["lat"] and ["lon"] as [float]
    reads them, or the message of the exception where a key is missing or
    is no number. *)
Inductive entry : Type :=
| Coordinates (lat lon : float)
| Malformed (msg : string).

(** What [requests.get], [raise_for_status] and [r.json()] come to: the
    list of results, or the message of the exception of any of the three
    (an HTTP error status included). *)
Inductive upstream : Type :=
| Results (results : list entry)
| Failure (msg : string).

Definition geocode_location (http : string -> upstream) (location : string)
    : result (float * float) :=
  match http location with
  | Results [] =>
      Raise (HTTPException 404 ("Location '" ++ location ++ "' not found"))
  | Results (Coordinates lat lon :: _) => Ok (lat, lon)
  | Results (Malformed msg :: _) =>
      Raise (HTTPException 500 ("Geocoding failed: " ++ msg))
  | Failure msg => Raise (HTTPException 500 ("Geocoding failed: " ++ msg))
  end.

End Geocode.

Module PredictionServiceThird.

Import PredictionServiceOld.

(** [l[i:j]] for integers of any sign: a negative bound counts from the
    end, and both bounds are clamped to the sequence. *)
Definition slice_index (len i : Z) : Z :=
  if (i <? 0)%Z then Z.max 0 (len + i) else Z.min i len.

Definition py_slice {A : Type} (l : list A) (i j : Z) : list A :=
  let len := Z.of_nat (List.length l) in
  slice l (Z.to_nat (slice_index len i)) (Z.to_nat (slice_index len j)).

(** [range(n)] for an integer of any sign. *)
Definition py_range (n : Z) : list Z := map Z.of_nat (seq 0 (Z.to_nat n)).

Fixpoint window_loop (scores : list float) (duration_hours : Z)
    (idx : list Z) (best : Z * float) : result (Z * float) :=
  match idx with
  | [] => Ok best
  | i :: idx' =>
      avg_window <- py_truediv
                      (py_sum (py_slice scores i (i + duration_hours)))
                      duration_hours ;;
      window_loop scores duration_hours idx'
        (if fgt avg_window (snd best) then (i, avg_window) else best)
  end.

Definition best_window (scores : list float) (duration_hours : Z)
    : result (Z * float) :=
  window_loop scores duration_hours
    (py_range (Z.of_nat (List.length scores) - duration_hours + 1))
    (0%Z, Fin (-1)).

Definition calculate_impact (avg_score best_score : float)
    (duration_hours : Z) : V3.Impact :=
  let co2_saved_kg :=
    fmul (py_max (Fin 0) (fdiv (fsub best_score avg_score) (Fin 10)))
         (of_int duration_hours) in
  let trees_planted := round (fdiv co2_saved_kg (Fin (2177 # 100))) 2 in
  {| V3.trees_planted_equiv := trees_planted;
     V3.tree_message := V3.format_tree_message trees_planted |}.

(** Everything after the day filter. *)
Definition recommend (location : string) (df_proc : list ScoredRow)
    (duration_hours : Z) : result (Response V3.Impact) :=
  let scores := map score df_proc in
  ' (best_start_idx, best_avg) <- best_window scores duration_hours ;;
  let best_block := py_slice df_proc best_start_idx
                             (best_start_idx + duration_hours) in
  avg_score <- py_truediv (py_sum scores) (Z.of_nat (List.length scores)) ;;
  let impact := calculate_impact avg_score best_avg duration_hours in
  prediction_points <-
    mapM (fun r => mkPredictionPoint (datetime (row r)) (score r) None None)
         df_proc ;;
  first <- iloc_first best_block ;;
  last <- iloc_last best_block ;;
  Ok {| location := location;
        predictions := prediction_points;
        recommended_window :=
          {| start := datetime (row first);
             end_ := datetime (row last);
             average_cleanliness_score := round best_avg 1;
             impact := impact |};
        model_version := MODEL_VERSION;
        data_freshness := "live" |}.

Section Request.

(** The geocoder's answer for a location, and the weather service's for
    a latitude, a longitude and a number of days. *)
Variable geocode_http : string -> Geocode.upstream.
Variable weather_http : float -> float -> Z -> Forecast.upstream.

(** [model.predict(xgb.DMatrix(df_proc[features]))] on the frame with its
    three time columns: one score per row, or [None] where any of the
    steps raises. *)
Variable model_predict : list Forecast.WeatherRow -> option (list Q).

Variable to_datetime_date : string -> option Z.

(** The frame once [predicted_score] is set. *)
Definition with_predicted_score (weather_df : list Forecast.WeatherRow)
    (scores : list Q) : list Row :=
  map (fun p => {| datetime := Forecast.w_datetime (fst p);
                   predicted_score := snd p |})
      (combine weather_df scores).

(** [df_proc["predicted_score"] = ...]: a column of another length than
    the frame is refused. *)
Definition set_predicted_score (weather_df : list Forecast.WeatherRow)
    : result (list Row) :=
  match model_predict weather_df with
  | None => Raise ValueError
  | Some scores =>
      if (List.length scores =? List.length weather_df)%nat
      then Ok (with_predicted_score weather_df scores)
      else Raise ValueError
  end.

(** [generate_predictions(location, hours_ahead, day, duration_hours)];
    [hours_ahead] is not used: the fetch always asks for 168 hours. *)
Definition generate_predictions (location : string) (hours_ahead : Z)
    (day : option string) (duration_hours : Z) : result (Response V3.Impact) :=
  reraise_as_500
    (' (lat, lon) <- Geocode.geocode_location geocode_http location ;;
     weather_df <- Forecast.V3.get_weather_forecast (weather_http lat lon) 168 ;;
     df_proc <- set_predicted_score weather_df ;;
     let df_proc := add_cleanliness_score df_proc in
     df_proc <- filter_day to_datetime_date day df_proc ;;
     recommend location df_proc duration_hours).

End Request.

End PredictionServiceThird.

(** ** Vocabulary of the statements *)

(** The sum and the arithmetic mean of rationals, independent of the way the
    code adds. *)
Definition Qsum (l : list Q) : Q := fold_right Qplus 0 l.

Definition Qmean (l : list Q) : Q :=
  Qsum l / inject_Z (Z.of_nat (List.length l)).

(** [m] is the least (greatest) value of the batch [l]. *)
Definition is_min (l : list Q) (m : Q) : Prop :=
  (exists x, In x l /\ x == m) /\ forall x, In x l -> m <= x.

Definition is_max (l : list Q) (m : Q) : Prop :=
  (exists x, In x l /\ x == m) /\ forall x, In x l -> x <= m.

(** A score a [PredictionPoint] accepts. *)
Definition score_ok (s : float) : bool := fge s (Fin 0) && fle s (Fin 100).

(** The rational a finite float denotes. *)
Definition to_Q (a : float) : Q :=
  match a with
  | Fin q => q
  | _ => 0
  end.

(** The window of [d] elements that starts at index [i]. *)
Definition window {A : Type} (l : list A) (i d : nat) : list A :=
  slice l i (i + d).

(** The frame of consecutive hours from [t0] with the given raw scores. *)
Definition frame (t0 : Z) (raws : list Q) : list PredictionServiceOld.Row :=
  map (fun p => {| PredictionServiceOld.datetime := (t0 + Z.of_nat (fst p))%Z;
                   PredictionServiceOld.predicted_score := snd p |})
      (combine (seq 0 (List.length raws)) raws).

(** The six messages of [format_tree_message], from the weakest to the
    strongest, and the position of a message among them. *)
Definition tree_messages : list string :=
  [ "You helped a sapling take root ðŸŒ±"%string;
    "You planted a tree today ðŸŒ³"%string;
    "You planted two trees ðŸŒ³ðŸŒ³"%string;
    "You grew a small grove ðŸŒ²ðŸŒ³ðŸŒ²"%string;
    "You restored a patch of forest ðŸŒ³ðŸŒ³ðŸŒ³ðŸŒ³ðŸŒ³"%string;
    "You made a forest flourish ðŸŒ³ðŸŒ²ðŸŒ³ðŸŒ²ðŸŒ³"%string ].

Fixpoint index_of (m : string) (l : list string) : option nat :=
  match l with
  | [] => None
  | x :: l' => if String.eqb m x then Some 0%nat
               else option_map S (index_of m l')
  end.

Definition tier (m : string) : option nat := index_of m tree_messages.

(** [max(0, (avg_best - avg_all) / 10) * duration_hours] on rationals. *)
Definition co2_formula (avg_all avg_best : Q) (duration_hours : nat) : Q :=
  Qmax 0 ((avg_best - avg_all) / 10) * inject_Z (Z.of_nat duration_hours).

(** What one point of the mock generator looks like at index [i]: [score]
    is the clamped score before it is rounded. *)
Definition mock_point_ok (base_time : Z) (i : nat) (p : PredictionPoint)
    : Prop :=
  exists score,
    0 <= score <= 100 /\
    timestamp p = (base_time + Z.of_nat i)%Z /\
    cleanliness_score p = Fin (Qround_digits 1 score) /\
    carbon_intensity p = Some (Fin (Qround_digits 1 (600 - score * 4))) /\
    0 <= Qround_digits 1 score <= 100 /\
    200 <= Qround_digits 1 (600 - score * 4) <= 600.

(** The mean the loop computes for the window at [i]: the sum from the
    left, over the requested duration. *)
Definition wavg (qs : list Q) (d i : nat) : Q :=
  fold_left Qplus (window qs i d) 0 / inject_Z (Z.of_nat d).

(** A payload with [24] entries per day asked, in each of its arrays. *)
Definition full_payload (h : Forecast.Hourly) (days : Z) : Prop :=
  let n := Z.to_nat (24 * days) in
  List.length (Forecast.time h) = n /\
  List.length (Forecast.temperature_2m h) = n /\
  List.length (Forecast.relative_humidity_2m h) = n /\
  List.length (Forecast.cloudcover h) = n /\
  List.length (Forecast.windspeed_10m h) = n.

(** The mean of the window at [j] as the loop computes it on floats. *)
Definition fmean (scores : list float) (d j : nat) : float :=
  fdiv (py_sum (window scores j d)) (of_int (Z.of_nat d)).

(** [x] is at index [k] of [L], no element of [L] has a smaller measure and
    every element before [k] has a greater one. *)
Definition first_least {A : Type} (m : A -> Q) (L : list A) (k : nat) (x : A)
    : Prop :=
  nth_error L k = Some x /\
  forall j y, nth_error L j = Some y ->
              m x <= m y /\ ((j < k)%nat -> m x < m y).

(** The carbon intensity of a point as a rational ([0] when absent). *)
Definition carbon_of (p : PredictionPoint) : Q :=
  match carbon_intensity p with
  | Some v => to_Q v
  | None => 0
  end.

(** [int(x)] on a rational: the quotient truncated towards zero. *)
Definition Qtrunc (x : Q) : Z := Z.quot (Qnum x) (Z.pos (Qden x)).

(** [r] is [x] rounded to [n] decimals, whichever way the code rounds
    where [x] is at a tie or next to one: a multiple of [10^-n] at most
    [0.51] units of the last decimal away from [x].  The statements about
    reported values use this relation, because the code computes [x] in
    binary floating point: the double of a decimal tie lies on either
    side of it, and a value next to a tie is reached only up to the
    rounding error of the computation, so that the direction the code
    takes there is not that of exact arithmetic. *)
Definition rounded_to (n : nat) (x r : Q) : Prop :=
  (exists z : Z, r == z # pow10 n) /\
  x - (51 # 100 * pow10 n) <= r <= x + (51 # 100 * pow10 n).

(** The request reaches the scoring: the geocoder finds the location, the
    weather service answers the seven days asked with a payload whose
    columns have one length, and the model gives one score per row.
    [weather_df] is the frame fetched and [scores] are its raw scores. *)
Definition fetched (geocode_http : string -> Geocode.upstream)
    (weather_http : float -> float -> Z -> Forecast.upstream)
    (model_predict : list Forecast.WeatherRow -> option (list Q))
    (location : string) (weather_df : list Forecast.WeatherRow)
    (scores : list Q) : Prop :=
  exists lat lon rest,
    geocode_http location
    = Geocode.Results (Geocode.Coordinates lat lon :: rest) /\
    Forecast.V3.get_weather_forecast (weather_http lat lon) 168
    = Ok weather_df /\
    model_predict weather_df = Some scores /\
    List.length scores = List.length weather_df.

(** * Properties *)

(** ** Floats and rounding *)

Lemma Qltb_lt (x y : Q) : Qltb x y = true <-> x < y.
Proof.
  unfold Qltb. rewrite negb_true_iff. split; intro H.
  - apply Qnot_le_lt. intro L. apply Qle_bool_iff in L. congruence.
  - destruct (Qle_bool y x) eqn:E; [|reflexivity].
    apply Qle_bool_iff in E. exfalso. apply (Qlt_not_le _ _ H E).
Qed.

Lemma Qltb_ge (x y : Q) : Qltb x y = false <-> y <= x.
Proof.
  unfold Qltb. rewrite negb_false_iff. apply Qle_bool_iff.
Qed.

Lemma score_ok_Fin (s : float) :
  score_ok s = true <-> exists q, s = Fin q /\ 0 <= q <= 100.
Proof.
  unfold score_ok, fge, fle. split.
  - destruct s as [q| | |]; simpl; try discriminate.
    rewrite andb_true_iff, !Qle_bool_iff. eauto.
  - intros (q & -> & H0 & H1). rewrite andb_true_iff, !Qle_bool_iff. auto.
Qed.

Lemma round_half_even_comp (x y : Q) :
  x == y -> round_half_even x = round_half_even y.
Proof.
  intro E. unfold round_half_even.
  rewrite (Qfloor_comp _ _ E).
  replace (Qcompare (y - inject_Z (Qfloor y)) (1 # 2))
    with (Qcompare (x - inject_Z (Qfloor y)) (1 # 2)); [reflexivity|].
  apply Qcompare_comp; [rewrite E|]; reflexivity.
Qed.

Lemma round_half_even_lower (m : Z) (q : Q) :
  inject_Z m <= q -> (m <= round_half_even q)%Z.
Proof.
  intro H. unfold round_half_even.
  assert (F : (m <= Qfloor q)%Z).
  { rewrite <- (Qfloor_Z m). apply Qfloor_resp_le, H. }
  destruct (Qcompare _ _); [destruct (Z.even _)| |]; lia.
Qed.

Lemma round_half_even_upper (m : Z) (q : Q) :
  q <= inject_Z m -> (round_half_even q <= m)%Z.
Proof.
  intro H. unfold round_half_even.
  assert (F : (Qfloor q <= m)%Z).
  { rewrite <- (Qfloor_Z m). apply Qfloor_resp_le, H. }
  destruct (Z.eq_dec (Qfloor q) m) as [E|N].
  - rewrite E.
    assert (L : Qcompare (q - inject_Z m) (1 # 2) = Lt).
    { rewrite <- Qlt_alt. lra. }
    rewrite L. lia.
  - destruct (Qcompare _ _); [destruct (Z.even _)| |]; lia.
Qed.

Lemma round_half_even_Z (m : Z) (q : Q) :
  q == inject_Z m -> round_half_even q = m.
Proof.
  intro E. apply Z.le_antisymm.
  - apply round_half_even_upper. rewrite E. apply Qle_refl.
  - apply round_half_even_lower. rewrite E. apply Qle_refl.
Qed.

Lemma Qround_digits_comp (n : nat) (x y : Q) :
  x == y -> Qround_digits n x = Qround_digits n y.
Proof.
  intro E. unfold Qround_digits.
  f_equal. apply round_half_even_comp. rewrite E. reflexivity.
Qed.

Lemma Qmake_lower (m z : Z) (p : positive) :
  (m * Z.pos p <= z)%Z -> inject_Z m <= z # p.
Proof. intro H. unfold Qle, inject_Z. simpl. lia. Qed.

Lemma Qmake_upper (m z : Z) (p : positive) :
  (z <= m * Z.pos p)%Z -> z # p <= inject_Z m.
Proof. intro H. unfold Qle, inject_Z. simpl. lia. Qed.

Lemma Qround_digits_lower (n : nat) (m : Z) (x : Q) :
  inject_Z m <= x -> inject_Z m <= Qround_digits n x.
Proof.
  intro H. unfold Qround_digits. apply Qmake_lower.
  apply round_half_even_lower. rewrite inject_Z_mult.
  apply Qmult_le_compat_r; [exact H|]. unfold Qle, inject_Z. simpl. lia.
Qed.

Lemma Qround_digits_upper (n : nat) (m : Z) (x : Q) :
  x <= inject_Z m -> Qround_digits n x <= inject_Z m.
Proof.
  intro H. unfold Qround_digits. apply Qmake_upper.
  apply round_half_even_upper. rewrite inject_Z_mult.
  apply Qmult_le_compat_r; [exact H|]. unfold Qle, inject_Z. simpl. lia.
Qed.

Lemma Qround_digits_Z (n : nat) (m : Z) (x : Q) :
  x == inject_Z m -> Qround_digits n x == inject_Z m.
Proof.
  intro E. apply Qle_antisym.
  - apply Qround_digits_upper. rewrite E. apply Qle_refl.
  - apply Qround_digits_lower. rewrite E. apply Qle_refl.
Qed.

Lemma round_half_even_error (q : Q) :
  q - (1 # 2) <= inject_Z (round_half_even q) <= q + (1 # 2).
Proof.
  unfold round_half_even.
  pose proof (Qfloor_le q) as F. pose proof (Qlt_floor q) as G.
  rewrite inject_Z_plus in G. change (inject_Z 1) with 1 in G.
  destruct (Qcompare_spec (q - inject_Z (Qfloor q)) (1 # 2)) as [E|L|L].
  - destruct (Z.even (Qfloor q)).
    + split; lra.
    + rewrite inject_Z_plus. change (inject_Z 1) with 1. split; lra.
  - split; lra.
  - rewrite inject_Z_plus. change (inject_Z 1) with 1. split; lra.
Qed.

Lemma Qround_digits_error (n : nat) (x : Q) :
  x - (1 # 2 * pow10 n) <= Qround_digits n x <= x + (1 # 2 * pow10 n).
Proof.
  set (P := inject_Z (Z.pos (pow10 n))).
  assert (HP : 0 < P) by (unfold P, Qlt, inject_Z; simpl; lia).
  assert (E : Qround_digits n x * P == inject_Z (round_half_even (x * P))).
  { unfold Qround_digits, P, Qeq, Qmult, inject_Z. cbn [Qnum Qden]. lia. }
  assert (H : (1 # 2 * pow10 n) * P == 1 # 2).
  { unfold P, Qeq, Qmult, inject_Z. cbn [Qnum Qden]. lia. }
  pose proof (round_half_even_error (x * P)) as (L & U).
  rewrite <- E in L, U. split.
  - apply (Qmult_le_r _ _ P HP).
    assert ((x - (1 # 2 * pow10 n)) * P
            == x * P - (1 # 2 * pow10 n) * P) as -> by ring.
    rewrite H. exact L.
  - apply (Qmult_le_r _ _ P HP).
    assert ((x + (1 # 2 * pow10 n)) * P
            == x * P + (1 # 2 * pow10 n) * P) as -> by ring.
    rewrite H. exact U.
Qed.

Lemma Qround_digits_rounded_to (n : nat) (x : Q) :
  rounded_to n x (Qround_digits n x).
Proof.
  split; [eexists; unfold Qround_digits; reflexivity|].
  pose proof (Qround_digits_error n x) as E.
  assert (S : (1 # 2 * pow10 n) <= (51 # 100 * pow10 n)).
  { unfold Qle. cbn [Qnum Qden]. lia. }
  revert E S. generalize (1 # 2 * pow10 n) (51 # 100 * pow10 n)
    (Qround_digits n x).
  intros a b r E S. lra.
Qed.

Lemma rounded_to_comp (n : nat) (x y r : Q) :
  x == y -> rounded_to n x r -> rounded_to n y r.
Proof.
  intros E (Z & L & U). split; [exact Z|]. rewrite <- E. split; assumption.
Qed.

(** ** Normalisation *)

Import PredictionServiceOld.

Lemma fold_Qmax_spec (l : list Q) (a : Q) :
  let m := fold_left Qmax l a in
  a <= m /\ (forall x, In x l -> x <= m) /\
  (m == a \/ exists x, In x l /\ x == m).
Proof.
  revert a. induction l as [|y l IH]; intro a; simpl.
  - split; [apply Qle_refl|]. split; [tauto|]. left. reflexivity.
  - destruct (IH (Qmax a y)) as (H1 & H2 & H3).
    pose proof (Q.le_max_l a y) as La. pose proof (Q.le_max_r a y) as Ly.
    split; [eapply Qle_trans; eassumption|]. split.
    + intros x [<-|Hx]; [eapply Qle_trans; eassumption|auto].
    + destruct H3 as [E|(x & Hx & E)].
      * destruct (Q.max_spec a y) as [(_ & M)|(_ & M)].
        -- right. exists y. split; [now left|]. rewrite E, M. reflexivity.
        -- left. rewrite E, M. reflexivity.
      * right. exists x. split; [now right|exact E].
Qed.

Lemma fold_Qmin_spec (l : list Q) (a : Q) :
  let m := fold_left Qmin l a in
  m <= a /\ (forall x, In x l -> m <= x) /\
  (m == a \/ exists x, In x l /\ x == m).
Proof.
  revert a. induction l as [|y l IH]; intro a; simpl.
  - split; [apply Qle_refl|]. split; [tauto|]. left. reflexivity.
  - destruct (IH (Qmin a y)) as (H1 & H2 & H3).
    pose proof (Q.le_min_l a y) as La. pose proof (Q.le_min_r a y) as Ly.
    split; [eapply Qle_trans; eassumption|]. split.
    + intros x [<-|Hx]; [eapply Qle_trans; eassumption|auto].
    + destruct H3 as [E|(x & Hx & E)].
      * destruct (Q.min_spec a y) as [(_ & M)|(_ & M)].
        -- left. rewrite E, M. reflexivity.
        -- right. exists y. split; [now left|]. rewrite E, M. reflexivity.
      * right. exists x. split; [now right|exact E].
Qed.

Lemma series_max_is_max (raw : list Q) :
  raw <> [] -> exists m, series_max raw = Fin m /\ is_max raw m.
Proof.
  destruct raw as [|a l]; [congruence|]. intros _.
  exists (fold_left Qmax l a). split; [reflexivity|].
  destruct (fold_Qmax_spec l a) as (H1 & H2 & H3). split.
  - destruct H3 as [E|(x & Hx & E)].
    + exists a. split; [now left|]. symmetry. exact E.
    + exists x. split; [now right|exact E].
  - intros x [<-|Hx]; auto.
Qed.

Lemma series_min_is_min (raw : list Q) :
  raw <> [] -> exists m, series_min raw = Fin m /\ is_min raw m.
Proof.
  destruct raw as [|a l]; [congruence|]. intros _.
  exists (fold_left Qmin l a). split; [reflexivity|].
  destruct (fold_Qmin_spec l a) as (H1 & H2 & H3). split.
  - destruct H3 as [E|(x & Hx & E)].
    + exists a. split; [now left|]. symmetry. exact E.
    + exists x. split; [now right|exact E].
  - intros x [<-|Hx]; auto.
Qed.

Lemma is_max_unique (l : list Q) (m m' : Q) :
  is_max l m -> is_max l m' -> m == m'.
Proof.
  intros ((x & Hx & Ex) & Ux) ((y & Hy & Ey) & Uy).
  apply Qle_antisym.
  - rewrite <- Ex. auto.
  - rewrite <- Ey. auto.
Qed.

Lemma is_min_unique (l : list Q) (m m' : Q) :
  is_min l m -> is_min l m' -> m == m'.
Proof.
  intros ((x & Hx & Ex) & Ux) ((y & Hy & Ey) & Uy).
  apply Qle_antisym.
  - rewrite <- Ey. auto.
  - rewrite <- Ex. auto.
Qed.

Lemma normalize_length (raw : list Q) :
  List.length (normalize raw) = List.length raw.
Proof. unfold normalize. apply length_map. Qed.

(** The value of one element when the batch has a spread. *)
Lemma normalize_elem (x mn mx : Q) :
  ~ mx - mn == 0 ->
  round (fmul (fdiv (fsub (Fin x) (Fin mn)) (fsub (Fin mx) (Fin mn))) (Fin 100)) 1
  = Fin (Qround_digits 1 ((x - mn) / (mx - mn) * 100)).
Proof.
  intro N. simpl.
  destruct (Qeq_bool (mx + - mn) 0) eqn:E.
  - apply Qeq_bool_iff in E. contradiction.
  - reflexivity.
Qed.

Lemma Qdiv_unit_interval (a b : Q) :
  0 <= a -> a <= b -> 0 < b -> 0 <= a / b * 100 <= 100.
Proof.
  intros Ha Hab Hb.
  assert (L : 0 <= a / b) by (apply Qle_shift_div_l; lra).
  assert (U : a / b <= 1) by (apply Qle_shift_div_r; lra).
  lra.
Qed.

(** C5.  For a batch of raw scores with least value [mn] and greatest value
    [mx], [mn] different from [mx], the normalised batch has the length of
    the raw one, and the score at each index is
    [(raw_i - mn) / (mx - mn) * 100] rounded to one decimal (a multiple of
    [0.1] next to it, see [rounded_to]); it lies in [[0, 100]], is [100]
    where the raw score is greatest and [0] where it is least. *)
Theorem normalize_spread (raw : list Q) (mn mx : Q) :
  is_min raw mn -> is_max raw mx -> ~ mn == mx ->
  List.length (normalize raw) = List.length raw /\
  forall i x, nth_error raw i = Some x ->
    exists s,
      nth_error (normalize raw) i = Some (Fin s) /\
      rounded_to 1 ((x - mn) / (mx - mn) * 100) s /\
      0 <= s <= 100 /\
      (x == mx -> s == 100) /\
      (x == mn -> s == 0).
Proof.
  intros Hmin Hmax Hne. split; [apply normalize_length|].
  intros i x Hx.
  assert (NE : raw <> []) by (intro E; subst raw; destruct i; discriminate).
  destruct (series_min_is_min raw NE) as (mn' & Smin & Hmin').
  destruct (series_max_is_max raw NE) as (mx' & Smax & Hmax').
  pose proof (is_min_unique _ _ _ Hmin' Hmin) as Emn.
  pose proof (is_max_unique _ _ _ Hmax' Hmax) as Emx.
  assert (Hin : In x raw) by (eapply nth_error_In; eassumption).
  assert (Lx : mn <= x) by (apply Hmin; exact Hin).
  assert (Ux : x <= mx) by (apply Hmax; exact Hin).
  assert (Hlt : mn < mx).
  { destruct (Qlt_le_dec mn mx) as [L|G]; [exact L|].
    exfalso. apply Hne. apply Qle_antisym; [|exact G].
    eapply Qle_trans; [apply Hmin, Hin|apply Hmax, Hin]. }
  assert (Ev : (x - mn') / (mx' - mn') * 100 == (x - mn) / (mx - mn) * 100)
    by (rewrite Emn, Emx; reflexivity).
  exists (Qround_digits 1 ((x - mn') / (mx' - mn') * 100)).
  split; [|split].
  - unfold normalize. rewrite nth_error_map, Hx, Smin, Smax.
    cbv [option_map]. f_equal. apply normalize_elem.
    rewrite Emn, Emx. lra.
  - apply (rounded_to_comp 1 _ _ _ Ev), Qround_digits_rounded_to.
  - rewrite (Qround_digits_comp 1 _ _ Ev).
    assert (B : 0 <= (x - mn) / (mx - mn) * 100 <= 100)
      by (apply Qdiv_unit_interval; lra).
    split; [|split].
    + split.
      * apply (Qround_digits_lower 1 0). apply B.
      * apply (Qround_digits_upper 1 100). apply B.
    + intro E. apply (Qround_digits_Z 1 100).
      rewrite E. field. lra.
    + intro E. apply (Qround_digits_Z 1 0).
      rewrite E. field. lra.
Qed.

Lemma normalize_spread_witness :
  exists s, nth_error (normalize [3; 1; 2]) 2 = Some (Fin s) /\ s == 50.
Proof.
  assert (Hmin : is_min [3; 1; 2] 1).
  { split; [exists 1; simpl; split; [tauto|reflexivity]|].
    intros x [<-|[<-|[<-|[]]]]; discriminate. }
  assert (Hmax : is_max [3; 1; 2] 3).
  { split; [exists 3; simpl; split; [tauto|reflexivity]|].
    intros x [<-|[<-|[<-|[]]]]; discriminate. }
  assert (Hne : ~ 1 == 3) by discriminate.
  destruct (normalize_spread [3; 1; 2] 1 3 Hmin Hmax Hne) as (_ & H).
  destruct (H 2%nat 2 eq_refl) as (s & Hs & _).
  exists s. split; [exact Hs|].
  injection Hs as <-. reflexivity.
Defined.

(** C2, on the code as it is.  For a non-empty batch whose raw scores are
    all equal, the normalisation divides zero by zero: every normalised
    score is [nan]; there is no branch for a batch without spread. *)
Theorem normalize_constant_batch_nan (raw : list Q) (c : Q) :
  raw <> [] -> (forall x, In x raw -> x == c) ->
  List.length (normalize raw) = List.length raw /\
  Forall (fun s => s = NaN) (normalize raw).
Proof.
  intros NE Hc. split; [apply normalize_length|].
  destruct (series_min_is_min raw NE) as (mn & Smin & (a & Ha & Ea) & _).
  destruct (series_max_is_max raw NE) as (mx & Smax & (b & Hb & Eb) & _).
  assert (Emn : mn == c) by (rewrite <- Ea; auto).
  assert (Emx : mx == c) by (rewrite <- Eb; auto).
  unfold normalize. rewrite Smin, Smax. apply Forall_map, Forall_forall.
  intros x Hx. simpl.
  assert (Z0 : Qeq_bool (mx + - mn) 0 = true).
  { apply Qeq_bool_iff. rewrite Emn, Emx. lra. }
  rewrite Z0.
  assert (S0 : Qsign (x + - mn) = Eq).
  { unfold Qsign. apply Qeq_alt. rewrite (Hc x Hx), Emn. lra. }
  rewrite S0. reflexivity.
Qed.

Lemma normalize_constant_batch_nan_witness :
  Forall (fun s => s = NaN) (normalize [5; 5]).
Proof.
  apply (normalize_constant_batch_nan [5; 5] 5).
  - discriminate.
  - intros x [<-|[<-|[]]]; reflexivity.
Defined.

(** ** Window selection *)

Lemma slice_map {A B : Type} (f : A -> B) (l : list A) (i j : nat) :
  slice (map f l) i j = map f (slice l i j).
Proof. unfold slice. rewrite skipn_map, firstn_map. reflexivity. Qed.

Lemma slice_decompose {A : Type} (l : list A) (i j : nat) :
  l = firstn i l ++ slice l i j ++ skipn (j - i) (skipn i l).
Proof.
  unfold slice. rewrite (firstn_skipn (j - i) (skipn i l)).
  symmetry. apply firstn_skipn.
Qed.

Lemma In_slice {A : Type} (l : list A) (i j : nat) (x : A) :
  In x (slice l i j) -> In x l.
Proof.
  intro H. rewrite (slice_decompose l i j).
  apply in_or_app. right. apply in_or_app. left. exact H.
Qed.

Lemma window_length {A : Type} (l : list A) (i d : nat) :
  (i + d <= List.length l)%nat -> List.length (window l i d) = d.
Proof.
  intro H. unfold window, slice.
  rewrite length_firstn, length_skipn. lia.
Qed.

Lemma window_short {A : Type} (l : list A) (d : nat) :
  (List.length l <= d)%nat -> window l 0 d = l.
Proof.
  intro H. unfold window, slice. rewrite skipn_0.
  apply firstn_all2. lia.
Qed.

Lemma window_one {A : Type} (l : list A) (i : nat) (x : A) :
  nth_error l i = Some x -> window l i 1 = [x].
Proof.
  intro H. unfold window, slice. replace (i + 1 - i)%nat with 1%nat by lia.
  pose proof (hd_error_skipn i l) as E. rewrite H in E.
  destruct (skipn i l) as [|y t]; [discriminate|].
  simpl in E. injection E as ->. reflexivity.
Qed.

Lemma py_sum_Fin (l : list Q) : py_sum (map Fin l) = Fin (fold_left Qplus l 0).
Proof.
  unfold py_sum. generalize 0. induction l as [|x l IH]; intro a; simpl.
  - reflexivity.
  - apply IH.
Qed.

Lemma fold_left_Qplus (l : list Q) (a : Q) :
  fold_left Qplus l a == a + Qsum l.
Proof.
  revert a. induction l as [|x l IH]; intro a; simpl.
  - lra.
  - rewrite IH. lra.
Qed.

Lemma Qsum_nonneg (l : list Q) : (forall x, In x l -> 0 <= x) -> 0 <= Qsum l.
Proof.
  induction l as [|x l IH]; intro H; simpl.
  - lra.
  - assert (0 <= x) by (apply H; now left).
    assert (0 <= Qsum l) by (apply IH; intros; apply H; now right).
    lra.
Qed.

Lemma inject_nat_pos (d : nat) : d <> 0%nat -> 0 < inject_Z (Z.of_nat d).
Proof. intro H. unfold Qlt, inject_Z. simpl. lia. Qed.

Lemma wavg_mean (qs : list Q) (d i : nat) :
  (i + d <= List.length qs)%nat -> wavg qs d i == Qmean (window qs i d).
Proof.
  intro H. unfold wavg, Qmean.
  rewrite (window_length qs i d H), fold_left_Qplus.
  apply Qdiv_comp; [lra|reflexivity].
Qed.

Lemma wavg_nonneg (qs : list Q) (d i : nat) :
  d <> 0%nat -> (forall x, In x qs -> 0 <= x) -> 0 <= wavg qs d i.
Proof.
  intros Hd H. unfold wavg.
  apply Qle_shift_div_l; [apply inject_nat_pos, Hd|].
  rewrite fold_left_Qplus.
  assert (0 <= Qsum (window qs i d)).
  { apply Qsum_nonneg. intros x Hx. apply H. eapply In_slice, Hx. }
  lra.
Qed.

Lemma window_avg_ok (qs : list Q) (d i : nat) :
  d <> 0%nat ->
  py_truediv (py_sum (slice (map Fin qs) i (i + d))) (Z.of_nat d)
  = Ok (Fin (wavg qs d i)).
Proof.
  intro Hd. unfold py_truediv.
  destruct (Z.eqb_spec (Z.of_nat d) 0) as [E|_]; [lia|].
  rewrite slice_map, py_sum_Fin. unfold of_int, fdiv.
  destruct (Qeq_bool (inject_Z (Z.of_nat d)) 0) eqn:E.
  - apply Qeq_bool_iff in E. pose proof (inject_nat_pos d Hd). lra.
  - reflexivity.
Qed.

(** The loop keeps the first index whose mean is strictly above everything
    seen before it, or the initial pair when no mean exceeds the initial one. *)
Lemma window_loop_spec (qs : list Q) (d : nat) :
  d <> 0%nat ->
  forall idx k0 q0,
  exists k q,
    window_loop (map Fin qs) d idx (k0, Fin q0) = Ok (k, Fin q) /\
    ((k = k0 /\ q = q0 /\ forall j, In j idx -> wavg qs d j <= q0) \/
     (exists pre post,
        idx = pre ++ k :: post /\ q = wavg qs d k /\ q0 < q /\
        (forall j, In j pre -> wavg qs d j < q) /\
        (forall j, In j post -> wavg qs d j <= q))).
Proof.
  intro Hd. induction idx as [|i idx IH]; intros k0 q0.
  - exists k0, q0. split; [reflexivity|]. left. simpl. tauto.
  - cbn [window_loop]. rewrite (window_avg_ok qs d i Hd). cbn [bind snd].
    unfold fgt, flt. destruct (Qltb q0 (wavg qs d i)) eqn:C.
    + apply Qltb_lt in C.
      destruct (IH i (wavg qs d i)) as (k & q & R & [(-> & -> & A)|P]).
      * exists i, (wavg qs d i). split; [exact R|]. right.
        exists [], idx. repeat split; auto. simpl. tauto.
      * destruct P as (pre & post & -> & -> & L & Apre & Apost).
        exists k, (wavg qs d k). split; [exact R|]. right.
        exists (i :: pre), post. repeat split; auto; [lra|].
        intros j [<-|Hj]; auto.
    + apply Qltb_ge in C.
      destruct (IH k0 q0) as (k & q & R & [(-> & -> & A)|P]).
      * exists k0, q0. split; [exact R|]. left. repeat split.
        intros j [<-|Hj]; auto.
      * destruct P as (pre & post & -> & -> & L & Apre & Apost).
        exists k, (wavg qs d k). split; [exact R|]. right.
        exists (i :: pre), post. repeat split; auto.
        intros j [<-|Hj]; [lra|auto].
Qed.

Lemma seq_split (pre post : list nat) (k : nat) :
  forall a n, seq a n = pre ++ k :: post ->
  (forall j, In j pre -> j < k)%nat /\ (forall j, In j post -> k < j)%nat /\
  (a <= k < a + n)%nat.
Proof.
  induction pre as [|p pre IH]; intros a n E.
  - destruct n as [|n]; [discriminate|]. simpl in E. injection E as <- <-.
    split; [simpl; tauto|]. split; [|lia].
    intros j Hj. apply in_seq in Hj. lia.
  - destruct n as [|n]; [discriminate|]. simpl in E. injection E as <- E.
    destruct (IH _ _ E) as (A & B & C).
    split; [|split; [exact B|lia]].
    intros j [<-|Hj]; [lia|auto].
Qed.

Lemma best_window_Q (qs : list Q) (d : nat) :
  (forall x, In x qs -> 0 <= x) -> (1 <= d <= List.length qs)%nat ->
  exists k,
    best_window (map Fin qs) d = Ok (k, Fin (wavg qs d k)) /\
    (k + d <= List.length qs)%nat /\
    (forall j, (j + d <= List.length qs)%nat -> wavg qs d j <= wavg qs d k) /\
    (forall j, (j < k)%nat -> wavg qs d j < wavg qs d k).
Proof.
  intros Hpos Hd. unfold best_window, range. rewrite length_map.
  assert (Hd0 : d <> 0%nat) by lia.
  set (n := (List.length qs + 1 - d)%nat).
  destruct (window_loop_spec qs d Hd0 (seq 0 n) 0%nat (-1))
    as (k & q & R & [(_ & _ & A)|(pre & post & E & -> & L & Apre & Apost)]).
  - exfalso.
    assert (I : In 0%nat (seq 0 n)) by (apply in_seq; unfold n; lia).
    pose proof (A _ I). pose proof (wavg_nonneg qs d 0 Hd0 Hpos). lra.
  - exists k. split; [exact R|].
    destruct (seq_split _ _ _ _ _ E) as (Bpre & Bpost & Bk).
    split; [unfold n in Bk; lia|]. split.
    + intros j Hj.
      assert (I : In j (seq 0 n)) by (apply in_seq; unfold n; lia).
      rewrite E in I. apply in_app_or in I. destruct I as [I|[<-|I]].
      * apply Qlt_le_weak. auto.
      * apply Qle_refl.
      * auto.
    + intros j Hj.
      assert (I : In j (seq 0 n)) by (apply in_seq; lia).
      rewrite E in I. apply in_app_or in I. destruct I as [I|[<-|I]].
      * auto.
      * lia.
      * apply Bpost in I. lia.
Qed.

Lemma scores_ok_Fin (scores : list float) :
  Forall (fun s => score_ok s = true) scores ->
  scores = map Fin (map to_Q scores) /\
  forall x, In x (map to_Q scores) -> 0 <= x <= 100.
Proof.
  induction 1 as [|s l Hs _ (IH1 & IH2)]; [split; [reflexivity|simpl; tauto]|].
  apply score_ok_Fin in Hs. destruct Hs as (q & -> & Hq). split.
  - simpl. f_equal. exact IH1.
  - intros x [<-|Hx]; [exact Hq|auto].
Qed.

Lemma Qmean_one (x : Q) : Qmean [x] == x.
Proof. unfold Qmean. simpl. field. Qed.

(** Selection on valid scores: the greatest mean, at its first index. *)
Lemma best_window_valid (scores : list float) (d : nat) :
  Forall (fun s => score_ok s = true) scores ->
  (1 <= d <= List.length scores)%nat ->
  let qs := map to_Q scores in
  exists k avg,
    best_window scores d = Ok (k, Fin avg) /\
    (k + d <= List.length scores)%nat /\
    avg == Qmean (window qs k d) /\
    (forall j, (j + d <= List.length scores)%nat ->
               Qmean (window qs j d) <= avg) /\
    (forall j, (j < k)%nat -> Qmean (window qs j d) < avg).
Proof.
  intros Hok Hd qs.
  destruct (scores_ok_Fin scores Hok) as (E & Hq).
  assert (Hlen : List.length qs = List.length scores)
    by (unfold qs; apply length_map).
  assert (Hpos : forall x, In x qs -> 0 <= x) by (intros x Hx; apply Hq, Hx).
  destruct (best_window_Q qs d Hpos) as (k & R & Hk & Hmax & Hfirst);
    [lia|].
  fold qs in E. rewrite <- E in R. rewrite Hlen in Hk.
  exists k, (wavg qs d k).
  split; [exact R|]. split; [exact Hk|].
  split; [apply wavg_mean; lia|]. split.
  - intros j Hj. rewrite <- (wavg_mean qs d j) by lia. apply Hmax. lia.
  - intros j Hj. rewrite <- (wavg_mean qs d j) by lia. auto.
Qed.

(** C3.  For a sequence of valid scores (each in [[0, 100]]) and a duration
    [d] with [1 <= d <= len], the selection returns an index [k] and a mean
    [avg] such that the window of [d] elements at [k] fits in the sequence,
    [avg] is its arithmetic mean, no window of [d] elements has a greater
    mean, and every window that starts before [k] has a smaller one.  With
    [d = 1] the element at [k] is a greatest score and every earlier score
    is smaller. *)
Theorem best_window_max_mean_earliest (scores : list float) (d : nat) :
  Forall (fun s => score_ok s = true) scores ->
  (1 <= d <= List.length scores)%nat ->
  let qs := map to_Q scores in
  exists k avg,
    best_window scores d = Ok (k, Fin avg) /\
    (k + d <= List.length scores)%nat /\
    List.length (window scores k d) = d /\
    avg == Qmean (window qs k d) /\
    (forall j, (j + d <= List.length scores)%nat ->
               Qmean (window qs j d) <= avg) /\
    (forall j, (j < k)%nat -> Qmean (window qs j d) < avg) /\
    (d = 1%nat ->
     exists x, nth_error scores k = Some (Fin x) /\ avg == x /\
       forall j y, nth_error scores j = Some (Fin y) ->
                   y <= x /\ ((j < k)%nat -> y < x)).
Proof.
  intros Hok Hd qs.
  destruct (best_window_valid scores d Hok Hd)
    as (k & avg & R & Hk & Mk & Mle & Mlt).
  fold qs in Mk, Mle, Mlt.
  destruct (scores_ok_Fin scores Hok) as (E & _). fold qs in E.
  assert (Hlen : List.length qs = List.length scores)
    by (unfold qs; apply length_map).
  exists k, avg.
  split; [exact R|]. split; [exact Hk|].
  split; [apply window_length; exact Hk|].
  split; [exact Mk|]. split; [exact Mle|]. split; [exact Mlt|].
  intros ->.
  destruct (nth_error qs k) as [x|] eqn:Nk;
    [|apply nth_error_None in Nk; lia].
  assert (Ex : avg == x).
  { rewrite Mk, (window_one qs k x Nk). apply Qmean_one. }
  exists x. split; [|split; [exact Ex|]].
  - rewrite E, nth_error_map, Nk. reflexivity.
  - intros j y Hy.
    assert (Nj : nth_error qs j = Some y).
    { unfold qs. rewrite nth_error_map, Hy. reflexivity. }
    assert (Lj : (j + 1 <= List.length scores)%nat).
    { assert (j < List.length scores)%nat
        by (apply nth_error_Some; congruence). lia. }
    pose proof (window_one qs j y Nj) as Wj.
    pose proof (Qmean_one y) as My. split.
    + pose proof (Mle j Lj) as L. rewrite Wj in L. lra.
    + intro Hj. pose proof (Mlt j Hj) as L. rewrite Wj in L. lra.
Qed.

Lemma best_window_max_mean_earliest_witness :
  exists k avg,
    best_window [Fin 50; Fin 90; Fin 90; Fin 50] 2 = Ok (k, Fin avg) /\
    avg == Qmean (window [50; 90; 90; 50] k 2).
Proof.
  destruct (best_window_max_mean_earliest [Fin 50; Fin 90; Fin 90; Fin 50] 2)
    as (k & avg & R & _ & _ & M & _).
  - repeat constructor.
  - simpl. lia.
  - exists k, avg. split; [exact R|exact M].
Defined.

(** ** The pipeline *)

Lemma bind_Ok {A B : Type} (c : result A) (k : A -> result B) (b : B) :
  bind c k = Ok b -> exists a, c = Ok a /\ k a = Ok b.
Proof. destruct c as [a|e]; simpl; [eauto|discriminate]. Qed.

Lemma reraise_Ok {A : Type} (c : result A) (a : A) :
  reraise_as_500 c = Ok a <-> c = Ok a.
Proof.
  destruct c as [x|[]]; simpl; split; intro H; try discriminate; exact H.
Qed.

Lemma mapM_Ok {A B : Type} (f : A -> result B) (l : list A) (bs : list B) :
  mapM f l = Ok bs -> Forall2 (fun a b => f a = Ok b) l bs.
Proof.
  revert bs. induction l as [|a l IH]; intros bs H; simpl in H.
  - injection H as <-. constructor.
  - apply bind_Ok in H. destruct H as (b & Hb & H).
    apply bind_Ok in H. destruct H as (bs' & Hbs & H).
    injection H as <-. constructor; auto.
Qed.

Lemma mkPredictionPoint_Ok (ts : Z) (s : float) (p : PredictionPoint) :
  mkPredictionPoint ts s None None = Ok p ->
  score_ok s = true /\
  p = {| timestamp := ts; cleanliness_score := s;
         confidence := None; carbon_intensity := None |}.
Proof.
  unfold mkPredictionPoint, score_ok. simpl optional.
  rewrite !andb_true_r.
  destruct (fge s (Fin 0) && fle s (Fin 100)); [|discriminate].
  intro H. injection H as <-. auto.
Qed.

Lemma points_Ok (df : list ScoredRow) (pts : list PredictionPoint) :
  mapM (fun r => mkPredictionPoint (datetime (row r)) (score r) None None) df
  = Ok pts ->
  Forall (fun s => score_ok s = true) (map score df) /\
  map timestamp pts = map (fun r => datetime (row r)) df /\
  map cleanliness_score pts = map score df.
Proof.
  intro H. apply mapM_Ok in H.
  induction H as [|r p df pts Hp _ (IH1 & IH2 & IH3)]; [repeat split; constructor|].
  apply mkPredictionPoint_Ok in Hp. destruct Hp as (Hs & ->).
  simpl. repeat split; [constructor; assumption|f_equal; assumption..].
Qed.

Lemma py_truediv_Ok (a b : float) (n : Z) :
  py_truediv a n = Ok b -> n <> 0%Z.
Proof.
  unfold py_truediv. destruct (Z.eqb_spec n 0); [discriminate|auto].
Qed.

Lemma best_window_zero (scores : list float) :
  best_window scores 0 = Raise ZeroDivisionError.
Proof.
  unfold best_window, range.
  replace (List.length scores + 1 - 0)%nat with (S (List.length scores))
    by lia.
  reflexivity.
Qed.

(** Without a window to score the loop does not run. *)
Lemma best_window_short (scores : list float) (d : nat) :
  (List.length scores < d)%nat -> best_window scores d = Ok (0%nat, Fin (-1)).
Proof.
  intro H. unfold best_window, range.
  replace (List.length scores + 1 - d)%nat with 0%nat by lia.
  reflexivity.
Qed.

Lemma iloc_first_nth {A : Type} (l : list A) (x : A) :
  iloc_first l = Ok x -> nth_error l 0 = Some x.
Proof. destruct l; simpl; intro H; [discriminate|]. injection H as ->. reflexivity. Qed.

Lemma iloc_last_nth {A : Type} (l : list A) (x : A) :
  iloc_last l = Ok x -> nth_error l (List.length l - 1) = Some x.
Proof.
  unfold iloc_last. intro H. apply iloc_first_nth in H.
  rewrite nth_error_rev in H.
  destruct (Nat.ltb_spec 0 (List.length l)); [|discriminate].
  rewrite <- H. f_equal; lia.
Qed.

Lemma nth_error_window {A : Type} (l : list A) (i d n : nat) :
  (n < d)%nat -> nth_error (window l i d) n = nth_error l (i + n).
Proof.
  intro H. unfold window, slice.
  rewrite nth_error_firstn, nth_error_skipn.
  destruct (Nat.ltb_spec n (i + d - i)); [reflexivity|lia].
Qed.

Lemma points_valid (df : list ScoredRow) :
  Forall (fun s => score_ok s = true) (map score df) ->
  exists pts,
    mapM (fun r => mkPredictionPoint (datetime (row r)) (score r) None None) df
    = Ok pts /\
    List.length pts = List.length df.
Proof.
  induction df as [|r df IH]; intro H.
  - exists []. split; reflexivity.
  - inversion H as [|s l Hs Hl]; subst.
    destruct (IH Hl) as (pts & E & L).
    cbn [mapM]. unfold mkPredictionPoint at 1. unfold score_ok in Hs.
    rewrite Hs. cbn [optional andb bind]. rewrite E. cbn [bind].
    eexists. split; [reflexivity|]. simpl. f_equal. exact L.
Qed.

Lemma iloc_last_Ok {A : Type} (l : list A) :
  l <> [] -> exists x, iloc_last l = Ok x.
Proof.
  intro H. unfold iloc_last.
  destruct (rev l) as [|x t] eqn:E.
  - exfalso. apply H. rewrite <- (rev_involutive l), E. reflexivity.
  - exists x. reflexivity.
Qed.

Section PipelineFacts.

Variable Impact : Type.
Variable calculate_impact : float -> float -> nat -> Impact.
Variable to_datetime_date : string -> option Z.

(** What a successful run of the part after the day filter tells. *)
Lemma recommend_Ok (location : string) (df : list ScoredRow) (d : nat)
    (r : Response Impact) :
  recommend Impact calculate_impact location df d = Ok r ->
  exists k best_avg first last,
    best_window (map score df) d = Ok (k, best_avg) /\
    d <> 0%nat /\ df <> [] /\
    Forall (fun s => score_ok s = true) (map score df) /\
    map timestamp (predictions r) = map (fun x => datetime (row x)) df /\
    map cleanliness_score (predictions r) = map score df /\
    nth_error (window df k d) 0 = Some first /\
    nth_error (window df k d) (List.length (window df k d) - 1) = Some last /\
    start (recommended_window r) = datetime (row first) /\
    end_ (recommended_window r) = datetime (row last) /\
    average_cleanliness_score (recommended_window r) = round best_avg 1.
Proof.
  unfold recommend. intro H.
  apply bind_Ok in H. destruct H as ((k & best_avg) & Hw & H).
  apply bind_Ok in H. destruct H as (avg_score & Havg & H).
  apply bind_Ok in H. destruct H as (pts & Hpts & H).
  apply bind_Ok in H. destruct H as (first & Hfirst & H).
  apply bind_Ok in H. destruct H as (last & Hlast & H).
  injection H as <-. cbn.
  apply points_Ok in Hpts. destruct Hpts as (P1 & P2 & P3).
  apply py_truediv_Ok in Havg.
  exists k, best_avg, first, last.
  split; [exact Hw|]. split.
  { intros ->. rewrite best_window_zero in Hw. discriminate. }
  split.
  { intros ->. apply Havg. reflexivity. }
  split; [exact P1|]. split; [exact P2|]. split; [exact P3|].
  split; [apply iloc_first_nth, Hfirst|].
  split; [apply iloc_last_nth, Hlast|]. auto.
Qed.

Lemma generate_predictions_Ok (weather_df : list Row) (location : string)
    (hours_ahead : Z) (day : option string) (d : nat) (r : Response Impact) :
  generate_predictions Impact calculate_impact to_datetime_date
    weather_df location hours_ahead day d = Ok r ->
  exists df,
    filter_day to_datetime_date day (add_cleanliness_score weather_df) = Ok df /\
    recommend Impact calculate_impact location df d = Ok r.
Proof.
  unfold generate_predictions. intro H.
  apply (proj1 (reraise_Ok _ _)) in H. apply bind_Ok in H. exact H.
Qed.

(** The day filter, request by request. *)
Lemma filter_day_Some (s : string) (target : Z) (df_proc : list ScoredRow) :
  s <> ""%string -> to_datetime_date s = Some target ->
  let df := filter (fun r => (date (datetime (row r)) =? target)%Z) df_proc in
  filter_day to_datetime_date (Some s) df_proc =
  match df with
  | [] => Raise (HTTPException 404 ("No forecast data for " ++ s))
  | _ => Ok df
  end.
Proof.
  intros Hs Ht. unfold filter_day.
  destruct (String.eqb_spec s ""); [contradiction|].
  rewrite Ht. reflexivity.
Qed.

(** A frame shorter than the duration: nothing is raised, the block is the
    whole frame and [best_avg] keeps its initial value. *)
Lemma recommend_short (location : string) (df : list ScoredRow) (d : nat) :
  df <> [] ->
  Forall (fun s => score_ok s = true) (map score df) ->
  (List.length df < d)%nat ->
  exists r first last,
    recommend Impact calculate_impact location df d = Ok r /\
    List.length (predictions r) = List.length df /\
    nth_error df 0 = Some first /\
    nth_error df (List.length df - 1) = Some last /\
    start (recommended_window r) = datetime (row first) /\
    end_ (recommended_window r) = datetime (row last) /\
    average_cleanliness_score (recommended_window r) = round (Fin (-1)) 1.
Proof.
  intros Hne Hok Hd.
  destruct (points_valid df Hok) as (pts & Hpts & Lpts).
  destruct (iloc_last_Ok df Hne) as (last & Hlast).
  destruct df as [|first df'] eqn:Edf; [congruence|]. rewrite <- Edf in *.
  assert (Hfirst : iloc_first df = Ok first) by (rewrite Edf; reflexivity).
  unfold recommend.
  rewrite best_window_short by (rewrite length_map; exact Hd).
  cbn [bind]. unfold py_truediv.
  destruct (Z.eqb_spec (Z.of_nat (List.length (map score df))) 0) as [Z0|_].
  { rewrite length_map, Edf in Z0. simpl in Z0. lia. }
  cbn [bind]. rewrite Hpts. cbn [bind].
  change (slice df 0 (0 + d)) with (window df 0 d).
  rewrite window_short by lia.
  rewrite Hfirst, Hlast. cbn [bind].
  eexists. exists first, last. split; [reflexivity|].
  cbn [predictions recommended_window start end_ average_cleanliness_score].
  split; [exact Lpts|].
  split; [apply iloc_first_nth, Hfirst|].
  split; [apply iloc_last_nth, Hlast|].
  repeat split.
Qed.

End PipelineFacts.

(** C1, on the code as it is.  When the frame has at least one row, every
    score is valid and the duration exceeds the number of rows, the
    pipeline raises nothing: the loop runs zero times and the response
    carries a window over all the rows, from the first to the last, fewer
    than the duration asked for, whose average is the initial value [-1]
    of [best_avg]. *)
Theorem short_frame_returns_window
    (to_datetime_date : string -> option Z) (weather_df : list Row)
    (location : string) (hours_ahead : Z) (d : nat) :
  let df := add_cleanliness_score weather_df in
  df <> [] ->
  Forall (fun s => score_ok s = true) (map score df) ->
  (List.length df < d)%nat ->
  exists r first last,
    V3.generate_predictions to_datetime_date weather_df location hours_ahead
      None d = Ok r /\
    List.length (predictions r) = List.length df /\
    nth_error df 0 = Some first /\
    nth_error df (List.length df - 1) = Some last /\
    start (recommended_window r) = datetime (row first) /\
    end_ (recommended_window r) = datetime (row last) /\
    feq (average_cleanliness_score (recommended_window r)) (Fin (-1)).
Proof.
  intros df Hne Hok Hd.
  destruct (recommend_short V3.Impact V3.calculate_impact location df d
              Hne Hok Hd)
    as (r & first & last & Hr & Hl & Hf & Hla & Hs & He & Ha).
  exists r, first, last.
  split.
  - unfold V3.generate_predictions, generate_predictions.
    cbn [filter_day bind]. fold df. rewrite Hr. reflexivity.
  - repeat (split; [assumption|]). rewrite Ha. reflexivity.
Qed.

(** The example of five scored hours and a duration of six. *)
Lemma short_frame_returns_window_witness :
  exists r,
    V3.generate_predictions (fun _ => None) (frame 0 [1; 2; 3; 4; 5])
      "Paris" 24 None 6 = Ok r /\
    List.length (predictions r) = 5%nat /\
    start (recommended_window r) = 0%Z /\
    end_ (recommended_window r) = 4%Z /\
    feq (average_cleanliness_score (recommended_window r)) (Fin (-1)).
Proof.
  destruct (short_frame_returns_window (fun _ => None)
              (frame 0 [1; 2; 3; 4; 5]) "Paris" 24 6)
    as (r & first & last & Hr & Hl & Hf & Hla & Hs & He & Ha).
  - discriminate.
  - repeat constructor.
  - simpl. lia.
  - exists r. split; [exact Hr|]. split; [exact Hl|].
    injection Hf as <-. injection Hla as <-.
    split; [exact Hs|]. split; [exact He|exact Ha].
Defined.




(** C8.  For a request with a day [s] that parses to the date [target]:
    when no row of the frame falls on that date the pipeline raises
    [HTTPException(404, "No forecast data for s")]; otherwise everything
    after the filter runs on the rows of that date only; and a response,
    when there is one, has at least one prediction, every prediction is on
    that date, and so are the start and the end of the window. *)
Theorem day_filter_restricts_or_404
    (to_datetime_date : string -> option Z) (weather_df : list Row)
    (location : string) (hours_ahead : Z) (s : string) (target : Z)
    (d : nat) :
  s <> ""%string -> to_datetime_date s = Some target ->
  let df := filter (fun r => (date (datetime (row r)) =? target)%Z)
                   (add_cleanliness_score weather_df) in
  let run := V3.generate_predictions to_datetime_date weather_df location
               hours_ahead (Some s) d in
  (df = [] ->
   run = Raise (HTTPException 404 ("No forecast data for " ++ s))) /\
  (df <> [] ->
   run = reraise_as_500
           (recommend V3.Impact V3.calculate_impact location df d)) /\
  (forall r, run = Ok r ->
     predictions r <> [] /\
     Forall (fun p => date (timestamp p) = target) (predictions r) /\
     date (start (recommended_window r)) = target /\
     date (end_ (recommended_window r)) = target).
Proof.
  intros Hs Ht df run.
  assert (Hf : filter_day to_datetime_date (Some s)
                 (add_cleanliness_score weather_df)
               = match df with
                 | [] => Raise (HTTPException 404 ("No forecast data for " ++ s))
                 | _ => Ok df
                 end)
    by (apply filter_day_Some; assumption).
  assert (Hdate : forall x, In x df -> date (datetime (row x)) = target).
  { intros x Hx. apply filter_In in Hx. destruct Hx as (_ & Hx).
    apply Z.eqb_eq, Hx. }
  split; [|split].
  - intro E. unfold run, V3.generate_predictions, generate_predictions.
    rewrite Hf, E. reflexivity.
  - intro N. unfold run, V3.generate_predictions, generate_predictions.
    rewrite Hf. destruct df; [congruence|reflexivity].
  - intros r Hr. unfold run in Hr.
    apply generate_predictions_Ok in Hr. destruct Hr as (df' & Hf' & Hr).
    rewrite Hf in Hf'.
    assert (E : df' = df) by (destruct df; [discriminate|congruence]).
    subst df'. apply recommend_Ok in Hr.
    destruct Hr as (k & best_avg & first & last & _ & _ & Hne & _ & Hts & _
                    & Nfirst & Nlast & Hst & Hen & _).
    assert (Hfirst : In first df)
      by (eapply In_slice, nth_error_In, Nfirst).
    assert (Hlast : In last df)
      by (eapply In_slice, nth_error_In, Nlast).
    split; [|split; [|split]].
    + intro E. rewrite E in Hts. destruct df; [congruence|discriminate].
    + apply Forall_forall. intros p Hp.
      apply (in_map timestamp) in Hp. rewrite Hts in Hp.
      apply in_map_iff in Hp. destruct Hp as (x & <- & Hx). auto.
    + rewrite Hst. auto.
    + rewrite Hen. auto.
Qed.

Lemma day_filter_restricts_or_404_witness :
  V3.generate_predictions (fun _ => Some 1%Z) (frame 0 [1; 2; 3]) "Paris" 24
    (Some "1970-01-02"%string) 1
  = Raise (HTTPException 404 "No forecast data for 1970-01-02").
Proof.
  apply (day_filter_restricts_or_404 (fun _ => Some 1%Z) (frame 0 [1; 2; 3])
           "Paris" 24 "1970-01-02" 1 1).
  - discriminate.
  - reflexivity.
  - reflexivity.
Defined.

(** ** Impact equivalents *)

Lemma co2_saved_Fin (a b : Q) (d : nat) :
  exists c, co2_saved (Fin a) (Fin b) d = Fin c /\ c == co2_formula a b d.
Proof.
  unfold co2_saved, co2_formula, py_max, fgt. simpl.
  destruct (Qltb 0 ((b + - a) / 10)) eqn:C.
  - apply Qltb_lt in C. eexists. split; [reflexivity|].
    rewrite Q.max_r by (apply Qlt_le_weak, C). reflexivity.
  - apply Qltb_ge in C. eexists. split; [reflexivity|].
    rewrite Q.max_l by exact C. reflexivity.
Qed.

Lemma co2_formula_nonneg (a b : Q) (d : nat) : 0 <= co2_formula a b d.
Proof.
  unfold co2_formula. apply Qmult_le_0_compat.
  - apply Q.le_max_l.
  - unfold Qle, inject_Z. simpl. lia.
Qed.

Lemma co2_formula_zero (a b : Q) (d : nat) : b <= a -> co2_formula a b d == 0.
Proof.
  intro H. unfold co2_formula. rewrite Q.max_l; [lra|].
  assert ((b - a) / 10 == (b - a) * (1 # 10)) as -> by field. lra.
Qed.

(** C6 as stated fails: with [avg_all = 0], [avg_best = 10] and one hour,
    one kilogram is saved and the trees reported are [0.05], not
    [1 / 21.77]. *)
Lemma trees_planted_is_rounded :
  feq (co2_saved (Fin 0) (Fin 10) 1) (Fin 1) /\
  feq (V2.trees_planted_equiv (V2.calculate_impact (Fin 0) (Fin 10) 1))
      (Fin (5 # 100)) /\
  ~ feq (V2.trees_planted_equiv (V2.calculate_impact (Fin 0) (Fin 10) 1))
        (fdiv (co2_saved (Fin 0) (Fin 10) 1) (Fin (2177 # 100))).
Proof.
  split; [reflexivity|]. split; [reflexivity|].
  vm_compute. discriminate.
Qed.

(** C6, amended.  For averages between [-1000] and [1000] (cleanliness
    scores lie in [[0, 100]]) and a duration of one to a thousand hours
    (the route allows 1 to 24), with
    [co2 = max(0, (avg_best - avg_all) / 10) * duration_hours], the
    estimate reports [co2] rounded to two decimals and the trees as
    [co2 / 21.77] rounded to two decimals (the same trees in both versions
    of the function); both are never negative, and both are zero when
    [avg_best] does not exceed [avg_all]. *)
Theorem calculate_impact_rounded (avg_all avg_best : Q) (d : nat) :
  - (1000) <= avg_all <= 1000 -> - (1000) <= avg_best <= 1000 ->
  (1 <= d <= 1000)%nat ->
  let co2 := co2_formula avg_all avg_best d in
  let r := V2.calculate_impact (Fin avg_all) (Fin avg_best) d in
  exists c t,
    V2.co2_saved_kg r = Fin c /\ rounded_to 2 co2 c /\
    V2.trees_planted_equiv r = Fin t /\
    rounded_to 2 (co2 / (2177 # 100)) t /\
    V3.trees_planted_equiv
      (V3.calculate_impact (Fin avg_all) (Fin avg_best) d) = Fin t /\
    0 <= c /\ 0 <= t /\
    (avg_best <= avg_all -> c == 0 /\ t == 0).
Proof.
  intros _ _ _ co2 r.
  destruct (co2_saved_Fin avg_all avg_best d) as (c0 & Hc & Ec). fold co2 in Ec.
  pose proof (co2_formula_nonneg avg_all avg_best d) as Hpos. fold co2 in Hpos.
  assert (T : round (fdiv (Fin c0) (Fin (2177 # 100))) 2
              = Fin (Qround_digits 2 (co2 / (2177 # 100)))).
  { cbv [fdiv round].
    assert (Qeq_bool (2177 # 100) 0 = false) as -> by reflexivity.
    f_equal. apply Qround_digits_comp. rewrite Ec. reflexivity. }
  assert (Dpos : 0 <= co2 / (2177 # 100)).
  { apply Qle_shift_div_l; [reflexivity|lra]. }
  exists (Qround_digits 2 co2), (Qround_digits 2 (co2 / (2177 # 100))).
  split; [|split; [|split; [|split; [|split; [|split; [|split]]]]]].
  - unfold r, V2.calculate_impact. cbn [V2.co2_saved_kg]. rewrite Hc.
    cbv [round]. f_equal. apply Qround_digits_comp, Ec.
  - apply Qround_digits_rounded_to.
  - unfold r, V2.calculate_impact. cbn [V2.trees_planted_equiv].
    rewrite Hc. exact T.
  - apply Qround_digits_rounded_to.
  - unfold V3.calculate_impact. cbn [V3.trees_planted_equiv].
    rewrite Hc. exact T.
  - apply (Qround_digits_lower 2 0), Hpos.
  - apply (Qround_digits_lower 2 0), Dpos.
  - intro H. pose proof (co2_formula_zero avg_all avg_best d H) as Z0.
    fold co2 in Z0. split.
    + apply (Qround_digits_Z 2 0), Z0.
    + apply (Qround_digits_Z 2 0). rewrite Z0. reflexivity.
Qed.

Lemma calculate_impact_rounded_witness :
  exists c t,
    V2.co2_saved_kg (V2.calculate_impact (Fin 40) (Fin 90) 2) = Fin c /\
    V2.trees_planted_equiv (V2.calculate_impact (Fin 40) (Fin 90) 2) = Fin t /\
    0 <= c /\ 0 <= t.
Proof.
  destruct (calculate_impact_rounded 40 90 2)
    as (c & t & Hc & _ & Ht & _ & _ & Pc & Pt & _).
  - split; discriminate.
  - split; discriminate.
  - lia.
  - exists c, t. auto.
Defined.

(** ** The tree message *)

Lemma tier_Fin (q : Q) :
  tier (V3.format_tree_message (Fin q)) =
  Some (if Qltb q (5 # 10) then 0
        else if Qltb q (15 # 10) then 1
        else if Qltb q 3 then 2
        else if Qltb q 5 then 3
        else if Qltb q 10 then 4
        else 5)%nat.
Proof.
  unfold V3.format_tree_message, flt.
  repeat (match goal with |- context [Qltb ?x ?y] => destruct (Qltb x y) end);
    reflexivity.
Qed.

Ltac qcmp :=
  repeat match goal with
    | H : Qltb _ _ = true |- _ => apply Qltb_lt in H
    | H : Qltb _ _ = false |- _ => apply Qltb_ge in H
    | H : Qle_bool _ _ = true |- _ => apply Qle_bool_iff in H
    end.

Lemma tier_monotone_Fin (x y : Q) (k1 k2 : nat) :
  x <= y ->
  tier (V3.format_tree_message (Fin x)) = Some k1 ->
  tier (V3.format_tree_message (Fin y)) = Some k2 ->
  (k1 <= k2)%nat.
Proof.
  intro L. rewrite !tier_Fin.
  destruct (Qltb x (5 # 10)) eqn:X1; [|destruct (Qltb x (15 # 10)) eqn:X2;
    [|destruct (Qltb x 3) eqn:X3; [|destruct (Qltb x 5) eqn:X4;
      [|destruct (Qltb x 10) eqn:X5]]]];
  (destruct (Qltb y (5 # 10)) eqn:Y1; [|destruct (Qltb y (15 # 10)) eqn:Y2;
    [|destruct (Qltb y 3) eqn:Y3; [|destruct (Qltb y 5) eqn:Y4;
      [|destruct (Qltb y 10) eqn:Y5]]]]);
  intros E1 E2; injection E1 as <-; injection E2 as <-;
  try lia; qcmp; exfalso; lra.
Qed.

(** C7.  The message is one of six distinct fixed strings; on a finite
    value it is the first below [0.5], the second from [0.5] and below
    [1.5], the third from [1.5] and below [3], the fourth from [3] and
    below [5], the fifth from [5] and below [10], and the sixth from [10];
    and the position of the message never decreases when the value grows. *)
Theorem format_tree_message_step :
  NoDup tree_messages /\ List.length tree_messages = 6%nat /\
  (forall t, exists k,
     (k < 6)%nat /\ tier (V3.format_tree_message t) = Some k) /\
  (forall q,
     let k := tier (V3.format_tree_message (Fin q)) in
     (q < 5 # 10 -> k = Some 0%nat) /\
     (5 # 10 <= q -> q < 15 # 10 -> k = Some 1%nat) /\
     (15 # 10 <= q -> q < 3 -> k = Some 2%nat) /\
     (3 <= q -> q < 5 -> k = Some 3%nat) /\
     (5 <= q -> q < 10 -> k = Some 4%nat) /\
     (10 <= q -> k = Some 5%nat)) /\
  (forall t1 t2 k1 k2,
     fle t1 t2 = true ->
     tier (V3.format_tree_message t1) = Some k1 ->
     tier (V3.format_tree_message t2) = Some k2 ->
     (k1 <= k2)%nat).
Proof.
  split; [|split; [reflexivity|split; [|split]]].
  - repeat constructor; simpl; intro H;
      repeat (destruct H as [H|H]; [discriminate H|]); exact H.
  - intros [q| | |].
    + rewrite tier_Fin.
      repeat (match goal with
              | |- context [Qltb ?x ?y] => destruct (Qltb x y)
              end);
        eexists; (split; [|reflexivity]); lia.
    + exists 5%nat. split; [lia|reflexivity].
    + exists 0%nat. split; [lia|reflexivity].
    + exists 5%nat. split; [lia|reflexivity].
  - intros q k. unfold k. rewrite tier_Fin.
    destruct (Qltb q (5 # 10)) eqn:X1; [|destruct (Qltb q (15 # 10)) eqn:X2;
      [|destruct (Qltb q 3) eqn:X3; [|destruct (Qltb q 5) eqn:X4;
        [|destruct (Qltb q 10) eqn:X5]]]];
    qcmp; repeat split; intros; try reflexivity; exfalso; lra.
  - intros [x| | |] [y| | |] k1 k2 L; try discriminate L.
    + apply Qle_bool_iff in L. apply tier_monotone_Fin, L.
    + intros H1 H2. rewrite tier_Fin in H1.
      assert (E2 : k2 = 5%nat) by (vm_compute in H2; congruence). subst k2.
      repeat (match type of H1 with
              | context [Qltb ?a ?b] => destruct (Qltb a b)
              end);
        injection H1 as <-; lia.
    + intros H1 H2.
      assert (E1 : k1 = 5%nat) by (vm_compute in H1; congruence).
      assert (E2 : k2 = 5%nat) by (vm_compute in H2; congruence). lia.
    + intros H1 H2.
      assert (E1 : k1 = 0%nat) by (vm_compute in H1; congruence). lia.
    + intros H1 H2.
      assert (E1 : k1 = 0%nat) by (vm_compute in H1; congruence). lia.
    + intros H1 H2.
      assert (E1 : k1 = 0%nat) by (vm_compute in H1; congruence). lia.
Qed.

(** ** The mock service *)

Import PredictionService.


Lemma Qtrunc_nonneg (x : Q) : 0 <= x -> Qtrunc x = Qfloor x.
Proof.
  destruct x as [n d]. unfold Qtrunc, Qle. cbn [Qnum Qden Qfloor]. intro H.
  apply Z.quot_div_nonneg; lia.
Qed.

Lemma Qtrunc_neg (x : Q) : x <= 0 -> Qtrunc x = (- Qfloor (- x))%Z.
Proof.
  destruct x as [n d]. unfold Qtrunc, Qle, Qopp. cbn [Qnum Qden Qfloor].
  intro H. rewrite <- (Z.opp_involutive n) at 1.
  rewrite Z.quot_opp_l by lia. f_equal.
  apply Z.quot_div_nonneg; lia.
Qed.

Lemma Qtrunc_mono (x y : Q) : x <= y -> (Qtrunc x <= Qtrunc y)%Z.
Proof.
  intro L.
  destruct (Qlt_le_dec x 0) as [Nx|Px]; destruct (Qlt_le_dec y 0) as [Ny|Py].
  - rewrite !Qtrunc_neg by lra.
    assert ((Qfloor (- y) <= Qfloor (- x))%Z)
      by (apply Qfloor_resp_le; lra). lia.
  - rewrite Qtrunc_neg by lra. rewrite (Qtrunc_nonneg y Py).
    assert ((Qfloor 0 <= Qfloor (- x))%Z) by (apply Qfloor_resp_le; lra).
    assert ((Qfloor 0 <= Qfloor y)%Z) by (apply Qfloor_resp_le; lra).
    change (Qfloor 0) with 0%Z in *. lia.
  - exfalso. lra.
  - rewrite !Qtrunc_nonneg by lra. apply Qfloor_resp_le, L.
Qed.

Lemma Qtrunc_below_two (x : Q) : x < 2 -> (Qtrunc x <= 1)%Z.
Proof.
  intro H. destruct (Qlt_le_dec x 0) as [Nx|Px].
  - rewrite Qtrunc_neg by lra.
    assert ((Qfloor 0 <= Qfloor (- x))%Z) by (apply Qfloor_resp_le; lra).
    change (Qfloor 0) with 0%Z in *. lia.
  - rewrite (Qtrunc_nonneg x Px).
    pose proof (Qfloor_le x) as F.
    assert (L : inject_Z (Qfloor x) < inject_Z 2).
    { change (inject_Z 2) with 2. lra. }
    rewrite <- Zlt_Qlt in L. lia.
Qed.

Lemma impact_metrics_Fin (q : Q) :
  _calculate_impact_metrics (Fin q)
  = Ok {| co2_saved_kg := Fin (Qround_digits 2 q);
          trees_equivalent := Z.max 1 (Qtrunc (q * 365 / 22));
          car_km_avoided := Fin (Qround_digits 1 (q / (12 # 100)));
          coal_plants_offset_hours :=
            Fin (Qround_digits 4 (q / 820000)) |}.
Proof. reflexivity. Qed.




Lemma clamp_Fin (v : Q) :
  exists s, py_max (Fin 0) (py_min (Fin 100) (Fin v)) = Fin s /\ 0 <= s <= 100.
Proof.
  unfold py_max, py_min, fgt, flt.
  destruct (Qltb v 100) eqn:C1.
  - destruct (Qltb 0 v) eqn:C2; qcmp.
    + exists v. split; [reflexivity|lra].
    + exists 0. split; [reflexivity|lra].
  - exists 100. split; [reflexivity|lra].
Qed.

Lemma mkPredictionPoint_valid (ts : Z) (s c ci : Q) :
  0 <= s <= 100 -> 0 <= c <= 1 -> 0 <= ci ->
  mkPredictionPoint ts (Fin s) (Some (Fin c)) (Some (Fin ci))
  = Ok {| timestamp := ts; cleanliness_score := Fin s;
          confidence := Some (Fin c); carbon_intensity := Some (Fin ci) |}.
Proof.
  intros (S0 & S1) (C0 & C1) I0.
  unfold mkPredictionPoint, optional, fge, fle.
  rewrite (proj2 (Qle_bool_iff 0 s) S0), (proj2 (Qle_bool_iff s 100) S1),
    (proj2 (Qle_bool_iff 0 c) C0), (proj2 (Qle_bool_iff c 1) C1),
    (proj2 (Qle_bool_iff 0 ci) I0).
  reflexivity.
Qed.

Lemma Forall2_nth_error_r {A B : Type} (R : A -> B -> Prop)
    (l : list A) (l' : list B) :
  Forall2 R l l' ->
  forall i b, nth_error l' i = Some b ->
  exists a, nth_error l i = Some a /\ R a b.
Proof.
  induction 1 as [|a b l l' Hab _ IH]; intros i y Hy.
  - destruct i; discriminate.
  - destruct i as [|i]; simpl in Hy.
    + injection Hy as <-. exists a. split; [reflexivity|exact Hab].
    + apply IH, Hy.
Qed.

Section MockFacts.

Variable np_sin_pi_12 : Z -> Q.
Variable np_random_random : nat -> Q.
Variable np_random_normal : nat -> Q.

Hypothesis uniform : forall n, 0 <= np_random_random n < 1.

Lemma mock_point_spec (base_time : Z) (i rng : nat) :
  exists p rng',
    mock_point np_sin_pi_12 np_random_random np_random_normal
      base_time i rng = Ok (p, rng') /\
    mock_point_ok base_time i p.
Proof.
  unfold mock_point.
  destruct ((6 <=? (base_time + Z.of_nat i) mod 24)%Z
            && ((base_time + Z.of_nat i) mod 24 <=? 18)%Z);
    cbv beta iota zeta delta [fadd fmul fsub fneg round];
    match goal with
    | |- context [py_max (Fin 0) (py_min (Fin 100) (Fin ?v))] =>
        destruct (clamp_Fin v) as (s & -> & Hs)
    end;
    match goal with
    | |- context [Some (Fin (Qround_digits 2 ((7 # 10) + (3 # 10) * ?u)))] =>
        assert (Hu : 0 <= (7 # 10) + (3 # 10) * u <= 1)
          by (match u with
              | np_random_random ?n => pose proof (uniform n)
              end; lra)
    end;
    (assert (Hci : 200 <= 600 + - (s * 4) <= 600) by lra);
    (rewrite mkPredictionPoint_valid;
     [ | split; [apply (Qround_digits_lower 1 0)
                |apply (Qround_digits_upper 1 100)]; apply Hs
       | split; [apply (Qround_digits_lower 2 0)
                |apply (Qround_digits_upper 2 1)]; apply Hu
       | apply (Qround_digits_lower 1 0); unfold inject_Z; lra ]);
    cbn [bind]; eexists; eexists; (split; [reflexivity|]);
    exists s; cbn [timestamp cleanliness_score carbon_intensity];
    (split; [exact Hs|]); (split; [reflexivity|]);
    (split; [reflexivity|]); (split; [reflexivity|]);
    (split; split;
     [ apply (Qround_digits_lower 1 0), Hs
     | apply (Qround_digits_upper 1 100), Hs
     | apply (Qround_digits_lower 1 200), Hci
     | apply (Qround_digits_upper 1 600), Hci ]).
Qed.

Lemma mock_loop_spec (base_time : Z) (idx : list nat) :
  forall rng acc,
  exists pts rng',
    mock_loop np_sin_pi_12 np_random_random np_random_normal
      base_time idx rng acc = Ok (acc ++ pts, rng') /\
    Forall2 (mock_point_ok base_time) idx pts.
Proof.
  induction idx as [|i idx IH]; intros rng acc.
  - exists [], rng. rewrite app_nil_r. split; [reflexivity|constructor].
  - cbn [mock_loop].
    destruct (mock_point_spec base_time i rng) as (p & rng1 & -> & Hp).
    cbn [bind].
    destruct (IH rng1 (acc ++ [p])) as (pts & rng' & -> & Hpts).
    exists (p :: pts), rng'. rewrite <- app_assoc. split; [reflexivity|].
    constructor; assumption.
Qed.

Lemma generate_mock_predictions_spec (base_time : Z) (location : string)
    (hours : nat) :
  exists pts,
    _generate_mock_predictions np_sin_pi_12 np_random_random
      np_random_normal base_time location hours = Ok pts /\
    List.length pts = hours /\
    forall i p, nth_error pts i = Some p -> mock_point_ok base_time i p.
Proof.
  unfold _generate_mock_predictions.
  destruct (mock_loop_spec base_time (range hours) 0%nat [])
    as (pts & rng' & -> & H).
  exists pts. split; [reflexivity|]. split.
  - apply Forall2_length in H. unfold range in H.
    rewrite length_seq in H. auto.
  - intros i p Hp.
    destruct (Forall2_nth_error_r _ _ _ H i p Hp) as (a & Ha & Hok).
    assert (Hi : (i < hours)%nat).
    { apply Forall2_length in H. unfold range in H.
      rewrite length_seq in H.
      assert (i < List.length pts)%nat by (apply nth_error_Some; congruence).
      lia. }
    unfold range in Ha. rewrite nth_error_seq in Ha.
    destruct (Nat.ltb_spec i hours); [|lia].
    injection Ha as <-. exact Hok.
Qed.

End MockFacts.

(** C10 as stated fails: at hour 0 with a uniform draw of [0] and a normal
    draw of [10.04] the score is [50.04]; the point reports a cleanliness
    of [50.0] and a carbon intensity of [399.8], not [600 - 4 * 50.0]. *)
Lemma carbon_intensity_rounded_apart :
  exists p c,
    _generate_mock_predictions (fun _ => 0) (fun _ => 0)
      (fun _ => 1004 # 100) 0 "Paris" 1 = Ok [p] /\
    carbon_intensity p = Some c /\
    feq (cleanliness_score p) (Fin 50) /\
    feq c (Fin (3998 # 10)) /\
    ~ feq c (fsub (Fin 600) (fmul (Fin 4) (cleanliness_score p))).
Proof.
  eexists. eexists. split; [vm_compute; reflexivity|].
  split; [reflexivity|]. split; [reflexivity|]. split; [reflexivity|].
  vm_compute. discriminate.
Qed.

(** C10, amended.  When every uniform draw lies in [[0, 1)], the mock
    generator returns exactly [hours] points whatever the other draws are,
    and for the point at index [i] there is a score in [[0, 100]] (the
    clamped score) such that the point is stamped [base_time + i], its
    cleanliness is that score rounded to one decimal and its carbon
    intensity is [600 - 4 * score] rounded to one decimal, each rounded on
    its own; the cleanliness lies in [[0, 100]] and the carbon intensity in
    [[200, 600]]. *)
Theorem mock_predictions_clamped
    (np_sin_pi_12 : Z -> Q) (np_random_random np_random_normal : nat -> Q)
    (base_time : Z) (location : string) (hours : nat) :
  (forall n, 0 <= np_random_random n < 1) ->
  exists pts,
    _generate_mock_predictions np_sin_pi_12 np_random_random
      np_random_normal base_time location hours = Ok pts /\
    List.length pts = hours /\
    forall i p, nth_error pts i = Some p ->
      exists score,
        0 <= score <= 100 /\
        timestamp p = (base_time + Z.of_nat i)%Z /\
        cleanliness_score p = Fin (Qround_digits 1 score) /\
        carbon_intensity p = Some (Fin (Qround_digits 1 (600 - score * 4))) /\
        0 <= Qround_digits 1 score <= 100 /\
        200 <= Qround_digits 1 (600 - score * 4) <= 600.
Proof.
  intro uniform.
  apply (generate_mock_predictions_spec np_sin_pi_12 np_random_random
           np_random_normal uniform base_time location hours).
Qed.

Lemma mock_predictions_clamped_witness :
  exists pts,
    _generate_mock_predictions (fun _ => 1) (fun _ => 1 # 2) (fun _ => 30)
      12 "Paris" 24 = Ok pts /\
    List.length pts = 24%nat.
Proof.
  destruct (mock_predictions_clamped (fun _ => 1) (fun _ => 1 # 2)
              (fun _ => 30) 12 "Paris" 24) as (pts & H & L & _).
  - intros _. split; [discriminate|reflexivity].
  - exists pts. split; [exact H|exact L].
Defined.

(** The request on a constant batch: the [nan] scores are refused by
    [PredictionPoint] and the service answers 500. *)
Example constant_batch_request_fails :
  V3.generate_predictions (fun _ => None) (frame 0 [5; 5]) "Paris" 24 None 1
  = Raise (HTTPException 500 "validation error").
Proof. vm_compute. reflexivity. Qed.


(** * Further properties of the services *)

(** ** The weather fetch *)

Lemma map_fst_combine {A B : Type} (l : list A) (l' : list B) :
  List.length l = List.length l' -> map fst (combine l l') = l.
Proof.
  revert l'. induction l as [|a l IH]; intros [|b l'] H; try discriminate.
  - reflexivity.
  - simpl. f_equal. apply IH. simpl in H. lia.
Qed.

Lemma map_snd_combine {A B : Type} (l : list A) (l' : list B) :
  List.length l = List.length l' -> map snd (combine l l') = l'.
Proof.
  revert l'. induction l as [|a l IH]; intros [|b l'] H; try discriminate.
  - reflexivity.
  - simpl. f_equal. apply IH. simpl in H. lia.
Qed.

Lemma combine_length_eq {A B : Type} (l : list A) (l' : list B) :
  List.length l = List.length l' ->
  List.length (combine l l') = List.length l.
Proof. intro H. rewrite length_combine. lia. Qed.

Lemma DataFrame_columns (h : Forecast.Hourly) (wind : list (option float))
    (n : nat) :
  List.length (Forecast.time h) = n ->
  List.length (Forecast.temperature_2m h) = n ->
  List.length (Forecast.relative_humidity_2m h) = n ->
  List.length (Forecast.cloudcover h) = n ->
  List.length wind = n ->
  exists df,
    Forecast.DataFrame h wind = Ok df /\
    List.length df = n /\
    map Forecast.w_datetime df = Forecast.time h /\
    map Forecast.temperature_c df = Forecast.temperature_2m h /\
    map Forecast.wind_speed_mps df = wind.
Proof.
  intros H1 H2 H3 H4 H5. unfold Forecast.DataFrame.
  rewrite H1, H2, H3, H4, H5, !Nat.eqb_refl. cbn [andb].
  eexists. split; [reflexivity|].
  assert (L4 : List.length (combine (Forecast.cloudcover h) wind) = n)
    by (rewrite combine_length_eq; lia).
  assert (L3 : List.length (combine (Forecast.relative_humidity_2m h)
                              (combine (Forecast.cloudcover h) wind)) = n)
    by (rewrite combine_length_eq; lia).
  assert (L2 : List.length (combine (Forecast.temperature_2m h)
                              (combine (Forecast.relative_humidity_2m h)
                                 (combine (Forecast.cloudcover h) wind))) = n)
    by (rewrite combine_length_eq; lia).
  split; [rewrite length_map, combine_length_eq; lia|].
  split; [|split].
  - rewrite map_map.
    rewrite (map_ext _ fst) by (intros (t & a & b & c & w); reflexivity).
    apply map_fst_combine. lia.
  - rewrite map_map.
    rewrite (map_ext _ (fun x => fst (snd x)))
      by (intros (t & a & b & c & w); reflexivity).
    rewrite <- (map_map snd fst), map_snd_combine by lia.
    apply map_fst_combine. lia.
  - rewrite map_map.
    rewrite (map_ext _ (fun x => snd (snd (snd (snd x)))))
      by (intros (t & a & b & c & w); reflexivity).
    rewrite <- (map_map snd (fun x => snd (snd (snd x)))),
      map_snd_combine by lia.
    rewrite <- (map_map snd (fun x => snd (snd x))), map_snd_combine by lia.
    rewrite <- (map_map snd snd), map_snd_combine by lia.
    apply map_snd_combine. lia.
Qed.

Lemma forecast_days_bounds (hours_ahead : Z) :
  (0 <= hours_ahead)%Z ->
  (1 <= Forecast.forecast_days hours_ahead <= 7)%Z /\
  Z.min hours_ahead (24 * Forecast.forecast_days hours_ahead)
  = Z.min hours_ahead 168.
Proof.
  intro H. unfold Forecast.forecast_days.
  pose proof (Z.div_pos hours_ahead 24 H ltac:(lia)) as D.
  pose proof (Z.mul_div_le hours_ahead 24 ltac:(lia)) as M.
  pose proof (Z.mul_succ_div_gt hours_ahead 24 ltac:(lia)) as G.
  split; [lia|]. lia.
Qed.

Lemma wind_speeds_length (l : list (option float)) :
  List.length (Forecast.wind_speeds_mps l) = List.length l.
Proof. apply length_map. Qed.

(** X1.  First version of the fetch: when the service answers with 24
    entries per day asked, a horizon of [hours_ahead >= 0] hours gives a
    frame of [min(hours_ahead, 168)] rows, the first hours of the payload in
    order, with the wind column divided by [3.6] and its [null]s kept: up to
    168 hours the frame has what was asked, beyond it is cut at 168 without
    an error. *)
Theorem fetch_limits_rows (http : Z -> Forecast.upstream) (hours_ahead : Z)
    (h : Forecast.Hourly) :
  (0 <= hours_ahead)%Z ->
  http (Forecast.forecast_days hours_ahead) = Forecast.Payload h ->
  full_payload h (Forecast.forecast_days hours_ahead) ->
  exists df,
    Forecast.V1.get_weather_forecast http hours_ahead = Ok df /\
    Z.of_nat (List.length df) = Z.min hours_ahead 168 /\
    map Forecast.w_datetime df
    = firstn (Z.to_nat hours_ahead) (Forecast.time h) /\
    map Forecast.wind_speed_mps df
    = firstn (Z.to_nat hours_ahead)
        (map (option_map (fun w => fdiv w (Fin (36 # 10))))
             (Forecast.windspeed_10m h)).
Proof.
  intros H0 Hh (F1 & F2 & F3 & F4 & F5).
  destruct (forecast_days_bounds hours_ahead H0) as (B & M).
  destruct (DataFrame_columns h
              (Forecast.wind_speeds_mps (Forecast.windspeed_10m h))
              _ F1 F2 F3 F4) as (df & E & L & T & _ & W).
  { rewrite wind_speeds_length. exact F5. }
  unfold Forecast.V1.get_weather_forecast, Forecast.fetch.
  rewrite Hh, E. unfold Forecast.head.
  destruct (Z.leb_spec 0 hours_ahead) as [_|]; [|lia].
  eexists. split; [reflexivity|]. split; [|split].
  - rewrite length_firstn, L. rewrite <- M. lia.
  - rewrite <- firstn_map, T. reflexivity.
  - rewrite <- firstn_map, W. reflexivity.
Qed.

Lemma fetch_limits_rows_witness :
  exists df,
    Forecast.V1.get_weather_forecast
      (fun days =>
         Forecast.Payload
           {| Forecast.time := map Z.of_nat (seq 0 (Z.to_nat (24 * days)));
              Forecast.temperature_2m := repeat None (Z.to_nat (24 * days));
              Forecast.relative_humidity_2m :=
                repeat None (Z.to_nat (24 * days));
              Forecast.cloudcover := repeat None (Z.to_nat (24 * days));
              Forecast.windspeed_10m :=
                repeat (Some (Fin 36)) (Z.to_nat (24 * days)) |})
      30 = Ok df /\
    Z.of_nat (List.length df) = 30%Z.
Proof.
  destruct (fetch_limits_rows
              (fun days =>
                 Forecast.Payload
                   {| Forecast.time :=
                        map Z.of_nat (seq 0 (Z.to_nat (24 * days)));
                      Forecast.temperature_2m :=
                        repeat None (Z.to_nat (24 * days));
                      Forecast.relative_humidity_2m :=
                        repeat None (Z.to_nat (24 * days));
                      Forecast.cloudcover := repeat None (Z.to_nat (24 * days));
                      Forecast.windspeed_10m :=
                        repeat (Some (Fin 36)) (Z.to_nat (24 * days)) |})
              30 _ ltac:(lia) eq_refl)
    as (df & E & L & _).
  - repeat split; reflexivity.
  - exists df. split; [exact E|exact L].
Defined.

(** X2.  Later versions of the fetch: with the same kind of answer the
    whole frame is returned, [24] rows for each of the
    [min(hours_ahead // 24 + 1, 7)] days asked, so the call
    [get_weather_forecast(lat, lon, hours_ahead=168)] of the pipeline gives
    168 rows; the times are those of the payload. *)
Theorem fetch_whole_frame (http : Z -> Forecast.upstream) (hours_ahead : Z)
    (h : Forecast.Hourly) :
  (0 <= hours_ahead)%Z ->
  http (Forecast.forecast_days hours_ahead) = Forecast.Payload h ->
  full_payload h (Forecast.forecast_days hours_ahead) ->
  exists df,
    Forecast.V3.get_weather_forecast http hours_ahead = Ok df /\
    Z.of_nat (List.length df) = (24 * Forecast.forecast_days hours_ahead)%Z /\
    (hours_ahead = 168%Z -> List.length df = 168%nat) /\
    map Forecast.w_datetime df = Forecast.time h.
Proof.
  intros H0 Hh (F1 & F2 & F3 & F4 & F5).
  destruct (forecast_days_bounds hours_ahead H0) as (B & _).
  destruct (DataFrame_columns h
              (Forecast.wind_speeds_mps (Forecast.windspeed_10m h))
              _ F1 F2 F3 F4) as (df & E & L & T & _ & W).
  { rewrite wind_speeds_length. exact F5. }
  unfold Forecast.V3.get_weather_forecast, Forecast.fetch.
  rewrite Hh, E. exists df. split; [reflexivity|].
  split; [rewrite L; lia|]. split; [|exact T].
  intros ->. rewrite L. reflexivity.
Qed.

Lemma fetch_whole_frame_witness :
  exists df,
    Forecast.V3.get_weather_forecast
      (fun days =>
         Forecast.Payload
           {| Forecast.time := map Z.of_nat (seq 0 (Z.to_nat (24 * days)));
              Forecast.temperature_2m := repeat None (Z.to_nat (24 * days));
              Forecast.relative_humidity_2m :=
                repeat None (Z.to_nat (24 * days));
              Forecast.cloudcover := repeat None (Z.to_nat (24 * days));
              Forecast.windspeed_10m := repeat None (Z.to_nat (24 * days)) |})
      168 = Ok df /\
    List.length df = 168%nat.
Proof.
  destruct (fetch_whole_frame
              (fun days =>
                 Forecast.Payload
                   {| Forecast.time :=
                        map Z.of_nat (seq 0 (Z.to_nat (24 * days)));
                      Forecast.temperature_2m :=
                        repeat None (Z.to_nat (24 * days));
                      Forecast.relative_humidity_2m :=
                        repeat None (Z.to_nat (24 * days));
                      Forecast.cloudcover := repeat None (Z.to_nat (24 * days));
                      Forecast.windspeed_10m :=
                        repeat None (Z.to_nat (24 * days)) |})
              168 _ ltac:(lia) eq_refl)
    as (df & E & _ & L & _).
  - repeat split; reflexivity.
  - exists df. split; [exact E|exact (L eq_refl)].
Defined.

(** ** More on rounding and on the normalisation *)

Lemma round_half_even_floor (q : Q) :
  (Qfloor q <= round_half_even q <= Qfloor q + 1)%Z.
Proof.
  unfold round_half_even.
  destruct (Qcompare _ _); [destruct (Z.even _)| |]; lia.
Qed.

Lemma round_half_even_mono (x y : Q) :
  x <= y -> (round_half_even x <= round_half_even y)%Z.
Proof.
  intro L. pose proof (Qfloor_resp_le x y L) as F.
  destruct (Z.eq_dec (Qfloor x) (Qfloor y)) as [E|N].
  - unfold round_half_even. rewrite E.
    generalize dependent (inject_Z (Qfloor y)). intros f.
    destruct (Qcompare_spec (x - f) (1 # 2)) as [Hx|Hx|Hx];
      destruct (Qcompare_spec (y - f) (1 # 2)) as [Hy|Hy|Hy];
      try (destruct (Z.even (Qfloor y))); try lia; exfalso; lra.
  - pose proof (round_half_even_floor x). pose proof (round_half_even_floor y).
    lia.
Qed.

Lemma Qround_digits_mono (n : nat) (x y : Q) :
  x <= y -> Qround_digits n x <= Qround_digits n y.
Proof.
  intro L. unfold Qround_digits, Qle. cbn [Qnum Qden].
  apply Z.mul_le_mono_nonneg_r; [lia|].
  apply round_half_even_mono.
  apply Qmult_le_compat_r; [exact L|]. unfold Qle, inject_Z. simpl. lia.
Qed.

(** A bound that is itself a multiple of [10^-n] survives the rounding. *)
Lemma Qround_digits_upper_dec (n : nat) (m : Z) (x : Q) :
  x <= m # pow10 n -> Qround_digits n x <= m # pow10 n.
Proof.
  intro H. unfold Qround_digits, Qle. cbn [Qnum Qden].
  apply Z.mul_le_mono_nonneg_r; [lia|].
  apply round_half_even_upper.
  assert (E : inject_Z m == (m # pow10 n) * inject_Z (Z.pos (pow10 n))).
  { unfold Qeq, inject_Z, Qmult. cbn [Qnum Qden]. lia. }
  rewrite E. apply Qmult_le_compat_r; [exact H|].
  unfold Qle, inject_Z. simpl. lia.
Qed.

Lemma Qround_digits_lower_dec (n : nat) (m : Z) (x : Q) :
  m # pow10 n <= x -> m # pow10 n <= Qround_digits n x.
Proof.
  intro H. unfold Qround_digits, Qle. cbn [Qnum Qden].
  apply Z.mul_le_mono_nonneg_r; [lia|].
  apply round_half_even_lower.
  assert (E : inject_Z m == (m # pow10 n) * inject_Z (Z.pos (pow10 n))).
  { unfold Qeq, inject_Z, Qmult. cbn [Qnum Qden]. lia. }
  rewrite E. apply Qmult_le_compat_r; [exact H|].
  unfold Qle, inject_Z. simpl. lia.
Qed.

(** The normalised batch in closed form when the batch has a spread. *)
Lemma normalize_closed (raw : list Q) (mn mx : Q) :
  series_min raw = Fin mn -> series_max raw = Fin mx -> ~ mx - mn == 0 ->
  normalize raw
  = map (fun x => Fin (Qround_digits 1 ((x - mn) / (mx - mn) * 100))) raw.
Proof.
  intros Smin Smax N. unfold normalize. rewrite Smin, Smax.
  apply map_ext. intro x. apply normalize_elem, N.
Qed.

Lemma spread_bounds (raw : list Q) (mn mx : Q) :
  is_min raw mn -> is_max raw mx -> mn <= mx.
Proof.
  intros ((x & Hx & Ex) & Lmin) (_ & Lmax).
  rewrite <- Ex. apply Lmax, Hx.
Qed.

Lemma normalize_spread_ok (raw : list Q) (mn mx : Q) :
  is_min raw mn -> is_max raw mx -> ~ mn == mx ->
  Forall (fun s => score_ok s = true) (normalize raw).
Proof.
  intros Hmin Hmax Hne.
  assert (NE : raw <> []).
  { destruct Hmin as ((x & Hx & _) & _). intros ->. exact Hx. }
  destruct (series_min_is_min raw NE) as (mn' & Smin & Hmin').
  destruct (series_max_is_max raw NE) as (mx' & Smax & Hmax').
  pose proof (is_min_unique _ _ _ Hmin' Hmin) as Emn.
  pose proof (is_max_unique _ _ _ Hmax' Hmax) as Emx.
  pose proof (spread_bounds raw mn mx Hmin Hmax) as B.
  assert (Hlt : mn' < mx').
  { rewrite Emn, Emx. apply Qle_lteq in B. destruct B as [B|B]; tauto. }
  rewrite (normalize_closed raw mn' mx' Smin Smax) by lra.
  apply Forall_map, Forall_forall. intros x Hx.
  apply score_ok_Fin. eexists. split; [reflexivity|].
  assert (V : 0 <= (x - mn') / (mx' - mn') * 100 <= 100).
  { apply Qdiv_unit_interval; [| |lra].
    - pose proof (proj2 Hmin' x Hx). lra.
    - pose proof (proj2 Hmin' x Hx). pose proof (proj2 Hmax' x Hx). lra. }
  split.
  - apply (Qround_digits_lower 1 0), V.
  - apply (Qround_digits_upper 1 100), V.
Qed.

(** X3.  The normalisation keeps the order of the raw scores: in a batch
    with a spread, an hour whose raw score is not below that of another
    hour gets a normalised score that is not below the other's. *)
Theorem normalize_monotone (raw : list Q) (mn mx : Q) :
  is_min raw mn -> is_max raw mx -> ~ mn == mx ->
  forall i j x y,
    nth_error raw i = Some x -> nth_error raw j = Some y -> x <= y ->
    exists s t,
      nth_error (normalize raw) i = Some (Fin s) /\
      nth_error (normalize raw) j = Some (Fin t) /\
      s <= t.
Proof.
  intros Hmin Hmax Hne i j x y Hi Hj L.
  assert (NE : raw <> []) by (intros ->; destruct i; discriminate).
  destruct (series_min_is_min raw NE) as (mn' & Smin & Hmin').
  destruct (series_max_is_max raw NE) as (mx' & Smax & Hmax').
  pose proof (is_min_unique _ _ _ Hmin' Hmin) as Emn.
  pose proof (is_max_unique _ _ _ Hmax' Hmax) as Emx.
  pose proof (spread_bounds raw mn mx Hmin Hmax) as B.
  assert (Hlt : mn' < mx').
  { rewrite Emn, Emx. apply Qle_lteq in B. destruct B as [B|B]; tauto. }
  rewrite (normalize_closed raw mn' mx' Smin Smax) by lra.
  rewrite !nth_error_map, Hi, Hj. cbv [option_map].
  eexists. eexists. split; [reflexivity|]. split; [reflexivity|].
  apply Qround_digits_mono.
  apply Qmult_le_compat_r; [|discriminate].
  unfold Qdiv. apply Qmult_le_compat_r; [lra|].
  apply Qlt_le_weak, Qinv_lt_0_compat. lra.
Qed.

Lemma normalize_monotone_witness :
  exists s t,
    nth_error (normalize [3; 1; 2]) 1 = Some (Fin s) /\
    nth_error (normalize [3; 1; 2]) 2 = Some (Fin t) /\
    s <= t.
Proof.
  apply (normalize_monotone [3; 1; 2] 1 3) with (x := 1) (y := 2).
  - split; [exists 1; simpl; split; [tauto|reflexivity]|].
    intros x [<-|[<-|[<-|[]]]]; discriminate.
  - split; [exists 3; simpl; split; [tauto|reflexivity]|].
    intros x [<-|[<-|[<-|[]]]]; discriminate.
  - discriminate.
  - reflexivity.
  - reflexivity.
  - discriminate.
Defined.

(** ** Which requests succeed and how the others fail *)

Lemma scores_of_frame (weather_df : list Row) :
  map score (add_cleanliness_score weather_df)
  = normalize (map predicted_score weather_df).
Proof.
  unfold add_cleanliness_score. rewrite map_map. cbn [score].
  change (fun x : Row * float => snd x) with (@snd Row float).
  apply map_snd_combine. rewrite normalize_length, length_map. reflexivity.
Qed.

Lemma rows_of_frame (weather_df : list Row) :
  map row (add_cleanliness_score weather_df) = weather_df.
Proof.
  unfold add_cleanliness_score. rewrite map_map. cbn [row].
  change (fun x : Row * float => fst x) with (@fst Row float).
  apply map_fst_combine. rewrite normalize_length, length_map. reflexivity.
Qed.

Lemma normalize_constant (raw : list Q) (c : Q) :
  raw <> [] -> (forall x, In x raw -> x == c) ->
  Forall (fun s => s = NaN) (normalize raw).
Proof.
  intros NE Hc.
  destruct (series_min_is_min raw NE) as (mn & Smin & (a & Ha & Ea) & _).
  destruct (series_max_is_max raw NE) as (mx & Smax & (b & Hb & Eb) & _).
  assert (Emn : mn == c) by (rewrite <- Ea; auto).
  assert (Emx : mx == c) by (rewrite <- Eb; auto).
  unfold normalize. rewrite Smin, Smax. apply Forall_map, Forall_forall.
  intros x Hx. cbv [fsub fadd fneg fdiv].
  assert (Z0 : Qeq_bool (mx + - mn) 0 = true).
  { apply Qeq_bool_iff. rewrite Emn, Emx. lra. }
  assert (S0 : Qsign (x + - mn) = Eq).
  { unfold Qsign. apply Qeq_alt. rewrite (Hc x Hx), Emn. lra. }
  rewrite Z0, S0. reflexivity.
Qed.

(** A non-empty batch is constant or holds two different scores. *)
Lemma spread_dec (raw : list Q) (c : Q) :
  (forall x, In x raw -> x == c) \/ (exists x, In x raw /\ ~ x == c).
Proof.
  induction raw as [|a raw IH].
  - left. simpl. tauto.
  - destruct (Qeq_dec a c) as [E|N].
    + destruct IH as [IH|(x & Hx & Nx)].
      * left. intros x [<-|Hx]; auto.
      * right. exists x. split; [now right|exact Nx].
    + right. exists a. split; [now left|exact N].
Qed.

Lemma spread_min_max (raw : list Q) (x y mn mx : Q) :
  In x raw -> In y raw -> ~ x == y ->
  is_min raw mn -> is_max raw mx -> ~ mn == mx.
Proof.
  intros Hx Hy N (_ & Lmin) (_ & Lmax) E.
  pose proof (Lmin x Hx). pose proof (Lmin y Hy).
  pose proof (Lmax x Hx). pose proof (Lmax y Hy).
  apply N. lra.
Qed.

Lemma iloc_first_Ok {A : Type} (l : list A) :
  l <> [] -> exists x, iloc_first l = Ok x.
Proof. destruct l as [|a l]; [congruence|]. intros _. exists a. reflexivity. Qed.

Lemma py_truediv_raises (a : float) (n : Z) (e : exn) :
  py_truediv a n = Raise e -> e = ZeroDivisionError.
Proof.
  unfold py_truediv. destruct (n =? 0)%Z; [|discriminate].
  intro H. injection H as <-. reflexivity.
Qed.

Lemma window_loop_raises (scores : list float) (d : nat) (idx : list nat) :
  forall best e,
    window_loop scores d idx best = Raise e -> e = ZeroDivisionError.
Proof.
  induction idx as [|i idx IH]; intros best e; [discriminate|].
  cbn [window_loop].
  destruct (py_truediv _ _) as [avg|e1] eqn:Ed; cbn [bind].
  - apply IH.
  - intro H. injection H as <-. eapply py_truediv_raises, Ed.
Qed.

Lemma best_window_raises (scores : list float) (d : nat) (e : exn) :
  best_window scores d = Raise e -> e = ZeroDivisionError.
Proof. apply window_loop_raises. Qed.

Lemma points_raises (df : list ScoredRow) (e : exn) :
  mapM (fun r => mkPredictionPoint (datetime (row r)) (score r) None None) df
  = Raise e -> e = ValidationError.
Proof.
  induction df as [|r df IH]; [discriminate|]. cbn [mapM].
  unfold mkPredictionPoint at 1.
  destruct (_ && _ && _ && _)%bool; cbn [bind].
  - destruct (mapM _ df) as [bs|e1]; cbn [bind]; [discriminate|].
    intro H. injection H as <-. apply IH. reflexivity.
  - intro H. injection H as <-. reflexivity.
Qed.

Lemma iloc_first_raises {A : Type} (l : list A) (e : exn) :
  iloc_first l = Raise e -> e = IndexError.
Proof. destruct l; [|discriminate]. intro H. injection H as <-. reflexivity. Qed.

Lemma iloc_last_raises {A : Type} (l : list A) (e : exn) :
  iloc_last l = Raise e -> e = IndexError.
Proof. apply iloc_first_raises. Qed.

Section PipelineTotal.

Variable Impact : Type.
Variable calculate_impact : float -> float -> nat -> Impact.
Variable to_datetime_date : string -> option Z.

(** On a non-empty frame of valid scores every duration of at least one
    hour gets a response. *)
Lemma recommend_total (location : string) (df : list ScoredRow) (d : nat) :
  df <> [] -> Forall (fun s => score_ok s = true) (map score df) ->
  d <> 0%nat ->
  exists r, recommend Impact calculate_impact location df d = Ok r.
Proof.
  intros Hne Hok Hd.
  destruct (Nat.lt_ge_cases (List.length df) d) as [Hs|Hl].
  - destruct (recommend_short Impact calculate_impact location df d Hne Hok Hs)
      as (r & _ & _ & Hr & _).
    exists r. exact Hr.
  - destruct (best_window_valid (map score df) d Hok)
      as (k & avg & R & Hk & _); [rewrite length_map; lia|].
    rewrite length_map in Hk.
    destruct (points_valid df Hok) as (pts & Hpts & _).
    assert (Wne : window df k d <> []).
    { intro E. pose proof (window_length df k d Hk) as L.
      rewrite E in L. simpl in L. lia. }
    destruct (iloc_first_Ok _ Wne) as (first & Hfirst).
    destruct (iloc_last_Ok _ Wne) as (last & Hlast).
    unfold recommend. rewrite R. cbn [bind]. unfold py_truediv.
    destruct (Z.eqb_spec (Z.of_nat (List.length (map score df))) 0) as [Z0|_].
    { rewrite length_map in Z0. destruct df; [congruence|simpl in Z0; lia]. }
    cbn [bind]. rewrite Hpts. cbn [bind].
    change (slice df k (k + d)) with (window df k d).
    rewrite Hfirst, Hlast. cbn [bind]. eexists. reflexivity.
Qed.

(** What the part after the day filter can raise. *)
Lemma recommend_raises (location : string) (df : list ScoredRow) (d : nat)
    (e : exn) :
  recommend Impact calculate_impact location df d = Raise e ->
  e = ZeroDivisionError \/ e = ValidationError \/ e = IndexError.
Proof.
  unfold recommend. intro H.
  destruct (best_window (map score df) d) as [(k & b)|e1] eqn:Ew.
  - cbn [bind] in H.
    destruct (py_truediv _ _) as [avg|e2] eqn:Ed.
    + cbn [bind] in H.
      destruct (mapM _ df) as [pts|e3] eqn:Ep.
      * cbn [bind] in H.
        destruct (iloc_first _) as [f|e4] eqn:Ef.
        -- cbn [bind] in H.
           destruct (iloc_last _) as [l|e5] eqn:El; [discriminate|].
           cbn [bind] in H. injection H as <-.
           apply iloc_last_raises in El. auto.
        -- cbn [bind] in H. injection H as <-.
           apply iloc_first_raises in Ef. auto.
      * cbn [bind] in H. injection H as <-.
        apply points_raises in Ep. auto.
    + cbn [bind] in H. injection H as <-.
      apply py_truediv_raises in Ed. auto.
  - cbn [bind] in H. injection H as <-.
    apply best_window_raises in Ew. auto.
Qed.

End PipelineTotal.

Lemma firstn_min_length {A : Type} (l : list A) (n : nat) :
  firstn (Nat.min n (List.length l)) l = firstn n l.
Proof.
  destruct (Nat.le_ge_cases n (List.length l)) as [H|H].
  - rewrite Nat.min_l by exact H. reflexivity.
  - rewrite Nat.min_r by exact H. rewrite !firstn_all2 by lia. reflexivity.
Qed.

Lemma py_slice_nat {A : Type} (l : list A) (i d : nat) :
  PredictionServiceThird.py_slice l (Z.of_nat i) (Z.of_nat i + Z.of_nat d) = slice l i (i + d).
Proof.
  unfold PredictionServiceThird.py_slice, PredictionServiceThird.slice_index, slice.
  destruct (Z.ltb_spec (Z.of_nat i) 0) as [H|_]; [lia|].
  destruct (Z.ltb_spec (Z.of_nat i + Z.of_nat d) 0) as [H|_]; [lia|].
  replace (Z.to_nat (Z.min (Z.of_nat i) (Z.of_nat (List.length l))))
    with (Nat.min i (List.length l)) by lia.
  replace (Z.to_nat (Z.min (Z.of_nat i + Z.of_nat d) (Z.of_nat (List.length l))))
    with (Nat.min (i + d) (List.length l)) by lia.
  destruct (Nat.le_ge_cases i (List.length l)) as [H|H].
  - rewrite (Nat.min_l i) by exact H.
    replace (Nat.min (i + d) (List.length l) - i)%nat
      with (Nat.min d (List.length (skipn i l)))
      by (rewrite length_skipn; lia).
    replace (i + d - i)%nat with d by lia. apply firstn_min_length.
  - rewrite (Nat.min_r i) by exact H.
    rewrite !skipn_all2 by lia. rewrite !firstn_nil. reflexivity.
Qed.

Lemma window_loop_nat (scores : list float) (d : nat) (idx : list nat) :
  forall k b,
    PredictionServiceThird.window_loop scores (Z.of_nat d) (map Z.of_nat idx) (Z.of_nat k, b)
    = (p <- window_loop scores d idx (k, b) ;; Ok (Z.of_nat (fst p), snd p)).
Proof.
  induction idx as [|i idx IH]; intros k b; [reflexivity|].
  cbn [map PredictionServiceThird.window_loop window_loop]. rewrite py_slice_nat.
  destruct (py_truediv _ _) as [avg|e]; cbn [bind snd]; [|reflexivity].
  destruct (fgt avg b); apply IH.
Qed.

Lemma best_window_nat (scores : list float) (d : nat) :
  PredictionServiceThird.best_window scores (Z.of_nat d)
  = (p <- best_window scores d ;; Ok (Z.of_nat (fst p), snd p)).
Proof.
  unfold PredictionServiceThird.best_window, best_window, PredictionServiceThird.py_range, range.
  replace (Z.to_nat (Z.of_nat (List.length scores) - Z.of_nat d + 1))
    with (List.length scores + 1 - d)%nat by lia.
  apply (window_loop_nat scores d _ 0%nat).
Qed.

Lemma recommend_nat (location : string) (df : list ScoredRow) (d : nat) :
  PredictionServiceThird.recommend location df (Z.of_nat d)
  = recommend V3.Impact V3.calculate_impact location df d.
Proof.
  unfold PredictionServiceThird.recommend, recommend. rewrite best_window_nat.
  destruct (best_window (map score df) d) as [(k & b)|e]; cbn [bind fst snd];
    [|reflexivity].
  rewrite py_slice_nat. reflexivity.
Qed.

Lemma third_window_loop_raises (scores : list float) (d : Z) (idx : list Z) :
  forall best e,
    PredictionServiceThird.window_loop scores d idx best = Raise e -> e = ZeroDivisionError.
Proof.
  induction idx as [|i idx IH]; intros best e; [discriminate|].
  cbn [PredictionServiceThird.window_loop].
  destruct (py_truediv _ _) as [avg|e1] eqn:Ed; cbn [bind].
  - apply IH.
  - intro H. injection H as <-. eapply py_truediv_raises, Ed.
Qed.

Lemma third_recommend_raises (location : string) (df : list ScoredRow)
    (d : Z) (e : exn) :
  PredictionServiceThird.recommend location df d = Raise e ->
  e = ZeroDivisionError \/ e = ValidationError \/ e = IndexError.
Proof.
  unfold PredictionServiceThird.recommend. intro H.
  destruct (PredictionServiceThird.best_window (map score df) d) as [(k & b)|e1] eqn:Ew.
  - cbn [bind] in H.
    destruct (py_truediv _ _) as [avg|e2] eqn:Ed.
    + cbn [bind] in H.
      destruct (mapM _ df) as [pts|e3] eqn:Ep.
      * cbn [bind] in H.
        destruct (iloc_first _) as [f|e4] eqn:Ef.
        -- cbn [bind] in H.
           destruct (iloc_last _) as [l|e5] eqn:El; [discriminate|].
           cbn [bind] in H. injection H as <-.
           apply iloc_last_raises in El. auto.
        -- cbn [bind] in H. injection H as <-.
           apply iloc_first_raises in Ef. auto.
      * cbn [bind] in H. injection H as <-.
        apply points_raises in Ep. auto.
    + cbn [bind] in H. injection H as <-.
      apply py_truediv_raises in Ed. auto.
  - cbn [bind] in H. injection H as <-.
    apply third_window_loop_raises in Ew. auto.
Qed.

(** The scores of a frame decide whether the part after the day filter
    answers. *)
Lemma recommend_frame_iff (location : string) (weather_df : list Row)
    (d : nat) :
  let raw := map predicted_score weather_df in
  (exists r, recommend V3.Impact V3.calculate_impact location
               (add_cleanliness_score weather_df) d = Ok r) <->
  (d <> 0%nat /\ exists x y, In x raw /\ In y raw /\ ~ x == y).
Proof.
  intros raw. split.
  - intros (r & Hr).
    apply recommend_Ok in Hr.
    destruct Hr as (_ & _ & _ & _ & _ & Hd & Hne & Hok & _).
    split; [exact Hd|].
    rewrite scores_of_frame in Hok. fold raw in Hok.
    assert (Rne : raw <> []).
    { intro E. apply Hne. unfold raw in E. apply map_eq_nil in E.
      rewrite E. reflexivity. }
    destruct raw as [|c raw'] eqn:Eraw; [congruence|]. rewrite <- Eraw in *.
    destruct (spread_dec raw c) as [Hc|(x & Hx & Nx)].
    + exfalso. pose proof (normalize_constant raw c Rne Hc) as Hn.
      pose proof (normalize_length raw) as L.
      destruct (normalize raw) as [|s l]; [rewrite Eraw in L; discriminate|].
      inversion Hok; subst. inversion Hn; subst. discriminate.
    + exists x, c. split; [exact Hx|]. split; [rewrite Eraw; now left|exact Nx].
  - intros (Hd & x & y & Hx & Hy & N).
    assert (Rne : raw <> []) by (intros E; rewrite E in Hx; exact Hx).
    destruct (series_min_is_min raw Rne) as (mn & _ & Hmin).
    destruct (series_max_is_max raw Rne) as (mx & _ & Hmax).
    pose proof (spread_min_max raw x y mn mx Hx Hy N Hmin Hmax) as Hne.
    pose proof (normalize_spread_ok raw mn mx Hmin Hmax Hne) as Hok.
    unfold raw in Hok. rewrite <- scores_of_frame in Hok.
    assert (Dne : add_cleanliness_score weather_df <> []).
    { intro E. apply Rne. unfold raw.
      rewrite <- (rows_of_frame weather_df), E. reflexivity. }
    apply (recommend_total V3.Impact V3.calculate_impact location _ d
             Dne Hok Hd).
Qed.

Lemma filter_nil_iff {A : Type} (p : A -> bool) (l : list A) :
  filter p l = [] <-> Forall (fun x => p x = false) l.
Proof.
  induction l as [|a l IH]; simpl.
  - split; auto.
  - destruct (p a) eqn:E.
    + split; [discriminate|]. intro H. inversion H; congruence.
    + rewrite IH. split; [constructor; assumption|].
      intro H. inversion H; assumption.
Qed.

Lemma with_predicted_score_fields (wdf : list Forecast.WeatherRow)
    (scores : list Q) :
  List.length scores = List.length wdf ->
  map datetime (PredictionServiceThird.with_predicted_score wdf scores)
  = map Forecast.w_datetime wdf /\
  map predicted_score (PredictionServiceThird.with_predicted_score wdf scores) = scores.
Proof.
  intro L. unfold PredictionServiceThird.with_predicted_score. rewrite !map_map.
  cbn [datetime predicted_score]. split.
  - rewrite <- (map_map fst Forecast.w_datetime). f_equal.
    apply map_fst_combine. symmetry. exact L.
  - change (fun x : Forecast.WeatherRow * Q => snd x)
      with (@snd Forecast.WeatherRow Q).
    apply map_snd_combine. symmetry. exact L.
Qed.

Lemma filter_frame_nil (wdf : list Forecast.WeatherRow) (scores : list Q)
    (target : Z) :
  List.length scores = List.length wdf ->
  filter (fun r => (date (datetime (row r)) =? target)%Z)
         (add_cleanliness_score (PredictionServiceThird.with_predicted_score wdf scores)) = [] <->
  filter (fun w => (date (Forecast.w_datetime w) =? target)%Z) wdf = [].
Proof.
  intro L. rewrite !filter_nil_iff.
  rewrite <- (Forall_map (fun r => datetime (row r))
                (fun t => (date t =? target)%Z = false)).
  rewrite <- (Forall_map Forecast.w_datetime
                (fun t => (date t =? target)%Z = false)).
  rewrite <- (map_map row datetime), rows_of_frame.
  rewrite (proj1 (with_predicted_score_fields wdf scores L)). reflexivity.
Qed.

Section RequestFacts.

Variable geocode_http : string -> Geocode.upstream.
Variable weather_http : float -> float -> Z -> Forecast.upstream.
Variable model_predict : list Forecast.WeatherRow -> option (list Q).
Variable to_datetime_date : string -> option Z.

Lemma fetched_functional (location : string)
    (wdf wdf' : list Forecast.WeatherRow) (scores scores' : list Q) :
  fetched geocode_http weather_http model_predict location wdf scores ->
  fetched geocode_http weather_http model_predict location wdf' scores' ->
  wdf = wdf' /\ scores = scores'.
Proof.
  intros (lat & lon & rest & G & W & M & _) (lat' & lon' & rest' & G' & W' & M' & _).
  try rewrite G in G'. injection G' as <- <- <-.
  rewrite W in W'. injection W' as <-.
  rewrite M in M'. injection M' as <-. auto.
Qed.

Lemma weather_http_error (http : Z -> Forecast.upstream) (msg : string) :
  http 7%Z = Forecast.HTTPError msg ->
  Forecast.V3.get_weather_forecast http 168
  = Raise (HTTPException 400 ("Weather API error: " ++ msg)).
Proof.
  intro H. unfold Forecast.V3.get_weather_forecast, Forecast.fetch.
  change (Forecast.forecast_days 168) with 7%Z. rewrite H. reflexivity.
Qed.

Lemma weather_raises (http : Z -> Forecast.upstream) (e : exn) :
  Forecast.V3.get_weather_forecast http 168 = Raise e ->
  (exists msg, http 7%Z = Forecast.HTTPError msg /\
               e = HTTPException 400 ("Weather API error: " ++ msg)) \/
  ((forall msg, http 7%Z <> Forecast.HTTPError msg) /\
   exists detail, e = HTTPException 500 detail).
Proof.
  unfold Forecast.V3.get_weather_forecast, Forecast.fetch.
  change (Forecast.forecast_days 168) with 7%Z.
  destruct (http 7%Z) as [h|msg|msg].
  - destruct (Forecast.DataFrame _ _) as [df|e1]; [discriminate|].
    intro H. injection H as <-. right. split; [discriminate|].
    eexists. reflexivity.
  - intro H. injection H as <-. left. exists msg. auto.
  - intro H. injection H as <-. right. split; [discriminate|].
    eexists. reflexivity.
Qed.

(** How a request goes up to the scored frame. *)
Lemma request_cases (location : string) (hours_ahead : Z)
    (day : option string) (d : Z) :
  let run := PredictionServiceThird.generate_predictions geocode_http weather_http model_predict
               to_datetime_date location hours_ahead day d in
  (exists wdf scores,
     fetched geocode_http weather_http model_predict location wdf scores /\
     run = reraise_as_500
             (df <- filter_day to_datetime_date day
                      (add_cleanliness_score
                         (PredictionServiceThird.with_predicted_score wdf scores)) ;;
              PredictionServiceThird.recommend location df d)) \/
  (geocode_http location = Geocode.Results [] /\
   exists detail, run = Raise (HTTPException 404 detail)) \/
  (exists lat lon rest msg,
     geocode_http location
     = Geocode.Results (Geocode.Coordinates lat lon :: rest) /\
     weather_http lat lon 7%Z = Forecast.HTTPError msg /\
     exists detail, run = Raise (HTTPException 400 detail)) \/
  ((forall wdf scores,
      ~ fetched geocode_http weather_http model_predict location wdf scores) /\
   geocode_http location <> Geocode.Results [] /\
   (forall lat lon rest msg,
      geocode_http location
      = Geocode.Results (Geocode.Coordinates lat lon :: rest) ->
      weather_http lat lon 7%Z <> Forecast.HTTPError msg) /\
   exists detail, run = Raise (HTTPException 500 detail)).
Proof.
  intro run. unfold run, PredictionServiceThird.generate_predictions, Geocode.geocode_location.
  destruct (geocode_http location) as [[|[lat lon|msg] rest]|msg] eqn:G.
  - right. left. split; [reflexivity|]. eexists. reflexivity.
  - cbn [bind].
    destruct (Forecast.V3.get_weather_forecast (weather_http lat lon) 168)
      as [wdf|e] eqn:W.
    + cbn [bind]. unfold PredictionServiceThird.set_predicted_score.
      destruct (model_predict wdf) as [scores|] eqn:M.
      * destruct (Nat.eqb_spec (List.length scores) (List.length wdf)) as [L|L].
        -- left. exists wdf, scores. split; [|reflexivity].
           exists lat, lon, rest. auto.
        -- right. right. right. split; [|split; [rewrite ?G; discriminate|split]].
           ++ intros wdf' scores' (lat' & lon' & rest' & G' & W' & M' & L').
              try rewrite G in G'. injection G' as <- <- <-. rewrite W in W'. injection W' as <-.
              rewrite M in M'. injection M' as <-. contradiction.
           ++ intros lat' lon' rest' msg G' E. try rewrite G in G'. injection G' as <- <- <-.
              rewrite (weather_http_error _ _ E) in W. discriminate.
           ++ eexists. reflexivity.
      * right. right. right. split; [|split; [rewrite ?G; discriminate|split]].
        -- intros wdf' scores' (lat' & lon' & rest' & G' & W' & M' & L').
           try rewrite G in G'. injection G' as <- <- <-. rewrite W in W'. injection W' as <-.
           rewrite M in M'. discriminate.
        -- intros lat' lon' rest' msg G' E. try rewrite G in G'. injection G' as <- <- <-.
           rewrite (weather_http_error _ _ E) in W. discriminate.
        -- eexists. reflexivity.
    + cbn [bind]. destruct (weather_raises _ _ W) as [(msg & E & ->)|(N & detail & ->)].
      * right. right. left. exists lat, lon, rest, msg.
        split; [reflexivity|]. split; [exact E|]. eexists. reflexivity.
      * right. right. right. split; [|split; [rewrite ?G; discriminate|split]].
        -- intros wdf' scores' (lat' & lon' & rest' & G' & W' & _).
           try rewrite G in G'. injection G' as <- <- <-. rewrite W in W'. discriminate.
        -- intros lat' lon' rest' msg G' E. try rewrite G in G'. injection G' as <- <- <-.
           exact (N msg E).
        -- eexists. reflexivity.
  - right. right. right. split; [|split; [rewrite ?G; discriminate|split]].
    + intros wdf' scores' (lat' & lon' & rest' & G' & _). try rewrite G in G'. discriminate.
    + intros lat' lon' rest' msg' G'. try rewrite G in G'. discriminate.
    + eexists. reflexivity.
  - right. right. right. split; [|split; [rewrite ?G; discriminate|split]].
    + intros wdf' scores' (lat' & lon' & rest' & G' & _). try rewrite G in G'. discriminate.
    + intros lat' lon' rest' msg' G'. try rewrite G in G'. discriminate.
    + eexists. reflexivity.
Qed.

Lemma fetched_excludes (location : string)
    (wdf : list Forecast.WeatherRow) (scores : list Q) :
  fetched geocode_http weather_http model_predict location wdf scores ->
  geocode_http location <> Geocode.Results [] /\
  (forall lat lon rest msg,
     geocode_http location
     = Geocode.Results (Geocode.Coordinates lat lon :: rest) ->
     weather_http lat lon 7%Z <> Forecast.HTTPError msg).
Proof.
  intros (lat & lon & rest & G & W & _). split.
  - rewrite G. discriminate.
  - intros lat' lon' rest' msg G' E. try rewrite G in G'.
    injection G' as <- <- <-.
    rewrite (weather_http_error _ _ E) in W. discriminate.
Qed.

End RequestFacts.

(** X5.  The whole request of the third version, without a day filter and
    for a duration from zero to a million hours: it is answered exactly
    when the geocoder finds the location, the weather service answers
    with a well-formed payload, the model scores every row of it, the
    duration is not zero and the raw scores are not all equal (which
    needs two rows at least). *)
Theorem request_without_day_succeeds_iff
    (geocode_http : string -> Geocode.upstream)
    (weather_http : float -> float -> Z -> Forecast.upstream)
    (model_predict : list Forecast.WeatherRow -> option (list Q))
    (to_datetime_date : string -> option Z)
    (location : string) (hours_ahead : Z) (d : Z) :
  (0 <= d <= 1000000)%Z ->
  ((exists r,
      PredictionServiceThird.generate_predictions geocode_http weather_http model_predict
        to_datetime_date location hours_ahead None d = Ok r) <->
   (exists wdf scores,
      fetched geocode_http weather_http model_predict location wdf scores /\
      d <> 0%Z /\
      exists x y, In x scores /\ In y scores /\ ~ x == y)).
Proof.
  intros (Hd & _). rewrite <- (Z2Nat.id d Hd). set (n := Z.to_nat d). clearbody n.
  destruct (request_cases geocode_http weather_http model_predict
              to_datetime_date location hours_ahead None (Z.of_nat n))
    as [(wdf & scores & F & R)|[(G & detail & R)|[(lat & lon & rest & msg & G & E & detail & R)
        |(NF & _ & _ & detail & R)]]];
    cbv zeta in R; rewrite R.
  - cbn [filter_day bind]. rewrite recommend_nat.
    pose proof F as (_ & _ & _ & _ & _ & _ & L).
    pose proof (recommend_frame_iff location
                  (PredictionServiceThird.with_predicted_score wdf scores) n) as I.
    cbv zeta in I.
    rewrite (proj2 (with_predicted_score_fields wdf scores L)) in I.
    split.
    + intros (r & Hr). exists wdf, scores. split; [exact F|].
      destruct (recommend _ _ _ _ _) as [r'|e] eqn:Er;
        [|destruct e; discriminate].
      destruct (proj1 I (ex_intro _ r' eq_refl)) as (Hn & S).
      split; [lia|exact S].
    + intros (wdf' & scores' & F' & Hn & S).
      destruct (fetched_functional _ _ _ _ _ _ _ _ F F') as (<- & <-).
      destruct (proj2 I (conj (fun E : n = 0%nat => Hn (f_equal Z.of_nat E)) S))
        as (r & Hr).
      exists r. rewrite Hr. reflexivity.
  - split; [intros (r & Hr); discriminate|].
    intros (wdf & scores & F & _).
    destruct (fetched_excludes _ _ _ _ _ _ F) as (N & _). contradiction.
  - split; [intros (r & Hr); discriminate|].
    intros (wdf & scores & F & _).
    destruct (fetched_excludes _ _ _ _ _ _ F) as (_ & N).
    exfalso. exact (N _ _ _ _ G E).
  - split; [intros (r & Hr); discriminate|].
    intros (wdf & scores & F & _). exfalso. exact (NF _ _ F).
Qed.

Lemma request_without_day_succeeds_iff_witness :
  exists r,
    PredictionServiceThird.generate_predictions
      (fun _ => Geocode.Results [Geocode.Coordinates (Fin 48) (Fin 2)])
      (fun _ _ _ =>
         Forecast.Payload
           {| Forecast.time := [0; 1]%Z;
              Forecast.temperature_2m := [None; None];
              Forecast.relative_humidity_2m := [None; None];
              Forecast.cloudcover := [None; None];
              Forecast.windspeed_10m := [Some (Fin 36); None] |})
      (fun _ => Some [1; 2]) (fun _ => None) "Paris" 24 None 1 = Ok r.
Proof.
  refine (proj2 (request_without_day_succeeds_iff _ _ _ _ _ _ 1 _) _).
  - split; discriminate.
  - eexists. exists [1; 2]. split; [|split].
    + exists (Fin 48), (Fin 2), []. repeat split; reflexivity.
    + discriminate.
    + exists 1, 2. simpl. split; [auto|]. split; [auto|]. discriminate.
Defined.

Lemma filter_day_incl (to_datetime_date : string -> option Z)
    (day : option string) (df_proc df : list ScoredRow) :
  filter_day to_datetime_date day df_proc = Ok df -> incl df df_proc.
Proof.
  unfold filter_day. destruct day as [s|].
  - destruct (String.eqb s "").
    + intro H. injection H as <-. apply incl_refl.
    + destruct (to_datetime_date s) as [t|]; [|discriminate]. cbn [bind].
      destruct (filter _ df_proc) as [|a l] eqn:E; [discriminate|].
      intro H. injection H as <-. rewrite <- E. apply incl_filter.
  - intro H. injection H as <-. apply incl_refl.
Qed.

(** X6.  Whatever the request and the sign of the duration, a failure
    reaches the caller as an [HTTPException] of status 400, 404 or 500.
    The status is 400 exactly when the location was found and the weather
    service answered the seven-day request with an HTTP error status; it
    is 404 exactly when the geocoder returned no result, or when the frame
    was fetched and scored, a non-empty day was given, pandas parsed it
    and no row of the frame falls on that date. *)
Theorem request_failure_status
    (geocode_http : string -> Geocode.upstream)
    (weather_http : float -> float -> Z -> Forecast.upstream)
    (model_predict : list Forecast.WeatherRow -> option (list Q))
    (to_datetime_date : string -> option Z)
    (location : string) (hours_ahead : Z) (day : option string) (d : Z)
    (e : exn) :
  PredictionServiceThird.generate_predictions geocode_http weather_http model_predict
    to_datetime_date location hours_ahead day d = Raise e ->
  exists status detail,
    e = HTTPException status detail /\
    (status = 400 \/ status = 404 \/ status = 500)%Z /\
    (status = 400%Z <->
     exists lat lon rest msg,
       geocode_http location
       = Geocode.Results (Geocode.Coordinates lat lon :: rest) /\
       weather_http lat lon 7%Z = Forecast.HTTPError msg) /\
    (status = 404%Z <->
     geocode_http location = Geocode.Results [] \/
     exists wdf scores s target,
       fetched geocode_http weather_http model_predict location wdf scores /\
       day = Some s /\ s <> ""%string /\
       to_datetime_date s = Some target /\
       filter (fun w => (date (Forecast.w_datetime w) =? target)%Z) wdf = []).
Proof.
  destruct (request_cases geocode_http weather_http model_predict
              to_datetime_date location hours_ahead day d)
    as [(wdf & scores & F & R)|[(G & detail & R)|[(lat & lon & rest & msg & G & E & detail & R)
        |(NF & NG & NE & detail & R)]]];
    cbv zeta in R; rewrite R; clear R; intro H.
  - destruct (fetched_excludes _ _ _ _ _ _ F) as (NG & NE).
    pose proof F as (_ & _ & _ & _ & _ & _ & L).
    assert (N400 : ~ exists lat lon rest msg,
               geocode_http location
               = Geocode.Results (Geocode.Coordinates lat lon :: rest) /\
               weather_http lat lon 7%Z = Forecast.HTTPError msg).
    { intros (lat & lon & rest & msg & G & E). exact (NE _ _ _ _ G E). }
    destruct (filter_day to_datetime_date day _) as [df|e1] eqn:Ef.
    + cbn [bind] in H.
      destruct (PredictionServiceThird.recommend location df d) as [r|e2] eqn:Er; [discriminate|].
      apply third_recommend_raises in Er.
      exists 500%Z, (str e2).
      split; [destruct Er as [->|[->| ->]]; simpl in H; injection H as <-;
              reflexivity|].
      split; [auto|]. split; [split; [discriminate|tauto]|].
      split; [discriminate|].
      intros [G|(wdf' & scores' & s & target & F' & -> & Hs & Ht & Hfilter)];
        [contradiction|]. exfalso.
      destruct (fetched_functional _ _ _ _ _ _ _ _ F F') as (<- & <-).
      apply (filter_frame_nil wdf scores target L) in Hfilter.
      rewrite (filter_day_Some to_datetime_date s target _ Hs Ht) in Ef.
      rewrite Hfilter in Ef. discriminate.
    + cbn [bind] in H. unfold filter_day in Ef.
      destruct day as [s|]; [|discriminate].
      destruct (String.eqb_spec s "") as [|Hs]; [discriminate|].
      destruct (to_datetime_date s) as [t|] eqn:Et.
      * cbn [bind] in Ef.
        destruct (filter _ _) as [|a l] eqn:Efl; [|discriminate].
        injection Ef as <-. simpl in H. injection H as <-.
        eexists. eexists. split; [reflexivity|]. split; [auto|].
        split; [split; [discriminate|tauto]|].
        split; [|reflexivity]. intros _. right. exists wdf, scores, s, t.
        apply (filter_frame_nil wdf scores t L) in Efl. auto.
      * cbn [bind] in Ef. injection Ef as <-. simpl in H. injection H as <-.
        eexists. eexists. split; [reflexivity|]. split; [auto|].
        split; [split; [discriminate|tauto]|].
        split; [discriminate|].
        intros [G|(wdf' & scores' & s' & target & _ & Es & _ & Ht & _)];
          [contradiction|].
        injection Es as <-. congruence.
  - injection H as <-. exists 404%Z, detail.
    split; [reflexivity|]. split; [auto|]. split.
    + split; [discriminate|].
      intros (lat & lon & rest & msg & G' & _). rewrite G in G'. discriminate.
    + split; [auto|reflexivity].
  - injection H as <-. exists 400%Z, detail.
    split; [reflexivity|]. split; [auto|]. split.
    + split; [|reflexivity]. intros _. exists lat, lon, rest, msg. auto.
    + split; [discriminate|].
      intros [G'|(wdf & scores & s & target & F & _)].
      * rewrite G in G'. discriminate.
      * destruct (fetched_excludes _ _ _ _ _ _ F) as (_ & N).
        exfalso. exact (N _ _ _ _ G E).
  - injection H as <-. exists 500%Z, detail.
    split; [reflexivity|]. split; [auto|]. split.
    + split; [discriminate|].
      intros (lat & lon & rest & msg & G & E). exfalso. exact (NE _ _ _ _ G E).
    + split; [discriminate|].
      intros [G|(wdf & scores & s & target & F & _)]; [contradiction|].
      exfalso. exact (NF _ _ F).
Qed.

Lemma request_failure_status_witness :
  exists status detail,
    HTTPException 404 "Location 'Paris' not found"
    = HTTPException status detail /\
    (status = 400 \/ status = 404 \/ status = 500)%Z.
Proof.
  destruct (request_failure_status (fun _ => Geocode.Results [])
              (fun _ _ _ => Forecast.Failure "") (fun _ => None)
              (fun _ => None) "Paris" 24 None 1
              (HTTPException 404 "Location 'Paris' not found") eq_refl)
    as (status & detail & E & S & _).
  exists status, detail. split; [exact E|exact S].
Defined.

Lemma points_fields (df : list ScoredRow) (pts : list PredictionPoint) :
  mapM (fun r => mkPredictionPoint (datetime (row r)) (score r) None None) df
  = Ok pts ->
  pts = map (fun r => {| timestamp := datetime (row r);
                         cleanliness_score := score r;
                         confidence := None;
                         carbon_intensity := None |}) df.
Proof.
  intro H. apply mapM_Ok in H.
  induction H as [|r p df pts Hp _ IH]; [reflexivity|].
  apply mkPredictionPoint_Ok in Hp. destruct Hp as (_ & ->).
  simpl. f_equal. exact IH.
Qed.

Lemma recommend_predictions (Impact : Type)
    (calculate_impact : float -> float -> nat -> Impact)
    (location : string) (df : list ScoredRow) (d : nat) (r : Response Impact) :
  recommend Impact calculate_impact location df d = Ok r ->
  mapM (fun x => mkPredictionPoint (datetime (row x)) (score x) None None) df
  = Ok (predictions r) /\
  PredictionServiceOld.location r = location /\
  model_version r = MODEL_VERSION /\
  data_freshness r = "live"%string.
Proof.
  unfold recommend. intro H.
  apply bind_Ok in H. destruct H as ((k & best_avg) & Hw & H).
  apply bind_Ok in H. destruct H as (avg_score & Havg & H).
  apply bind_Ok in H. destruct H as (pts & Hpts & H).
  apply bind_Ok in H. destruct H as (first & Hfirst & H).
  apply bind_Ok in H. destruct H as (last & Hlast & H).
  injection H as <-.
  cbn [predictions PredictionServiceOld.location model_version data_freshness].
  auto.
Qed.

(** X7.  The predictions of a response are the rows left by the day filter,
    one point per row and in the same order: each point carries the time
    of its row and the score the row got when the whole fetched batch was
    normalised (the scores are not normalised again within the day), with
    no confidence and no carbon intensity; the response repeats the
    location and is tagged ["weather_time_v1"] and ["live"]. *)
Theorem response_mirrors_filtered_frame
    (to_datetime_date : string -> option Z) (weather_df : list Row)
    (location : string) (hours_ahead : Z) (day : option string) (d : nat)
    (df : list ScoredRow) (r : Response V3.Impact) :
  filter_day to_datetime_date day (add_cleanliness_score weather_df) = Ok df ->
  V3.generate_predictions to_datetime_date weather_df location hours_ahead
    day d = Ok r ->
  predictions r
  = map (fun x => {| timestamp := datetime (row x);
                     cleanliness_score := score x;
                     confidence := None;
                     carbon_intensity := None |}) df /\
  (forall p, In p (predictions r) ->
     In (cleanliness_score p) (normalize (map predicted_score weather_df))) /\
  (day = None ->
   map timestamp (predictions r) = map datetime weather_df /\
   map cleanliness_score (predictions r)
   = normalize (map predicted_score weather_df)) /\
  PredictionServiceOld.location r = location /\
  model_version r = "weather_time_v1"%string /\
  data_freshness r = "live"%string.
Proof.
  intros Hf Hr.
  apply generate_predictions_Ok in Hr. destruct Hr as (df' & Hf' & Hr).
  rewrite Hf in Hf'. injection Hf' as <-.
  apply recommend_predictions in Hr. destruct Hr as (Hp & Hl & Hm & Hd).
  apply points_fields in Hp.
  split; [exact Hp|]. split; [|split; [|auto]].
  - intros p Hin. rewrite Hp in Hin. apply in_map_iff in Hin.
    destruct Hin as (x & <- & Hx). cbn [cleanliness_score].
    apply (filter_day_incl _ _ _ _ Hf) in Hx.
    rewrite <- scores_of_frame. apply in_map, Hx.
  - intros ->. cbn [filter_day] in Hf. injection Hf as <-.
    rewrite Hp, !map_map. cbn [timestamp cleanliness_score]. split.
    + rewrite <- (rows_of_frame weather_df) at 2. rewrite map_map. reflexivity.
    + rewrite <- scores_of_frame. reflexivity.
Qed.

Lemma response_mirrors_filtered_frame_witness :
  exists r,
    V3.generate_predictions (fun _ => Some 0%Z) (frame 22 [1; 3; 2]) "Paris" 24
      (Some "1970-01-01"%string) 1 = Ok r /\
    map timestamp (predictions r) = [22; 23]%Z.
Proof.
  destruct (response_mirrors_filtered_frame (fun _ => Some 0%Z)
              (frame 22 [1; 3; 2]) "Paris" 24 (Some "1970-01-01"%string) 1
              _ _ eq_refl eq_refl) as (E & _).
  match type of E with predictions ?r = _ => exists r end.
  split; [reflexivity|]. rewrite E. reflexivity.
Defined.


(** ** The window loop on arbitrary floats *)

Lemma flt_trans (a b c : float) :
  flt a b = true -> flt b c = true -> flt a c = true.
Proof.
  destruct a as [x| | |], b as [y| | |], c as [z| | |]; simpl;
    try discriminate; try reflexivity.
  intros H1 H2. qcmp. apply Qltb_lt. lra.
Qed.

Lemma window_loop_any (scores : list float) (d : nat) :
  d <> 0%nat ->
  forall idx k0 b0,
  exists k b,
    window_loop scores d idx (k0, b0) = Ok (k, b) /\
    ((k = k0 /\ b = b0 /\
      forall j, In j idx -> fgt (fmean scores d j) b0 = false) \/
     (In k idx /\ b = fmean scores d k /\ fgt b b0 = true)).
Proof.
  intro Hd. induction idx as [|i idx IH]; intros k0 b0.
  - exists k0, b0. split; [reflexivity|]. left. simpl. tauto.
  - cbn [window_loop]. unfold py_truediv.
    destruct (Z.eqb_spec (Z.of_nat d) 0) as [E|_]; [lia|]. cbn [bind snd].
    change (fdiv (py_sum (slice scores i (i + d))) (of_int (Z.of_nat d)))
      with (fmean scores d i).
    destruct (fgt (fmean scores d i) b0) eqn:C.
    + destruct (IH i (fmean scores d i))
        as (k & b & R & [(-> & -> & A)|(Hin & -> & G)]).
      * exists i, (fmean scores d i). split; [exact R|]. right.
        split; [now left|]. split; [reflexivity|exact C].
      * exists k, (fmean scores d k). split; [exact R|]. right.
        split; [now right|]. split; [reflexivity|].
        unfold fgt in *. eapply flt_trans; eassumption.
    + destruct (IH k0 b0) as (k & b & R & [(-> & -> & A)|(Hin & -> & G)]).
      * exists k0, b0. split; [exact R|]. left. repeat split.
        intros j [<-|Hj]; auto.
      * exists k, (fmean scores d k). split; [exact R|]. right.
        split; [now right|]. split; [reflexivity|exact G].
Qed.

(** X8.  Whatever the scores are ([nan] included), for a duration of at
    least one hour the selection raises nothing and returns either the
    initial pair (index 0 and mean [-1]), when no window has a mean above
    [-1], or the index of a window that fits in the sequence together with
    the mean of that window, which is above [-1]; for a duration of zero it
    raises [ZeroDivisionError]. *)
Theorem best_window_any_scores (scores : list float) (d : nat) :
  (d = 0%nat -> best_window scores d = Raise ZeroDivisionError) /\
  (d <> 0%nat ->
   exists k avg,
     best_window scores d = Ok (k, avg) /\
     ((k = 0%nat /\ avg = Fin (-1) /\
       forall j, (j + d <= List.length scores)%nat ->
                 fgt (fmean scores d j) (Fin (-1)) = false) \/
      ((k + d <= List.length scores)%nat /\
       avg = fmean scores d k /\ fgt avg (Fin (-1)) = true))).
Proof.
  split.
  - intros ->. apply best_window_zero.
  - intro Hd. unfold best_window, range.
    destruct (window_loop_any scores d Hd
                (seq 0 (List.length scores + 1 - d)) 0%nat (Fin (-1)))
      as (k & b & R & [(-> & -> & A)|(Hin & -> & G)]).
    + exists 0%nat, (Fin (-1)). split; [exact R|]. left.
      repeat split. intros j Hj. apply A, in_seq. lia.
    + exists k, (fmean scores d k). split; [exact R|]. right.
      apply in_seq in Hin. split; [lia|]. split; [reflexivity|exact G].
Qed.

Lemma best_window_any_scores_witness :
  best_window [NaN; NaN; NaN] 0 = Raise ZeroDivisionError /\
  exists k avg, best_window [NaN; NaN; NaN] 2 = Ok (k, avg).
Proof.
  destruct (best_window_any_scores [NaN; NaN; NaN] 0) as (Z0 & _).
  destruct (best_window_any_scores [NaN; NaN; NaN] 2) as (_ & P).
  split; [apply Z0; reflexivity|].
  destruct P as (k & avg & R & _); [discriminate|].
  exists k, avg. exact R.
Defined.


(** ** [min] and [max] with a key *)

Lemma fold_first_least {A : Type} (m : A -> Q) (test : A -> A -> bool)
    (L : list A) :
  (forall x b, In x L -> In b L -> (test x b = true <-> m x < m b)) ->
  forall l' P a ka,
    L = P ++ l' -> first_least m P ka a ->
    exists k x,
      fold_left (fun best x => if test x best then x else best) l' a = x /\
      first_least m L k x.
Proof.
  intro Ht. induction l' as [|x' l' IH]; intros P a ka EL (Ha & Hall).
  - rewrite app_nil_r in EL. subst L. exists ka, a.
    split; [reflexivity|]. split; assumption.
  - assert (EL' : L = (P ++ [x']) ++ l')
      by (rewrite <- app_assoc; exact EL).
    assert (Ia : In a L).
    { rewrite EL. apply in_or_app. left. eapply nth_error_In, Ha. }
    assert (Ix : In x' L).
    { rewrite EL. apply in_or_app. right. now left. }
    assert (Hka : (ka < List.length P)%nat)
      by (apply nth_error_Some; congruence).
    assert (Hnth : forall j y, nth_error (P ++ [x']) j = Some y ->
              ((j < List.length P)%nat /\ nth_error P j = Some y) \/
              (j = List.length P /\ y = x')).
    { intros j y Hj. destruct (Nat.lt_ge_cases j (List.length P)) as [Hl|Hg].
      - left. split; [exact Hl|]. rewrite nth_error_app1 in Hj; assumption.
      - right. rewrite nth_error_app2 in Hj by exact Hg.
        destruct (j - List.length P)%nat as [|n] eqn:En.
        + simpl in Hj. injection Hj as <-. split; [lia|reflexivity].
        + destruct n; discriminate. }
    cbn [fold_left]. destruct (test x' a) eqn:T.
    + apply (Ht x' a Ix Ia) in T.
      apply (IH (P ++ [x']) x' (List.length P) EL'). split.
      * rewrite nth_error_app2, Nat.sub_diag by lia. reflexivity.
      * intros j y Hj. destruct (Hnth j y Hj) as [(Hl & Hy)|(-> & ->)].
        -- destruct (Hall j y Hy) as (Ly & _). split; intros; lra.
        -- split; [apply Qle_refl|lia].
    + assert (Ge : m a <= m x').
      { destruct (Qlt_le_dec (m x') (m a)) as [Lt|Ge]; [|exact Ge].
        apply (Ht x' a Ix Ia) in Lt. congruence. }
      apply (IH (P ++ [x']) a ka EL'). split.
      * rewrite nth_error_app1 by exact Hka. exact Ha.
      * intros j y Hj. destruct (Hnth j y Hj) as [(Hl & Hy)|(-> & ->)].
        -- apply (Hall j y Hy).
        -- split; [exact Ge|lia].
Qed.

Lemma first_least_singleton {A : Type} (m : A -> Q) (a : A) :
  first_least m [a] 0 a.
Proof.
  split; [reflexivity|]. intros j y Hj.
  destruct j as [|j]; [|destruct j; discriminate].
  injection Hj as <-. split; [apply Qle_refl|lia].
Qed.

Lemma min_by_first {A : Type} (key : A -> float) (kq : A -> Q) (l : list A) :
  l <> [] -> (forall x, In x l -> key x = Fin (kq x)) ->
  exists k x, min_by key l = Ok x /\ first_least kq l k x.
Proof.
  intros Hne Hk. destruct l as [|a l']; [congruence|]. unfold min_by.
  destruct (fold_first_least kq (fun x best => flt (key x) (key best))
              (a :: l')) with (l' := l') (P := [a]) (a := a) (ka := 0%nat)
    as (k & x & E & F).
  - intros x b Hx Hb. rewrite (Hk x Hx), (Hk b Hb). apply Qltb_lt.
  - reflexivity.
  - apply first_least_singleton.
  - exists k, x. split; [f_equal; exact E|exact F].
Qed.

Lemma max_by_first {A : Type} (key : A -> float) (kq : A -> Q) (l : list A) :
  l <> [] -> (forall x, In x l -> key x = Fin (kq x)) ->
  exists k x, max_by key l = Ok x /\ first_least (fun y => - kq y) l k x.
Proof.
  intros Hne Hk. destruct l as [|a l']; [congruence|]. unfold max_by.
  destruct (fold_first_least (fun y => - kq y)
              (fun x best => fgt (key x) (key best))
              (a :: l')) with (l' := l') (P := [a]) (a := a) (ka := 0%nat)
    as (k & x & E & F).
  - intros x b Hx Hb. rewrite (Hk x Hx), (Hk b Hb). unfold fgt, flt.
    rewrite Qltb_lt. split; intro; lra.
  - reflexivity.
  - apply first_least_singleton.
  - exists k, x. split; [f_equal; exact E|exact F].
Qed.

(** ** The first version of the pipeline *)

Lemma valid_scores_spread (raw : list Q) :
  raw <> [] -> Forall (fun s => score_ok s = true) (normalize raw) ->
  exists mn mx,
    series_min raw = Fin mn /\ series_max raw = Fin mx /\
    is_min raw mn /\ is_max raw mx /\ mn < mx.
Proof.
  intros NE Hok.
  destruct (series_min_is_min raw NE) as (mn & Smin & Hmin).
  destruct (series_max_is_max raw NE) as (mx & Smax & Hmax).
  exists mn, mx. repeat (split; [assumption|]).
  pose proof (spread_bounds raw mn mx Hmin Hmax) as B.
  destruct (Qlt_le_dec mn mx) as [L|G]; [exact L|]. exfalso.
  assert (Hc : forall x, In x raw -> x == mn).
  { intros x Hx. pose proof (proj2 Hmin x Hx). pose proof (proj2 Hmax x Hx).
    lra. }
  pose proof (normalize_constant raw mn NE Hc) as Hn.
  pose proof (normalize_length raw) as L.
  destruct raw as [|r0 raw']; [congruence|].
  destruct (normalize (r0 :: raw')) as [|s l]; [discriminate|].
  inversion Hok; subst. inversion Hn; subst. discriminate.
Qed.

Lemma normalize_has_100 (raw : list Q) :
  raw <> [] -> Forall (fun s => score_ok s = true) (normalize raw) ->
  exists s, In (Fin s) (normalize raw) /\ s == 100.
Proof.
  intros NE Hok.
  destruct (valid_scores_spread raw NE Hok)
    as (mn & mx & Smin & Smax & Hmin & Hmax & Hlt).
  destruct Hmax as ((x & Hx & Ex) & _).
  rewrite (normalize_closed raw mn mx Smin Smax) by lra.
  exists (Qround_digits 1 ((x - mn) / (mx - mn) * 100)). split.
  - apply (in_map (fun x => Fin (Qround_digits 1 ((x - mn) / (mx - mn) * 100)))),
      Hx.
  - apply (Qround_digits_Z 1 100). rewrite Ex. field. lra.
Qed.

Lemma first_version_Ok (weather_df : list Row) (location : string)
    (hours_ahead : Z) (r : PredictionServiceFirst.Response) :
  PredictionServiceFirst.generate_predictions weather_df location hours_ahead
  = Ok r ->
  exists p,
    mapM (fun x => mkPredictionPoint (datetime (row x)) (score x) None None)
         (add_cleanliness_score weather_df)
    = Ok (PredictionServiceFirst.predictions r) /\
    max_by cleanliness_score (PredictionServiceFirst.predictions r) = Ok p /\
    PredictionServiceFirst.best_clean_energy_hour r
    = {| PredictionServiceFirst.bh_timestamp := timestamp p;
         PredictionServiceFirst.bh_cleanliness_score := cleanliness_score p;
         PredictionServiceFirst.bh_confidence := confidence p |}.
Proof.
  unfold PredictionServiceFirst.generate_predictions. intro H.
  apply (proj1 (reraise_Ok _ _)) in H.
  apply bind_Ok in H. destruct H as (pts & Hpts & H).
  apply bind_Ok in H. destruct H as (p & Hp & H).
  injection H as <-. exists p.
  cbn [PredictionServiceFirst.predictions
       PredictionServiceFirst.best_clean_energy_hour]. auto.
Qed.

Lemma points_keys (pts : list PredictionPoint) :
  Forall (fun s => score_ok s = true) (map cleanliness_score pts) ->
  forall p, In p pts ->
    cleanliness_score p = Fin (to_Q (cleanliness_score p)) /\
    0 <= to_Q (cleanliness_score p) <= 100.
Proof.
  intros Hok p Hp. rewrite Forall_forall in Hok.
  specialize (Hok (cleanliness_score p) (in_map _ _ _ Hp)).
  apply score_ok_Fin in Hok. destruct Hok as (q & E & Hq).
  rewrite E. cbn [to_Q]. auto.
Qed.

(** X9.  First version: in a response the predictions are the rows of the
    frame with their normalised scores, in order, and the best hour is the
    first point whose score is the greatest; that score is [100], and every
    earlier point has a smaller score. *)
Theorem first_version_best_hour (weather_df : list Row) (location : string)
    (hours_ahead : Z) (r : PredictionServiceFirst.Response) :
  PredictionServiceFirst.generate_predictions weather_df location hours_ahead
  = Ok r ->
  let pts := PredictionServiceFirst.predictions r in
  let best := PredictionServiceFirst.best_clean_energy_hour r in
  map timestamp pts = map datetime weather_df /\
  map cleanliness_score pts = normalize (map predicted_score weather_df) /\
  feq (PredictionServiceFirst.bh_cleanliness_score best) (Fin 100) /\
  PredictionServiceFirst.bh_confidence best = None /\
  exists k p,
    nth_error pts k = Some p /\
    PredictionServiceFirst.bh_timestamp best = timestamp p /\
    PredictionServiceFirst.bh_cleanliness_score best = cleanliness_score p /\
    forall j q, nth_error pts j = Some q ->
      fle (cleanliness_score q) (cleanliness_score p) = true /\
      ((j < k)%nat -> flt (cleanliness_score q) (cleanliness_score p) = true).
Proof.
  intros H pts best.
  apply first_version_Ok in H. destruct H as (p & Hpts & Hmax & Hbest).
  fold pts in Hpts, Hmax. fold best in Hbest.
  pose proof (points_Ok _ _ Hpts) as (Hok & Hts & Hsc).
  pose proof (points_fields _ _ Hpts) as Hf.
  rewrite scores_of_frame in Hok, Hsc.
  assert (Hts' : map timestamp pts = map datetime weather_df).
  { rewrite Hts. rewrite <- (rows_of_frame weather_df) at 2.
    rewrite map_map. reflexivity. }
  assert (Pne : pts <> []).
  { intro E. rewrite E in Hmax. discriminate. }
  assert (Hok' : Forall (fun s => score_ok s = true) (map cleanliness_score pts))
    by (rewrite Hsc; exact Hok).
  destruct (max_by_first cleanliness_score
              (fun q => to_Q (cleanliness_score q)) pts Pne)
    as (k & p' & Hm & Hk & Hall).
  { intros x Hx. apply (points_keys pts Hok' x Hx). }
  rewrite Hmax in Hm. injection Hm as <-.
  assert (Ip : In p pts) by (eapply nth_error_In, Hk).
  destruct (points_keys pts Hok' p Ip) as (Ep & Bp).
  split; [exact Hts'|]. split; [exact Hsc|].
  assert (Rne : map predicted_score weather_df <> []).
  { intro E. apply Pne. apply map_eq_nil in E. subst weather_df.
    apply map_eq_nil with (f := timestamp). exact Hts'. }
  split; [|split].
  - rewrite Hbest. cbn [PredictionServiceFirst.bh_cleanliness_score].
    rewrite Ep. cbn [feq].
    destruct (normalize_has_100 _ Rne Hok) as (s & Hs & Es).
    rewrite <- Hsc in Hs. apply in_map_iff in Hs. destruct Hs as (q & Eq & Hq).
    apply In_nth_error in Hq. destruct Hq as (j & Hj).
    destruct (Hall j q Hj) as (Lq & _). rewrite Eq in Lq. cbn [to_Q] in Lq.
    lra.
  - rewrite Hbest. cbn [PredictionServiceFirst.bh_confidence].
    rewrite Hf in Ip. apply in_map_iff in Ip. destruct Ip as (x & <- & _).
    reflexivity.
  - exists k, p. split; [exact Hk|]. rewrite Hbest.
    split; [reflexivity|]. split; [reflexivity|].
    intros j q Hj. destruct (Hall j q Hj) as (Lq & Sq).
    assert (Iq : In q pts) by (eapply nth_error_In, Hj).
    destruct (points_keys pts Hok' q Iq) as (Eq & _).
    rewrite Ep, Eq. cbn [fle flt]. split.
    + apply Qle_bool_iff. lra.
    + intro Hlt. apply Qltb_lt. specialize (Sq Hlt). lra.
Qed.

Lemma first_version_best_hour_witness :
  exists r,
    PredictionServiceFirst.generate_predictions (frame 0 [1; 5; 5; 2])
      "Paris" 24 = Ok r /\
    feq (PredictionServiceFirst.bh_cleanliness_score
           (PredictionServiceFirst.best_clean_energy_hour r)) (Fin 100).
Proof.
  destruct (PredictionServiceFirst.generate_predictions (frame 0 [1; 5; 5; 2])
              "Paris" 24) as [r|e] eqn:E; [|vm_compute in E; discriminate].
  exists r. split; [reflexivity|].
  apply (first_version_best_hour (frame 0 [1; 5; 5; 2]) "Paris" 24 r E).
Defined.

Lemma Qround_digits_idem (n : nat) (v : Q) :
  Qround_digits n (Qround_digits n v) = Qround_digits n v.
Proof.
  unfold Qround_digits at 1 3. f_equal.
  apply round_half_even_Z.
  unfold Qround_digits, Qeq, Qmult, inject_Z. cbn [Qnum Qden]. lia.
Qed.

Lemma normalized_scores_rounded (raw : list Q) (s : float) :
  Forall (fun s => score_ok s = true) (normalize raw) ->
  In s (normalize raw) -> round s 1 = s.
Proof.
  intros Hok Hs.
  assert (NE : raw <> []) by (intros ->; exact Hs).
  destruct (valid_scores_spread raw NE Hok)
    as (mn & mx & Smin & Smax & _ & _ & Hlt).
  rewrite (normalize_closed raw mn mx Smin Smax) in Hs by lra.
  apply in_map_iff in Hs. destruct Hs as (x & <- & _).
  cbn [round]. f_equal. apply Qround_digits_idem.
Qed.

Lemma Qmean_window_one (qs : list Q) (j : nat) (y : Q) :
  nth_error qs j = Some y -> Qmean (window qs j 1) == y.
Proof. intro H. rewrite (window_one qs j y H). apply Qmean_one. Qed.

(** X10.  The best hour of the first version and the one-hour window of
    the later versions are the same thing: on the same frame, without a day
    filter, one is answered exactly when the other is, and then the two
    responses carry the same predictions, the window starts and ends at
    the time of the best hour, and its average is the score of the best
    hour. *)
Theorem first_version_agrees_with_window
    (to_datetime_date : string -> option Z) (weather_df : list Row)
    (location : string) (hours_ahead : Z) :
  let first := PredictionServiceFirst.generate_predictions weather_df location
                 hours_ahead in
  let later := V3.generate_predictions to_datetime_date weather_df location
                 hours_ahead None 1 in
  ((exists r1, first = Ok r1) <-> (exists r3, later = Ok r3)) /\
  forall r1 r3, first = Ok r1 -> later = Ok r3 ->
    let best := PredictionServiceFirst.best_clean_energy_hour r1 in
    PredictionServiceFirst.predictions r1 = predictions r3 /\
    start (recommended_window r3) = PredictionServiceFirst.bh_timestamp best /\
    end_ (recommended_window r3) = PredictionServiceFirst.bh_timestamp best /\
    average_cleanliness_score (recommended_window r3)
    = PredictionServiceFirst.bh_cleanliness_score best.
Proof.
  intros first later. split; [split|].
  - intros (r1 & H1). unfold first in H1.
    apply first_version_Ok in H1. destruct H1 as (p & Hpts & Hmax & _).
    pose proof (points_Ok _ _ Hpts) as (Hok & Hts & _).
    assert (Dne : add_cleanliness_score weather_df <> []).
    { intro E. rewrite E in Hts. apply map_eq_nil in Hts.
      rewrite Hts in Hmax. discriminate. }
    destruct (recommend_total V3.Impact V3.calculate_impact location _ 1
                Dne Hok) as (r & Hr); [discriminate|].
    exists r. unfold later, V3.generate_predictions,
      PredictionServiceOld.generate_predictions.
    cbn [filter_day bind]. rewrite Hr. reflexivity.
  - intros (r3 & H3). unfold later in H3.
    apply generate_predictions_Ok in H3. destruct H3 as (df & Hf & Hr).
    cbn [filter_day] in Hf. injection Hf as <-.
    apply recommend_Ok in Hr.
    destruct Hr as (_ & _ & _ & _ & _ & _ & Hne & Hok & _).
    destruct (points_valid _ Hok) as (pts & Hpts & Lpts).
    assert (Pne : pts <> []).
    { intros ->. destruct (add_cleanliness_score weather_df);
        [congruence|discriminate]. }
    unfold first, PredictionServiceFirst.generate_predictions.
    rewrite Hpts. cbn [bind].
    destruct pts as [|a pts']; [congruence|]. cbn [max_by bind].
    eexists. reflexivity.
  - intros r1 r3 H1 H3 best. unfold first in H1. unfold later in H3.
    apply first_version_Ok in H1. destruct H1 as (p & Hpts & Hmax & Hbest).
    fold best in Hbest.
    apply generate_predictions_Ok in H3. destruct H3 as (df & Hf & Hr).
    cbn [filter_day] in Hf. injection Hf as <-.
    set (df := add_cleanliness_score weather_df) in *.
    pose proof (recommend_predictions _ _ _ _ _ _ Hr) as (Hp3 & _).
    apply recommend_Ok in Hr.
    destruct Hr as (k & best_avg & fst_row & lst_row & Hw & _ & Hne & Hok & _
                    & _ & Nfirst & Nlast & Hs & He & Ha).
    assert (Epts : PredictionServiceFirst.predictions r1 = predictions r3)
      by congruence.
    split; [exact Epts|].
    set (pts := PredictionServiceFirst.predictions r1) in *.
    pose proof (points_fields _ _ Hpts) as Hfields.
    pose proof (points_Ok _ _ Hpts) as (_ & _ & Hsc).
    assert (Hok' : Forall (fun s => score_ok s = true)
                     (map cleanliness_score pts))
      by (rewrite Hsc; exact Hok).
    assert (Pne : pts <> []) by (intro E; rewrite E in Hmax; discriminate).
    destruct (max_by_first cleanliness_score
                (fun q => to_Q (cleanliness_score q)) pts Pne)
      as (k1 & p' & Hm & Hk1 & Hall).
    { intros x Hx. apply (points_keys pts Hok' x Hx). }
    rewrite Hmax in Hm. injection Hm as <-.
    destruct (best_window_valid (map score df) 1 Hok)
      as (k' & avg & R & Hk & Mk & Mle & Mlt).
    { rewrite length_map. destruct df; [congruence|simpl; lia]. }
    rewrite Hw in R. injection R as <- ->.
    rewrite length_map in Hk, Mle.
    set (qs := map to_Q (map score df)) in *.
    assert (Hq : forall j q, nth_error pts j = Some q ->
              nth_error qs j = Some (to_Q (cleanliness_score q)) /\
              exists x, nth_error df j = Some x /\
                        timestamp q = datetime (row x) /\
                        cleanliness_score q = score x).
    { intros j q Hj. rewrite Hfields, nth_error_map in Hj.
      destruct (nth_error df j) as [x|] eqn:Ex; [|discriminate].
      injection Hj as <-. cbn [cleanliness_score timestamp]. split.
      - unfold qs. rewrite !nth_error_map, Ex. reflexivity.
      - exists x. auto. }
    destruct (Hq k1 p Hk1) as (Qk1 & xk1 & Dk1 & Tk1 & Sk1).
    assert (Lk1 : (k1 + 1 <= List.length df)%nat).
    { assert (k1 < List.length df)%nat by (apply nth_error_Some; congruence).
      lia. }
    rewrite (window_length df k 1 Hk) in Nlast.
    rewrite nth_error_window in Nfirst, Nlast by lia.
    replace (k + (1 - 1))%nat with (k + 0)%nat in Nlast by lia.
    rewrite Nfirst in Nlast. injection Nlast as <-.
    rewrite Nat.add_0_r in Nfirst.
    assert (Hpk : exists pk, nth_error pts k = Some pk).
    { rewrite Hfields, nth_error_map, Nfirst. eexists. reflexivity. }
    destruct Hpk as (pk & Hpk).
    destruct (Hq k pk Hpk) as (Qk & xk & Dk & Tk & Sk).
    assert (Ek : k1 = k).
    { destruct (Nat.lt_trichotomy k1 k) as [Hlt|[Heq|Hgt]]; [|exact Heq|].
      - exfalso. pose proof (Mlt k1 Hlt) as L.
        rewrite (Qmean_window_one qs k1 _ Qk1) in L.
        rewrite Mk, (Qmean_window_one qs k _ Qk) in L.
        destruct (Hall k pk Hpk) as (G & _). lra.
      - exfalso. pose proof (Mle k1 Lk1) as L.
        rewrite (Qmean_window_one qs k1 _ Qk1) in L.
        rewrite Mk, (Qmean_window_one qs k _ Qk) in L.
        destruct (Hall k pk Hpk) as (_ & G). specialize (G Hgt). lra. }
    subst k1. rewrite Hk1 in Hpk. injection Hpk as <-.
    rewrite Dk1 in Nfirst. injection Nfirst as <-.
    rewrite Hbest. cbn [PredictionServiceFirst.bh_timestamp
                        PredictionServiceFirst.bh_cleanliness_score].
    split; [rewrite Hs, Tk1; reflexivity|].
    split; [rewrite He, Tk1; reflexivity|].
    rewrite Ha.
    assert (Ip : In p pts) by (eapply nth_error_In, Hk1).
    destruct (points_keys pts Hok' p Ip) as (Ep & _).
    assert (Er : round (cleanliness_score p) 1 = cleanliness_score p).
    { apply (normalized_scores_rounded (map predicted_score weather_df)).
      - rewrite <- scores_of_frame. exact Hok.
      - rewrite <- scores_of_frame. fold df. rewrite <- Hsc.
        apply in_map, Ip. }
    rewrite <- Er. rewrite Ep at 1. cbn [round]. f_equal.
    apply Qround_digits_comp.
    rewrite Mk, (Qmean_window_one qs k _ Qk1). reflexivity.
Qed.

(** ** How large the impact can get *)

Lemma co2_formula_upper (a b : Q) (d : nat) :
  0 <= a -> b <= 100 ->
  co2_formula a b d <= 10 * inject_Z (Z.of_nat d).
Proof.
  intros Ha Hb. unfold co2_formula.
  apply Qmult_le_compat_r; [|unfold Qle, inject_Z; simpl; lia].
  apply Q.max_lub; [discriminate|].
  apply Qle_shift_div_r; [reflexivity|]. lra.
Qed.

Lemma trees_of_impact (a b : Q) (d : nat) :
  V3.calculate_impact (Fin a) (Fin b) d
  = {| V3.trees_planted_equiv :=
         Fin (Qround_digits 2 (co2_formula a b d / (2177 # 100)));
       V3.tree_message :=
         V3.format_tree_message
           (Fin (Qround_digits 2 (co2_formula a b d / (2177 # 100)))) |}.
Proof.
  destruct (co2_saved_Fin a b d) as (c & Hc & Ec).
  unfold V3.calculate_impact. rewrite Hc. cbv [fdiv round].
  assert (Qeq_bool (2177 # 100) 0 = false) as -> by reflexivity.
  rewrite (Qround_digits_comp 2 (c / (2177 # 100))
             (co2_formula a b d / (2177 # 100)))
    by (rewrite Ec; reflexivity).
  reflexivity.
Qed.

(** For an overall average that is not negative and a best average of at
    most [100], the trees reported for [d] hours are between [0] and
    [10 d / 21.77] rounded to two decimals. *)
Lemma impact_bounds (a b : Q) (d : nat) :
  0 <= a -> b <= 100 ->
  let r := V3.calculate_impact (Fin a) (Fin b) d in
  exists t,
    V3.trees_planted_equiv r = Fin t /\
    0 <= t <= Qround_digits 2 (10 * inject_Z (Z.of_nat d) / (2177 # 100)) /\
    ((d <= 1)%nat -> tier (V3.tree_message r) = Some 0%nat) /\
    ((d <= 21)%nat ->
     exists k, tier (V3.tree_message r) = Some k /\ (k <= 4)%nat).
Proof.
  intros Ha Hb r. unfold r. rewrite trees_of_impact.
  cbn [V3.trees_planted_equiv V3.tree_message].
  set (co2 := co2_formula a b d).
  pose proof (co2_formula_nonneg a b d) as Hpos. fold co2 in Hpos.
  pose proof (co2_formula_upper a b d Ha Hb) as Hup. fold co2 in Hup.
  set (D := inject_Z (Z.of_nat d)) in *.
  assert (Dpos : 0 <= co2 / (2177 # 100))
    by (apply Qle_shift_div_l; [reflexivity|lra]).
  assert (Dup : co2 / (2177 # 100) <= 10 * D / (2177 # 100)).
  { unfold Qdiv. apply Qmult_le_compat_r; [exact Hup|discriminate]. }
  exists (Qround_digits 2 (co2 / (2177 # 100))).
  split; [reflexivity|]. split; [split|split].
  - apply (Qround_digits_lower 2 0), Dpos.
  - apply Qround_digits_mono, Dup.
  - intro Hd.
    assert (HD : D <= 1).
    { unfold D, Qle, inject_Z. simpl. lia. }
    clearbody D co2.
    assert (T : Qround_digits 2 (co2 / (2177 # 100)) <= 46 # 100).
    { apply (Qround_digits_upper_dec 2 46).
      eapply Qle_trans; [exact Dup|].
      apply Qle_shift_div_r; [reflexivity|].
      change (pow10 2) with 100%positive. lra. }
    rewrite tier_Fin.
    destruct (Qltb _ (5 # 10)) eqn:C; [reflexivity|]. qcmp. exfalso. lra.
  - intro Hd.
    assert (HD : D <= 21).
    { unfold D, Qle, inject_Z. simpl. lia. }
    clearbody D co2.
    assert (T : Qround_digits 2 (co2 / (2177 # 100)) <= 999 # 100).
    { apply (Qround_digits_upper_dec 2 999).
      eapply Qle_trans; [exact Dup|].
      apply Qle_shift_div_r; [reflexivity|].
      change (pow10 2) with 100%positive. lra. }
    rewrite tier_Fin.
    repeat (match goal with
            | |- context [if Qltb ?x ?y then _ else _] =>
                destruct (Qltb x y) eqn:?
            end);
      try (eexists; split; [reflexivity|lia]).
    qcmp. exfalso. lra.
Qed.

Lemma fold_left_Qplus_upper (l : list Q) (u : Q) :
  (forall x, In x l -> x <= u) ->
  Qsum l <= u * inject_Z (Z.of_nat (List.length l)).
Proof.
  induction l as [|x l IH]; intro H.
  - cbn [Qsum fold_right List.length Z.of_nat]. unfold inject_Z. lra.
  - assert (x <= u) by (apply H; now left).
    assert (Qsum l <= u * inject_Z (Z.of_nat (List.length l)))
      by (apply IH; intros; apply H; now right).
    cbn [Qsum fold_right List.length]. fold (Qsum l).
    rewrite Nat2Z.inj_succ. unfold Z.succ. rewrite inject_Z_plus.
    change (inject_Z 1) with 1. lra.
Qed.

Lemma wavg_upper (qs : list Q) (d i : nat) (u : Q) :
  d <> 0%nat -> (i + d <= List.length qs)%nat ->
  (forall x, In x qs -> x <= u) -> wavg qs d i <= u.
Proof.
  intros Hd Hi H. unfold wavg.
  apply Qle_shift_div_r; [apply inject_nat_pos, Hd|].
  rewrite fold_left_Qplus.
  pose proof (fold_left_Qplus_upper (window qs i d) u) as B.
  rewrite (window_length qs i d Hi) in B.
  assert (Qsum (window qs i d) <= u * inject_Z (Z.of_nat d)).
  { apply B. intros x Hx. apply H. eapply In_slice, Hx. }
  lra.
Qed.

Lemma recommend_impact (Impact : Type)
    (calculate_impact : float -> float -> nat -> Impact)
    (location : string) (df : list ScoredRow) (d : nat) (r : Response Impact) :
  recommend Impact calculate_impact location df d = Ok r ->
  exists k best_avg avg_score,
    best_window (map score df) d = Ok (k, best_avg) /\
    py_truediv (py_sum (map score df))
               (Z.of_nat (List.length (map score df))) = Ok avg_score /\
    impact (recommended_window r) = calculate_impact avg_score best_avg d.
Proof.
  unfold recommend. intro H.
  apply bind_Ok in H. destruct H as ((k & best_avg) & Hw & H).
  apply bind_Ok in H. destruct H as (avg_score & Havg & H).
  apply bind_Ok in H. destruct H as (pts & Hpts & H).
  apply bind_Ok in H. destruct H as (first & Hfirst & H).
  apply bind_Ok in H. destruct H as (last & Hlast & H).
  injection H as <-. exists k, best_avg, avg_score.
  cbn [recommended_window impact]. auto.
Qed.

(** X11.  In every response for a duration of [d] hours the trees reported
    are between [0] and [10 d / 21.77] rounded to two decimals, and the
    message is the one of that number of trees; so a request for one hour
    (the default) always gets the first message, and the last message
    needs a duration of 22 hours or more. *)
Theorem response_impact_bounded
    (to_datetime_date : string -> option Z) (weather_df : list Row)
    (location : string) (hours_ahead : Z) (day : option string) (d : nat)
    (r : Response V3.Impact) :
  V3.generate_predictions to_datetime_date weather_df location hours_ahead
    day d = Ok r ->
  let i := impact (recommended_window r) in
  exists t,
    V3.trees_planted_equiv i = Fin t /\
    V3.tree_message i = V3.format_tree_message (Fin t) /\
    0 <= t <= Qround_digits 2 (10 * inject_Z (Z.of_nat d) / (2177 # 100)) /\
    (d = 1%nat -> tier (V3.tree_message i) = Some 0%nat) /\
    ((d <= 21)%nat ->
     exists k, tier (V3.tree_message i) = Some k /\ (k <= 4)%nat).
Proof.
  intros Hr i.
  apply generate_predictions_Ok in Hr. destruct Hr as (df & _ & Hr).
  pose proof (recommend_impact _ _ _ _ _ _ Hr)
    as (k & best_avg & avg_score & Hw & Havg & Hi).
  apply recommend_Ok in Hr.
  destruct Hr as (k' & best_avg' & _ & _ & Hw' & Hd & Hne & Hok & _).
  rewrite Hw in Hw'. injection Hw' as <- <-.
  destruct (scores_ok_Fin _ Hok) as (E & Hq).
  set (qs := map to_Q (map score df)) in *.
  assert (Lq : List.length qs = List.length df)
    by (unfold qs; rewrite !length_map; reflexivity).
  (* the overall average *)
  assert (Ha : exists a, avg_score = Fin a /\ 0 <= a).
  { rewrite E, py_sum_Fin in Havg. unfold py_truediv in Havg.
    destruct (Z.eqb_spec (Z.of_nat (List.length (map Fin qs))) 0) as [|N];
      [discriminate|].
    injection Havg as <-. unfold of_int, fdiv.
    rewrite length_map in *.
    assert (P : 0 < inject_Z (Z.of_nat (List.length qs))).
    { apply inject_nat_pos. lia. }
    destruct (Qeq_bool _ 0) eqn:B.
    - apply Qeq_bool_iff in B. lra.
    - eexists. split; [reflexivity|].
      apply Qle_shift_div_l; [exact P|]. rewrite fold_left_Qplus.
      assert (0 <= Qsum qs)
        by (apply Qsum_nonneg; intros x Hx; apply Hq, Hx).
      lra. }
  destruct Ha as (a & -> & Ha).
  (* the best average *)
  assert (Hb : exists b, best_avg = Fin b /\ b <= 100).
  { destruct (Nat.lt_ge_cases (List.length df) d) as [Hs|Hl].
    - rewrite best_window_short in Hw by (rewrite length_map; exact Hs).
      injection Hw as <- <-. exists (-1). split; [reflexivity|discriminate].
    - destruct (best_window_Q qs d) as (k2 & R & Hk2 & _).
      + intros x Hx. apply Hq, Hx.
      + lia.
      + rewrite <- E, Hw in R. injection R as <- ->.
        eexists. split; [reflexivity|].
        apply wavg_upper; [exact Hd|exact Hk2|].
        intros x Hx. apply Hq, Hx. }
  destruct Hb as (b & -> & Hb).
  destruct (impact_bounds a b d Ha Hb) as (t & Ht & Bt & H1 & H21).
  unfold i. rewrite Hi. exists t.
  split; [exact Ht|]. split.
  - rewrite trees_of_impact in Ht |- *.
    cbn [V3.trees_planted_equiv V3.tree_message] in *.
    rewrite Ht. reflexivity.
  - split; [exact Bt|]. split; [|exact H21].
    intros ->. apply H1. lia.
Qed.

Lemma response_impact_bounded_witness :
  exists r,
    V3.generate_predictions (fun _ => None) (frame 0 [1; 9; 3]) "Paris" 24
      None 1 = Ok r /\
    tier (V3.tree_message (impact (recommended_window r))) = Some 0%nat.
Proof.
  destruct (V3.generate_predictions (fun _ => None) (frame 0 [1; 9; 3])
              "Paris" 24 None 1) as [r|e] eqn:E;
    [|vm_compute in E; discriminate].
  exists r. split; [reflexivity|].
  destruct (response_impact_bounded _ _ _ _ _ _ r E) as (t & _ & _ & _ & H & _).
  apply H. reflexivity.
Defined.

(** ** More on the mock service *)

Section MockMore.

Variable np_sin_pi_12 : Z -> Q.
Variable np_random_random : nat -> Q.
Variable np_random_normal : nat -> Q.

Hypothesis uniform : forall n, 0 <= np_random_random n < 1.

(** One point in full: besides the score and the carbon intensity, the
    confidence is a rounded [0.7 + 0.3 u] for a uniform draw [u]. *)
Lemma mock_point_conf (base_time : Z) (i rng : nat) :
  exists p rng',
    mock_point np_sin_pi_12 np_random_random np_random_normal
      base_time i rng = Ok (p, rng') /\
    mock_point_ok base_time i p /\
    exists c, confidence p = Some (Fin c) /\ 7 # 10 <= c <= 1.
Proof.
  unfold mock_point.
  destruct ((6 <=? (base_time + Z.of_nat i) mod 24)%Z
            && ((base_time + Z.of_nat i) mod 24 <=? 18)%Z);
    cbv beta iota zeta delta [fadd fmul fsub fneg round];
    match goal with
    | |- context [py_max (Fin 0) (py_min (Fin 100) (Fin ?v))] =>
        destruct (clamp_Fin v) as (s & -> & Hs)
    end;
    match goal with
    | |- context [Some (Fin (Qround_digits 2 ((7 # 10) + (3 # 10) * ?u)))] =>
        assert (Hu : 7 # 10 <= (7 # 10) + (3 # 10) * u <= 1)
          by (match u with
              | np_random_random ?n => pose proof (uniform n)
              end; lra)
    end;
    (assert (Hci : 200 <= 600 + - (s * 4) <= 600) by lra);
    (rewrite mkPredictionPoint_valid;
     [ | split; [apply (Qround_digits_lower 1 0)
                |apply (Qround_digits_upper 1 100)]; apply Hs
       | split; [apply (Qround_digits_lower 2 0); unfold inject_Z; lra
                |apply (Qround_digits_upper 2 1); apply Hu]
       | apply (Qround_digits_lower 1 0); unfold inject_Z; lra ]);
    cbn [bind]; eexists; eexists; (split; [reflexivity|]);
    (split;
     [ exists s; cbn [timestamp cleanliness_score carbon_intensity];
       (split; [exact Hs|]); (split; [reflexivity|]);
       (split; [reflexivity|]); (split; [reflexivity|]);
       (split; split;
        [ apply (Qround_digits_lower 1 0), Hs
        | apply (Qround_digits_upper 1 100), Hs
        | apply (Qround_digits_lower 1 200), Hci
        | apply (Qround_digits_upper 1 600), Hci ])
     | cbn [confidence]; eexists; (split; [reflexivity|]); split;
       [ apply Qle_trans with (70 # 100); [discriminate|];
         apply (Qround_digits_lower_dec 2 70);
         change (70 # pow10 2) with (70 # 100); lra
       | apply (Qround_digits_upper 2 1), Hu ] ]).
Qed.

Lemma mock_loop_inv (P : nat -> PredictionPoint -> Prop) (base_time : Z) :
  (forall i rng, exists p rng',
     mock_point np_sin_pi_12 np_random_random np_random_normal
       base_time i rng = Ok (p, rng') /\ P i p) ->
  forall idx rng acc,
  exists pts rng',
    mock_loop np_sin_pi_12 np_random_random np_random_normal
      base_time idx rng acc = Ok (acc ++ pts, rng') /\
    Forall2 P idx pts.
Proof.
  intro HP. induction idx as [|i idx IH]; intros rng acc.
  - exists [], rng. rewrite app_nil_r. split; [reflexivity|constructor].
  - cbn [mock_loop].
    destruct (HP i rng) as (p & rng1 & -> & Hp). cbn [bind].
    destruct (IH rng1 (acc ++ [p])) as (pts & rng' & -> & Hpts).
    exists (p :: pts), rng'. rewrite <- app_assoc. split; [reflexivity|].
    constructor; assumption.
Qed.

Lemma mock_predictions_full (base_time : Z) (location : string) (hours : nat) :
  exists pts,
    _generate_mock_predictions np_sin_pi_12 np_random_random
      np_random_normal base_time location hours = Ok pts /\
    List.length pts = hours /\
    forall i p, nth_error pts i = Some p ->
      mock_point_ok base_time i p /\
      exists c, confidence p = Some (Fin c) /\ 7 # 10 <= c <= 1.
Proof.
  unfold _generate_mock_predictions.
  destruct (mock_loop_inv
              (fun i p => mock_point_ok base_time i p /\
                 exists c, confidence p = Some (Fin c) /\ 7 # 10 <= c <= 1)
              base_time (mock_point_conf base_time) (range hours) 0%nat [])
    as (pts & rng' & -> & H).
  exists pts. split; [reflexivity|].
  assert (L : List.length pts = hours).
  { apply Forall2_length in H. unfold range in H.
    rewrite length_seq in H. auto. }
  split; [exact L|].
  intros i p Hp.
  destruct (Forall2_nth_error_r _ _ _ H i p Hp) as (a & Ha & Hok).
  assert (Hi : (i < hours)%nat).
  { assert (i < List.length pts)%nat by (apply nth_error_Some; congruence).
    lia. }
  unfold range in Ha. rewrite nth_error_seq in Ha.
  destruct (Nat.ltb_spec i hours); [|lia].
  injection Ha as <-. exact Hok.
Qed.

End MockMore.

(** X12.  When every uniform draw lies in [[0, 1)], the mock
    [generate_predictions] always answers: the response repeats the
    location, is tagged version ["1.0.0"] and freshness ["< 15 minutes"],
    and holds exactly 24 points, the point at index [i] stamped
    [base_time + i] hours with a confidence between [0.7] and [1]. *)
Theorem mock_service_24_points
    (np_sin_pi_12 : Z -> Q) (np_random_random np_random_normal : nat -> Q)
    (base_time : Z) (location : string) :
  (forall n, 0 <= np_random_random n < 1) ->
  exists resp,
    PredictionService.generate_predictions np_sin_pi_12 np_random_random
      np_random_normal base_time location = Ok resp /\
    pr_location resp = location /\
    pr_model_version resp = Some "1.0.0"%string /\
    pr_data_freshness resp = Some "< 15 minutes"%string /\
    List.length (pr_predictions resp) = 24%nat /\
    forall i p, nth_error (pr_predictions resp) i = Some p ->
      timestamp p = (base_time + Z.of_nat i)%Z /\
      exists c, confidence p = Some (Fin c) /\ 7 # 10 <= c <= 1.
Proof.
  intro uniform.
  destruct (mock_predictions_full np_sin_pi_12 np_random_random
              np_random_normal uniform base_time location 24)
    as (pts & E & L & H).
  unfold PredictionService.generate_predictions. rewrite E. cbn [bind].
  unfold mkPredictionsResponse. rewrite L. cbn [Nat.eqb].
  eexists. split; [reflexivity|].
  cbn [pr_location pr_model_version pr_data_freshness pr_predictions].
  repeat (split; [reflexivity|]). split; [exact L|].
  intros i p Hp. destruct (H i p Hp) as ((s & _ & T & _) & C).
  split; [exact T|exact C].
Qed.

Lemma mock_service_24_points_witness :
  exists resp,
    PredictionService.generate_predictions (fun _ => 1) (fun _ => 1 # 2)
      (fun _ => 30) 12 "Paris" = Ok resp /\
    List.length (pr_predictions resp) = 24%nat.
Proof.
  destruct (mock_service_24_points (fun _ => 1) (fun _ => 1 # 2)
              (fun _ => 30) 12 "Paris") as (resp & H & _ & _ & _ & L & _).
  - intros _. split; [discriminate|reflexivity].
  - exists resp. split; [exact H|exact L].
Defined.


(** ** The impact metrics *)

(** X13.  The impact metrics grow with the CO2 saved: for two amounts
    [q1 <= q2] of at most a million kilograms either way both computations
    succeed and none of the four metrics of the first exceeds that of the
    second; and every amount of at most [0.12] kg (negative amounts
    included) is reported as exactly one tree. *)
Theorem impact_metrics_monotone (q1 q2 : Q) :
  - (1000000) <= q1 -> q1 <= q2 -> q2 <= 1000000 ->
  exists m1 m2,
    _calculate_impact_metrics (Fin q1) = Ok m1 /\
    _calculate_impact_metrics (Fin q2) = Ok m2 /\
    (trees_equivalent m1 <= trees_equivalent m2)%Z /\
    fle (co2_saved_kg m1) (co2_saved_kg m2) = true /\
    fle (car_km_avoided m1) (car_km_avoided m2) = true /\
    fle (coal_plants_offset_hours m1) (coal_plants_offset_hours m2) = true /\
    (q1 <= 12 # 100 -> trees_equivalent m1 = 1%Z).
Proof.
  intros _ L _. eexists. eexists.
  split; [apply impact_metrics_Fin|]. split; [apply impact_metrics_Fin|].
  cbn [trees_equivalent co2_saved_kg car_km_avoided coal_plants_offset_hours
       fle].
  split; [|split; [|split; [|split]]].
  - apply Z.max_le_compat_l, Qtrunc_mono.
    unfold Qdiv. apply Qmult_le_compat_r; [|discriminate].
    apply Qmult_le_compat_r; [exact L|discriminate].
  - apply Qle_bool_iff, Qround_digits_mono, L.
  - apply Qle_bool_iff, Qround_digits_mono.
    unfold Qdiv. apply Qmult_le_compat_r; [exact L|discriminate].
  - apply Qle_bool_iff, Qround_digits_mono.
    unfold Qdiv. apply Qmult_le_compat_r; [exact L|discriminate].
  - intro H.
    assert (T : (Qtrunc (q1 * 365 / 22) <= 1)%Z).
    { apply Qtrunc_below_two. apply Qlt_shift_div_r; [reflexivity|]. lra. }
    lia.
Qed.

Lemma impact_metrics_monotone_witness :
  exists m1 m2,
    _calculate_impact_metrics (Fin (1 # 10)) = Ok m1 /\
    _calculate_impact_metrics (Fin 3) = Ok m2 /\
    (trees_equivalent m1 <= trees_equivalent m2)%Z /\
    trees_equivalent m1 = 1%Z.
Proof.
  destruct (impact_metrics_monotone (1 # 10) 3)
    as (m1 & m2 & H1 & H2 & T & _ & _ & _ & O).
  - discriminate.
  - discriminate.
  - discriminate.
  - exists m1, m2. repeat (split; [assumption|]). apply O. discriminate.
Defined.

(** ** The impact of a usage *)

Lemma or_default_Fin (c : Q) (dflt : float) :
  200 <= c -> or_default (Some (Fin c)) dflt = Fin c.
Proof.
  intro H. unfold or_default.
  destruct (Qeq_bool c 0) eqn:E; [|reflexivity].
  apply Qeq_bool_iff in E. lra.
Qed.

Lemma mock_point_carbon (base_time : Z) (i : nat) (p : PredictionPoint) :
  mock_point_ok base_time i p ->
  carbon_intensity p = Some (Fin (carbon_of p)) /\ 200 <= carbon_of p <= 600.
Proof.
  intros (s & _ & _ & _ & C & _ & B). unfold carbon_of. rewrite C.
  cbn [to_Q]. auto.
Qed.

(** X14.  When every uniform draw lies in [[0, 1)] and the usage is
    between [0] and [1000] kWh (the bound of the route), [calculate_impact]
    answers.  The cleanest and the dirtiest hour are taken among the 24
    mock points: their carbon intensities [lo <= hi] are the least and the
    greatest of the 24, both in [[200, 600]]; the CO2 of the three metrics
    is [lo * usage / 1000], [hi * usage / 1000] and their difference, each
    rounded to two decimals, so the CO2 reported as potential saving is
    never negative, and the cleanest hour never reports more trees than
    the dirtiest. *)
Theorem impact_of_usage
    (np_sin_pi_12 : Z -> Q) (np_random_random np_random_normal : nat -> Q)
    (base_time : Z) (location : string) (u : Q) :
  (forall n, 0 <= np_random_random n < 1) -> 0 <= u <= 1000 ->
  exists resp pr lo hi c1 c2 c3,
    calculate_impact np_sin_pi_12 np_random_random np_random_normal
      base_time location (Fin u) = Ok resp /\
    PredictionService.generate_predictions np_sin_pi_12 np_random_random
      np_random_normal base_time location = Ok pr /\
    (exists p, In p (pr_predictions pr) /\ carbon_intensity p = Some (Fin lo)) /\
    (exists p, In p (pr_predictions pr) /\ carbon_intensity p = Some (Fin hi)) /\
    (forall p, In p (pr_predictions pr) ->
       exists c, carbon_intensity p = Some (Fin c) /\ lo <= c <= hi) /\
    200 <= lo /\ lo <= hi /\ hi <= 600 /\
    ir_location resp = location /\ usage_kwh resp = Fin u /\
    co2_saved_kg (cleanest_hour_impact resp) = Fin c1 /\
    rounded_to 2 (lo * u / 1000) c1 /\
    co2_saved_kg (dirtiest_hour_impact resp) = Fin c2 /\
    rounded_to 2 (hi * u / 1000) c2 /\
    co2_saved_kg (potential_savings resp) = Fin c3 /\
    rounded_to 2 (hi * u / 1000 - lo * u / 1000) c3 /\
    0 <= c3 /\ c1 <= c2 /\
    (trees_equivalent (cleanest_hour_impact resp)
     <= trees_equivalent (dirtiest_hour_impact resp))%Z.
Proof.
  intros uniform (Hu & _).
  destruct (mock_predictions_full np_sin_pi_12 np_random_random
              np_random_normal uniform base_time location 24)
    as (pts & E & L & H).
  assert (Hc : forall p, In p pts ->
            carbon_intensity p = Some (Fin (carbon_of p)) /\
            200 <= carbon_of p <= 600).
  { intros p Hp. apply In_nth_error in Hp. destruct Hp as (i & Hi).
    destruct (H i p Hi) as (Hok & _).
    eapply mock_point_carbon, Hok. }
  assert (Pne : pts <> []) by (intros ->; discriminate).
  destruct (min_by_first
              (fun p => or_default (carbon_intensity p) (Fin 600))
              carbon_of pts Pne)
    as (kc & cleanest & Hmin & Hkc & Hleast).
  { intros x Hx. destruct (Hc x Hx) as (C & B & _). rewrite C.
    apply or_default_Fin, B. }
  destruct (max_by_first
              (fun p => or_default (carbon_intensity p) (Fin 200))
              carbon_of pts Pne)
    as (kd & dirtiest & Hmax & Hkd & Hmost).
  { intros x Hx. destruct (Hc x Hx) as (C & B & _). rewrite C.
    apply or_default_Fin, B. }
  assert (Icl : In cleanest pts) by (eapply nth_error_In, Hkc).
  assert (Idi : In dirtiest pts) by (eapply nth_error_In, Hkd).
  destruct (Hc cleanest Icl) as (Ccl & Bcl).
  destruct (Hc dirtiest Idi) as (Cdi & Bdi).
  set (lo := carbon_of cleanest) in *. set (hi := carbon_of dirtiest) in *.
  assert (Hlh : lo <= hi) by (apply (Hleast kd dirtiest Hkd)).
  assert (Hpr : PredictionService.generate_predictions np_sin_pi_12
                  np_random_random np_random_normal base_time location
                = Ok {| pr_location := location; pr_predictions := pts;
                        pr_model_version := Some "1.0.0"%string;
                        pr_data_freshness := Some "< 15 minutes"%string |}).
  { unfold PredictionService.generate_predictions. rewrite E. cbn [bind].
    unfold mkPredictionsResponse. rewrite L. reflexivity. }
  assert (Co2 : forall c, fdiv (fmul (Fin c) (Fin u)) (Fin 1000)
                          = Fin (c * u / 1000)) by reflexivity.
  unfold calculate_impact. rewrite Hpr. cbn [bind pr_predictions].
  rewrite Hmin, Hmax. cbn [bind].
  rewrite Ccl, Cdi, !or_default_Fin by apply Bcl || apply Bdi.
  rewrite !Co2. cbv [fsub fadd fneg]. rewrite !impact_metrics_Fin.
  cbn [bind]. eexists. eexists. exists lo, hi.
  exists (Qround_digits 2 (lo * u / 1000)), (Qround_digits 2 (hi * u / 1000)),
    (Qround_digits 2 (hi * u / 1000 - lo * u / 1000)).
  split; [reflexivity|]. split; [reflexivity|].
  cbn [pr_predictions ir_location usage_kwh cleanest_hour_impact
       dirtiest_hour_impact potential_savings co2_saved_kg trees_equivalent].
  split; [exists cleanest; auto|]. split; [exists dirtiest; auto|].
  split.
  { intros p Hp. exists (carbon_of p). split; [apply Hc, Hp|].
    apply In_nth_error in Hp. destruct Hp as (j & Hj). split.
    - apply (Hleast j p Hj).
    - pose proof (proj1 (Hmost j p Hj)) as Hm. cbv beta in Hm.
      fold hi in Hm. lra. }
  split; [apply Bcl|]. split; [exact Hlh|]. split; [apply Bdi|].
  split; [reflexivity|]. split; [reflexivity|].
  assert (Hprod : lo * u / 1000 <= hi * u / 1000).
  { unfold Qdiv. apply Qmult_le_compat_r; [|discriminate].
    apply Qmult_le_compat_r; assumption. }
  split; [reflexivity|]. split; [apply Qround_digits_rounded_to|].
  split; [reflexivity|]. split; [apply Qround_digits_rounded_to|].
  split; [reflexivity|]. split; [apply Qround_digits_rounded_to|].
  split; [|split].
  - apply (Qround_digits_lower 2 0). unfold inject_Z.
    generalize dependent (lo * u / 1000). generalize (hi * u / 1000).
    intros. lra.
  - apply Qround_digits_mono, Hprod.
  - apply Z.max_le_compat_l, Qtrunc_mono.
    unfold Qdiv. apply Qmult_le_compat_r; [|discriminate].
    apply Qmult_le_compat_r; [exact Hprod|discriminate].
Qed.

Lemma impact_of_usage_witness :
  exists resp,
    calculate_impact (fun _ => 1) (fun _ => 1 # 2) (fun _ => 30) 12 "Paris"
      (Fin 2) = Ok resp /\
    usage_kwh resp = Fin 2.
Proof.
  destruct (impact_of_usage (fun _ => 1) (fun _ => 1 # 2) (fun _ => 30) 12
              "Paris" 2)
    as (resp & pr & lo & hi & c1 & c2 & c3 & H & _ & _ & _ & _ & _ & _ & _
        & _ & U & _).
  - intros _. split; [discriminate|reflexivity].
  - split; discriminate.
  - exists resp. split; [exact H|exact U].
Defined.

(** ** How far a rounded value is from the exact one *)



(** X16.  In the mock predictions the two reported fields stay close to
    the relation they are computed from: when every uniform draw lies in
    [[0, 1)], each point has a carbon intensity within [0.25] of
    [600 - 4 * cleanliness_score]. *)
Theorem mock_carbon_close_to_score
    (np_sin_pi_12 : Z -> Q) (np_random_random np_random_normal : nat -> Q)
    (base_time : Z) (location : string) (hours : nat) :
  (forall n, 0 <= np_random_random n < 1) ->
  exists pts,
    _generate_mock_predictions np_sin_pi_12 np_random_random
      np_random_normal base_time location hours = Ok pts /\
    forall p, In p pts ->
      exists cs ci,
        cleanliness_score p = Fin cs /\
        carbon_intensity p = Some (Fin ci) /\
        - (1 # 4) <= ci - (600 - 4 * cs) <= 1 # 4.
Proof.
  intro uniform.
  destruct (mock_predictions_full np_sin_pi_12 np_random_random
              np_random_normal uniform base_time location hours)
    as (pts & E & _ & H).
  exists pts. split; [exact E|].
  intros p Hp. apply In_nth_error in Hp. destruct Hp as (i & Hi).
  destruct (H i p Hi) as ((s & _ & _ & Cs & Ci & _) & _).
  exists (Qround_digits 1 s), (Qround_digits 1 (600 - s * 4)).
  split; [exact Cs|]. split; [exact Ci|].
  pose proof (Qround_digits_error 1 s) as (L1 & U1).
  pose proof (Qround_digits_error 1 (600 - s * 4)) as (L2 & U2).
  change (1 # 2 * pow10 1) with (1 # 20) in *.
  generalize dependent (Qround_digits 1 (600 - s * 4)).
  generalize dependent (Qround_digits 1 s). intros. split; lra.
Qed.

Lemma mock_carbon_close_to_score_witness :
  exists pts,
    _generate_mock_predictions (fun _ => 0) (fun _ => 0)
      (fun _ => 1004 # 100) 0 "Paris" 1 = Ok pts.
Proof.
  destruct (mock_carbon_close_to_score (fun _ => 0) (fun _ => 0)
              (fun _ => 1004 # 100) 0 "Paris" 1) as (pts & H & _).
  - intros _. split; [discriminate|reflexivity].
  - exists pts. exact H.
Defined.
